(** * build_public_pages.py: a shallow embedding and its properties

    The static site builder reads JSON/YAML records from loosely named
    folders and renders eight HTML pages.  This development embeds the
    builder in Gallina and settles the claims of its specification.

    Conventions of the model.
    - A Python [str] is a [string] of UTF-8 bytes.  Character classes
      (whitespace, letters, digits) and case mapping are those of the ASCII
      range; bytes above 127 are left alone.
    - A Python [float] is a binary64 number of [SpecFloat].
    - The file system is the tree below the working directory of the run
      (the repository root the entry point changes to); a path is the list
      of its components ([os.path.join] is list append), and a directory
      lists its entries in one fixed order.  The directory constants of the
      module are resolved at import, possibly in another tree, and are a
      parameter of the pages.  The clean-up of the entry point opens and
      removes files as Python does: a directory makes it raise.  A
      renderer writes its page after the clean-up, to a name that is free
      by then, and its write succeeds.  Reads fail as they do in Python.
    - What the Python run time and its libraries provide ([json.loads],
      [yaml.safe_load], [float] on a string, [repr]) is a parameter of the
      model. *)

From Stdlib Require Import String Ascii List ZArith Lia Bool Arith.
From Stdlib Require Import Permutation SpecFloat DecimalString.
Import ListNotations.
#[local] Set Warnings "-register-all".
Local Open Scope list_scope.
Local Open Scope string_scope.

(* ------------------------------------------------------------------ *)
(** ** Python strings *)

Module Str.

(** The characters a string literal of this file cannot hold. *)
Definition dq : string := String "034"%char EmptyString.
Definition nl : string := String "010"%char EmptyString.
Definition backslash : string := String "092"%char EmptyString.

Definition code (c : ascii) : nat := nat_of_ascii c.

Definition between (lo hi : nat) (c : ascii) : bool :=
  (lo <=? code c)%nat && (code c <=? hi)%nat.

(** [str.isspace] on the ASCII range: TAB..CR, FS..US and the space. *)
Definition is_space (c : ascii) : bool := between 9 13 c || between 28 32 c.
Definition is_digit (c : ascii) : bool := between 48 57 c.
Definition is_upper (c : ascii) : bool := between 65 90 c.
Definition is_lower (c : ascii) : bool := between 97 122 c.
Definition is_alpha (c : ascii) : bool := is_upper c || is_lower c.
Definition is_alnum (c : ascii) : bool := is_alpha c || is_digit c.

Definition lower_char (c : ascii) : ascii :=
  if is_upper c then ascii_of_nat (code c + 32) else c.
Definition upper_char (c : ascii) : ascii :=
  if is_lower c then ascii_of_nat (code c - 32) else c.

Fixpoint map_chars (f : ascii -> ascii) (s : string) : string :=
  match s with
  | EmptyString => EmptyString
  | String c s' => String (f c) (map_chars f s')
  end.

Fixpoint filter_chars (f : ascii -> bool) (s : string) : string :=
  match s with
  | EmptyString => EmptyString
  | String c s' => if f c then String c (filter_chars f s') else filter_chars f s'
  end.

Definition lower : string -> string := map_chars lower_char.

(** [str.title]: a letter is upper-cased after an uncased character and
    lower-cased after a cased one. *)
Fixpoint title_from (prev_cased : bool) (s : string) : string :=
  match s with
  | EmptyString => EmptyString
  | String c s' =>
      if is_alpha c
      then String (if prev_cased then lower_char c else upper_char c) (title_from true s')
      else String c (title_from false s')
  end.
Definition title : string -> string := title_from false.

Fixpoint lstrip (s : string) : string :=
  match s with
  | EmptyString => EmptyString
  | String c s' => if is_space c then lstrip s' else s
  end.

Fixpoint rstrip (s : string) : string :=
  match s with
  | EmptyString => EmptyString
  | String c s' =>
      match rstrip s' with
      | EmptyString => if is_space c then EmptyString else String c EmptyString
      | r => String c r
      end
  end.

Definition strip (s : string) : string := rstrip (lstrip s).

Definition is_empty (s : string) : bool :=
  match s with EmptyString => true | _ => false end.

Definition startswith (s p : string) : bool := String.prefix p s.

Fixpoint rev_onto (acc s : string) : string :=
  match s with
  | EmptyString => acc
  | String c s' => rev_onto (String c acc) s'
  end.
Definition rev : string -> string := rev_onto EmptyString.

(** [s.endswith(p)]: read from the end, [p] is a prefix of [s]. *)
Definition endswith (s p : string) : bool := String.prefix (rev p) (rev s).

(** [s.endswith((p1, p2, ...))] *)
Definition endswith_any (s : string) (ps : list string) : bool :=
  existsb (endswith s) ps.
Definition startswith_any (s : string) (ps : list string) : bool :=
  existsb (startswith s) ps.

(** [sub in s] *)
Fixpoint contains (sub s : string) : bool :=
  String.prefix sub s
  || match s with
     | EmptyString => false
     | String _ s' => contains sub s'
     end.

Fixpoint drop (n : nat) (s : string) : string :=
  match n, s with
  | O, _ => s
  | S n', EmptyString => EmptyString
  | S n', String _ s' => drop n' s'
  end.

(** [s.replace(pat, rep)] for a non-empty [pat]: scan left to right, and
    after a match skip the rest of the matched text. *)
Fixpoint replace_from (pat rep s : string) (skip : nat) : string :=
  match s with
  | EmptyString => EmptyString
  | String c s' =>
      match skip with
      | S k => replace_from pat rep s' k
      | O =>
          if String.prefix pat s
          then rep ++ replace_from pat rep s' (String.length pat - 1)
          else String c (replace_from pat rep s' 0)
      end
  end.
Definition replace (pat rep s : string) : string := replace_from pat rep s 0.

(** [s.split(sep)] for a one-character separator. *)
Fixpoint split (sep : ascii) (s : string) : list string :=
  match s with
  | EmptyString => [EmptyString]
  | String c s' =>
      if Ascii.eqb c sep then EmptyString :: split sep s'
      else match split sep s' with
           | [] => [String c EmptyString]
           | w :: ws => String c w :: ws
           end
  end.

(** [s.split(sep, 1)]: the text before the first separator, and the text
    after it when there is one. *)
Fixpoint split1 (sep : ascii) (s : string) : string * option string :=
  match s with
  | EmptyString => (EmptyString, None)
  | String c s' =>
      if Ascii.eqb c sep then (EmptyString, Some s')
      else let '(a, b) := split1 sep s' in (String c a, b)
  end.

(** [s.split(sep, 1)[-1]] *)
Definition after_first (sep : ascii) (s : string) : string :=
  match split1 sep s with
  | (_, Some b) => b
  | (a, None) => a
  end.

(** [s.rsplit(sep, 1)[-1]] *)
Definition after_last (sep : ascii) (s : string) : string :=
  last (split sep s) EmptyString.

Definition join (sep : string) (l : list string) : string := String.concat sep l.

(** [s * n] *)
Fixpoint repeat (s : string) (n : nat) : string :=
  match n with
  | O => EmptyString
  | S n' => s ++ repeat s n'
  end.

Definition snoc (s : string) (c : ascii) : string := s ++ String c EmptyString.

(** [str.splitlines] on the ASCII line boundaries (LF, CR, CRLF, VT, FF,
    FS, GS, RS); [cur] is the line being read. *)
Definition is_linebreak (c : ascii) : bool :=
  between 10 13 c || between 28 30 c.

Fixpoint splitlines_from (cur : string) (s : string) : list string :=
  match s with
  | EmptyString => if is_empty cur then [] else [cur]
  | String c s' =>
      if is_linebreak c then
        cur :: match s' with
               | String c' s'' =>
                   if (code c =? 13)%nat && (code c' =? 10)%nat
                   then splitlines_from EmptyString s''
                   else splitlines_from EmptyString s'
               | EmptyString => splitlines_from EmptyString s'
               end
      else splitlines_from (snoc cur c) s'
  end.
Definition splitlines : string -> list string := splitlines_from EmptyString.

(** [sorted] on strings: insertion sort by the byte-wise order, which on
    UTF-8 text is the code point order. *)
Fixpoint insert_by {A} (key : A -> string) (x : A) (l : list A) : list A :=
  match l with
  | [] => [x]
  | y :: l' => if String.leb (key x) (key y) then x :: l else y :: insert_by key x l'
  end.
Definition sort_by {A} (key : A -> string) (l : list A) : list A :=
  fold_right (insert_by key) [] l.
Definition sorted (l : list string) : list string := sort_by (fun s => s) l.

(** [str(n)] for an integer. *)
Definition of_Z (z : Z) : string := NilZero.string_of_int (Z.to_int z).
Definition of_nat (n : nat) : string := of_Z (Z.of_nat n).

(** Two-digit, zero-padded decimal (the %m, %d, %H and %M of strftime). *)
Definition two_digits (z : Z) : string :=
  if (z <? 10)%Z then "0" ++ of_Z z else of_Z z.

(** [urllib.parse.quote_plus]: unreserved characters stay, a space becomes
    a plus sign, every other byte is percent-encoded. *)
Definition hex_digit (n : nat) : ascii :=
  if (n <? 10)%nat then ascii_of_nat (48 + n) else ascii_of_nat (55 + n).

Definition quote_char (c : ascii) : string :=
  if is_alnum c || existsb (Ascii.eqb c) ["_"; "."; "-"; "~"]%char
  then String c EmptyString
  else if Ascii.eqb c " "%char then "+"
  else String "%"%char
         (String (hex_digit (code c / 16)) (String (hex_digit (code c mod 16)) EmptyString)).

Fixpoint quote_plus (s : string) : string :=
  match s with
  | EmptyString => EmptyString
  | String c s' => quote_char c ++ quote_plus s'
  end.

End Str.

Example strip_example : Str.strip "  a b	" = "a b".
Proof. reflexivity. Qed.

Example title_example : Str.title "roof repair-now" = "Roof Repair-Now".
Proof. reflexivity. Qed.

Example replace_example : Str.replace "schemas/" "" "schemas/a/schemas/b" = "a/b".
Proof. reflexivity. Qed.

Example splitlines_example :
  Str.splitlines ("a" ++ Str.nl ++ Str.nl ++ "b" ++ Str.nl) = ["a"; ""; "b"].
Proof. reflexivity. Qed.

Example sorted_example : Str.sorted ["b.json"; "a.yaml"; "B.json"] = ["B.json"; "a.yaml"; "b.json"].
Proof. reflexivity. Qed.

Example quote_plus_example : Str.quote_plus "1 Main St, #2" = "1+Main+St%2C+%232".
Proof. reflexivity. Qed.

(* ------------------------------------------------------------------ *)
(** ** Exceptions and results *)

(** A raised exception: its class and its message ([str(e)]). *)
Inductive exn : Type :=
| Exn (cls : string) (msg : string).

Definition exn_msg (e : exn) : string := let '(Exn _ m) := e in m.

Inductive result (A : Type) : Type :=
| Ok (a : A)
| Raise (e : exn).
Arguments Ok {A} a.
Arguments Raise {A} e.

Definition is_ok {A} (r : result A) : bool :=
  match r with Ok _ => true | Raise _ => false end.

Definition rbind {A B} (r : result A) (k : A -> result B) : result B :=
  match r with
  | Ok a => k a
  | Raise e => Raise e
  end.

(* ------------------------------------------------------------------ *)
(** ** binary64 *)

Module F64.

Definition t := spec_float.

Definition prec : Z := 53.
Definition emax : Z := 1024.

Definition of_Z (z : Z) : t := binary_normalize prec emax z 0 false.
Definition add : t -> t -> t := SFadd prec emax.
Definition div : t -> t -> t := SFdiv prec emax.

Definition zero : t := S754_zero false.

Definition is_nan (x : t) : bool :=
  match x with S754_nan => true | _ => false end.
Definition is_zero (x : t) : bool :=
  match x with S754_zero _ => true | _ => false end.

(** [x > y] *)
Definition gtb (x y : t) : bool :=
  match SFcompare x y with Some Gt => true | _ => false end.

(** [x == y] *)
Definition eqb (x y : t) : bool :=
  match SFcompare x y with Some Eq => true | _ => false end.

(** A finite float [m * 2^e] as the fraction [num / den] of its magnitude. *)
Definition num (m : positive) (e : Z) : Z := Z.pos m * 2 ^ Z.max e 0.
Definition den (e : Z) : Z := 2 ^ Z.max (- e) 0.

(** [n / d] rounded to the nearest integer, ties to even. *)
Definition div_half_even (n d : Z) : Z :=
  let q := (n / d)%Z in
  let r := (n mod d)%Z in
  if (2 * r <? d)%Z then q
  else if (d <? 2 * r)%Z then (q + 1)%Z
  else if Z.even q then q else (q + 1)%Z.

Definition signed (s : bool) (z : Z) : Z := if s then (- z)%Z else z.

(** [round(x)]: the nearest integer, ties to even. *)
Definition round (x : t) : result Z :=
  match x with
  | S754_zero _ => Ok 0%Z
  | S754_finite s m e => Ok (signed s (div_half_even (num m e) (den e)))
  | S754_infinity _ => Raise (Exn "OverflowError" "cannot convert float infinity to integer")
  | S754_nan => Raise (Exn "ValueError" "cannot convert float NaN to integer")
  end.

(** [int(x)]: truncation towards zero. *)
Definition to_int (x : t) : result Z :=
  match x with
  | S754_zero _ => Ok 0%Z
  | S754_finite s m e => Ok (signed s (num m e / den e))
  | S754_infinity _ => Raise (Exn "OverflowError" "cannot convert float infinity to integer")
  | S754_nan => Raise (Exn "ValueError" "cannot convert float NaN to integer")
  end.

(** [format(x, '.1f')]: one decimal, the exact value rounded ties to even. *)
Definition tenths_str (s : bool) (q : Z) : string :=
  (if s then "-" else "") ++ Str.of_Z (q / 10) ++ "." ++ Str.of_Z (q mod 10).

Definition format_1f (x : t) : string :=
  match x with
  | S754_zero s => tenths_str s 0
  | S754_finite s m e => tenths_str s (div_half_even (10 * num m e) (den e))
  | S754_infinity s => if s then "-inf" else "inf"
  | S754_nan => "nan"
  end.

(** [sum(xs)] of floats: the integer 0, then binary64 additions from left
    to right (CPython before 3.12; later versions add a compensation term,
    which is zero whenever every partial sum is exact). *)
Definition sum (xs : list t) : t := fold_left add xs zero.

End F64.

Example f64_average_example :
  F64.format_1f (F64.div (F64.sum [F64.of_Z 5; F64.of_Z 3; F64.of_Z 4]) (F64.of_Z 3)) = "4.0".
Proof. reflexivity. Qed.

Example f64_round_half_even : F64.round (F64.div (F64.of_Z 5) (F64.of_Z 2)) = Ok 2%Z.
Proof. reflexivity. Qed.

Example f64_format_quarter : F64.format_1f (F64.div (F64.of_Z 17) (F64.of_Z 4)) = "4.2".
Proof. reflexivity. Qed.

(* ------------------------------------------------------------------ *)
(** ** Python values *)

(** What [json.loads] and [yaml.safe_load] return.  A mapping is its list
    of items; the builder looks items up by string keys only. *)
Inductive pyval : Type :=
| PNone
| PBool (b : bool)
| PInt (z : Z)
| PFloat (f : F64.t)
| PStr (s : string)
| PList (l : list pyval)
| PDict (d : list (string * pyval)).

Definition dict : Type := list (string * pyval).

Module Py.

(** [bool(v)] *)
Definition truthy (v : pyval) : bool :=
  match v with
  | PNone => false
  | PBool b => b
  | PInt z => negb (z =? 0)%Z
  | PFloat f => negb (F64.is_zero f)
  | PStr s => negb (Str.is_empty s)
  | PList l => match l with [] => false | _ => true end
  | PDict d => match d with [] => false | _ => true end
  end.

(** [a or b] *)
Definition or (a b : pyval) : pyval := if truthy a then a else b.

Fixpoint lookup (d : dict) (k : string) : option pyval :=
  match d with
  | [] => None
  | (k', v) :: d' => if String.eqb k' k then Some v else lookup d' k
  end.

(** [k in d] *)
Definition has_key (d : dict) (k : string) : bool :=
  match lookup d k with Some _ => true | None => false end.

(** [d.get(k)] *)
Definition get (d : dict) (k : string) : pyval :=
  match lookup d k with Some v => v | None => PNone end.

(** [d.get(k, default)] *)
Definition get_default (d : dict) (k : string) (default : pyval) : pyval :=
  match lookup d k with Some v => v | None => default end.

(** [v.get(k)] on a value that need not be a mapping. *)
Definition attr_get (v : pyval) (k : string) : result pyval :=
  match v with
  | PDict d => Ok (get d k)
  | _ => Raise (Exn "AttributeError" "object has no attribute 'get'")
  end.

(** [(v or {}).get(k)] *)
Definition or_empty_get (v : pyval) (k : string) : result pyval :=
  attr_get (or v (PDict [])) k.

Definition is_list (v : pyval) : bool :=
  match v with PList _ => true | _ => false end.
Definition is_dict (v : pyval) : bool :=
  match v with PDict _ => true | _ => false end.

(** [isinstance(v, (int, float))]; a [bool] is an [int]. *)
Definition is_number (v : pyval) : bool :=
  match v with PBool _ | PInt _ | PFloat _ => true | _ => false end.

End Py.

(* ------------------------------------------------------------------ *)
(** ** The file system below the working directory *)

Module FS.

Definition path : Type := list string.

(** A file that decodes as UTF-8 text, a file that does not, or a
    directory with its entries in the order [os.listdir] reports them. *)
Inductive node : Type :=
| File (text : string)
| Binary
| Dir (entries : list (string * node)).

Definition tree : Type := list (string * node).

Definition path_str (p : path) : string := Str.join "/" p.

Fixpoint find (name : string) (es : tree) : option node :=
  match es with
  | [] => None
  | (n, x) :: es' => if String.eqb n name then Some x else find name es'
  end.

Fixpoint lookup (n : node) (p : path) : option node :=
  match p with
  | [] => Some n
  | c :: p' =>
      match n with
      | Dir es => match find c es with
                  | Some m => lookup m p'
                  | None => None
                  end
      | _ => None
      end
  end.

Definition at_path (t : tree) (p : path) : option node := lookup (Dir t) p.

(** [os.path.exists] and [os.path.isdir] *)
Definition node_exists (o : option node) : bool :=
  match o with Some _ => true | None => false end.
Definition node_isdir (o : option node) : bool :=
  match o with Some (Dir _) => true | _ => false end.

(** [os.listdir] *)
Definition node_listdir (p : path) (o : option node) : result (list string) :=
  match o with
  | Some (Dir es) => Ok (map fst es)
  | Some _ => Raise (Exn "NotADirectoryError" ("Not a directory: " ++ path_str p))
  | None => Raise (Exn "FileNotFoundError" ("No such file or directory: " ++ path_str p))
  end.

(** [open(p, "r", encoding="utf-8").read()] *)
Definition node_read (p : path) (o : option node) : result string :=
  match o with
  | Some (File s) => Ok s
  | Some Binary => Raise (Exn "UnicodeDecodeError" "'utf-8' codec can't decode")
  | Some (Dir _) => Raise (Exn "IsADirectoryError" ("Is a directory: " ++ path_str p))
  | None => Raise (Exn "FileNotFoundError" ("No such file or directory: " ++ path_str p))
  end.

Definition is_dir_node (n : node) : bool :=
  match n with Dir _ => true | _ => false end.

(** [os.walk(top)], flattened as [for root, _, files in os.walk(top):
    for fn in files: yield (root, fn)]: the files of a directory first,
    then its sub-directories in turn. *)
Fixpoint walk (root : path) (n : node) : list (path * string) :=
  match n with
  | Dir es =>
      (map (fun e => (root, fst e)) (filter (fun e => negb (is_dir_node (snd e))) es)
       ++ (fix subdirs (l : list (string * node)) : list (path * string) :=
             match l with
             | [] => []
             | (name, child) :: l' => walk (root ++ [name]) child ++ subdirs l'
             end) es)%list
  | _ => []
  end.

Definition node_walk (p : path) (o : option node) : list (path * string) :=
  match o with Some n => walk p n | None => [] end.

Definition exists_ (t : tree) (p : path) : bool := node_exists (at_path t p).
Definition isdir (t : tree) (p : path) : bool := node_isdir (at_path t p).
Definition listdir (t : tree) (p : path) : result (list string) := node_listdir p (at_path t p).
Definition read_text (t : tree) (p : path) : result string := node_read p (at_path t p).
Definition walk_files (t : tree) (p : path) : list (path * string) := node_walk p (at_path t p).

(** Entries of the working directory: the tree without the entry
    [name], and the tree in which [name] is a file that holds [text]. *)
Definition remove (name : string) (t : tree) : tree :=
  filter (fun e => negb (String.eqb (fst e) name)) t.

Definition write (name : string) (text : string) (t : tree) : tree :=
  (name, File text) :: remove name t.

Definition is_a_directory (name : string) : exn :=
  Exn "IsADirectoryError" ("[Errno 21] Is a directory: '" ++ name ++ "'").

(** [os.remove(name)]: a file is removed; a directory is not, and neither
    is a name that is not there. *)
Definition os_remove (name : string) (t : tree) : result tree :=
  match find name t with
  | Some (Dir _) => Raise (is_a_directory name)
  | Some _ => Ok (remove name t)
  | None =>
      Raise (Exn "FileNotFoundError"
               ("[Errno 2] No such file or directory: '" ++ name ++ "'"))
  end.

(** [open(name, "w")]: the file is created, or emptied when it is there;
    a directory of that name cannot be opened. *)
Definition open_w (name : string) (t : tree) : result tree :=
  match find name t with
  | Some (Dir _) => Raise (is_a_directory name)
  | _ => Ok (write name "" t)
  end.

End FS.

(* ------------------------------------------------------------------ *)
(** ** The state of a run: the working tree and what was printed *)

Record world : Type := World {
  files : FS.tree;
  stdout : list string
}.

(** A statement: it changes the world and returns or raises.  What it
    did before raising stays done. *)
Definition M (A : Type) : Type := world -> world * result A.

Definition ret {A} (a : A) : M A := fun w => (w, Ok a).
Definition raise {A} (e : exn) : M A := fun w => (w, Raise e).

Definition bind {A B} (m : M A) (k : A -> M B) : M B :=
  fun w =>
    match m w with
    | (w', Ok a) => k a w'
    | (w', Raise e) => (w', Raise e)
    end.

Notation "x <- m ;; k" := (bind m (fun x => k))
  (at level 61, m at next level, right associativity).
Notation "m ;;; k" := (bind m (fun _ => k))
  (at level 61, right associativity).

(** [try: m except Exception as e: h(e)] *)
Definition try_except {A} (m : M A) (h : exn -> M A) : M A :=
  fun w =>
    match m w with
    | (w', Ok a) => (w', Ok a)
    | (w', Raise e) => h e w'
    end.

Definition lift {A} (r : result A) : M A := fun w => (w, r).

(** Reading the tree. *)
Definition reads {A} (f : FS.tree -> A) : M A := fun w => (w, Ok (f (files w))).
Definition reads_result {A} (f : FS.tree -> result A) : M A := fun w => (w, f (files w)).

Definition print (line : string) : M unit :=
  fun w => (World (files w) (stdout w ++ [line])%list, Ok tt).

Definition modify_files (f : FS.tree -> FS.tree) : M unit :=
  fun w => (World (f (files w)) (stdout w), Ok tt).

(** A change of the tree that can fail: nothing is changed then. *)
Definition update_files (f : FS.tree -> result FS.tree) : M unit :=
  fun w =>
    match f (files w) with
    | Ok t => (World t (stdout w), Ok tt)
    | Raise e => (w, Raise e)
    end.

(** [for x in xs: acc = body(acc, x)] *)
Fixpoint for_each {A X} (xs : list X) (acc : A) (body : A -> X -> M A) : M A :=
  match xs with
  | [] => ret acc
  | x :: xs' => acc' <- body acc x ;; for_each xs' acc' body
  end.

(* ------------------------------------------------------------------ *)
(** ** The builder *)

(** In the HTML templates below a backquote stands for the double quote of
    the Python source. *)
Definition q (template : string) : string :=
  Str.map_chars (fun c => if Ascii.eqb c "`"%char then "034"%char else c) template.

(** [datetime.now().year] and the fields of [datetime.utcnow()]. *)
Record clock : Type := Clock {
  local_year : Z;
  utc_year : Z;
  utc_month : Z;
  utc_day : Z;
  utc_hour : Z;
  utc_minute : Z
}.

(** The module-level directory constants, resolved once at import. *)
Record dirs : Type := Dirs {
  ORG_DIR : option FS.path;
  SERVICES_DIR : option FS.path;
  REVIEWS_DIR : option FS.path;
  FAQ_DIR : option FS.path;
  HELP_DIR : option FS.path;
  LOCATIONS_DIR : option FS.path;
  TEAM_DIR : option FS.path;
  PRESS_DIR : option FS.path;
  CASE_STUDIES_DIR : option FS.path;
  LLM_DATA_DIR : option FS.path
}.

(** Site branding: each field is [None] or a string. *)
Record org_meta : Type := OrgMeta {
  meta_name : pyval;
  meta_favicon : pyval;
  meta_logo : pyval;
  meta_website : pyval
}.

(* ------------------------------------------------------------------ *)
(** ** A run time for the examples *)

Module Demo.

(** The documents the examples load, with the value [json.loads] gives for
    each ([yaml.safe_load] gives the same value on them). *)
Definition documents : list (string * pyval) :=
  [("{}", PDict []);
   (q "{`title`: `Roofing`}", PDict [("title", PStr "Roofing")]);
   (q "{`title`: `Service`, `keywords`: [`roof repair`]}",
    PDict [("title", PStr "Service"); ("keywords", PList [PStr "roof repair"])]);
   (q "{`title`: `item 3`}", PDict [("title", PStr "item 3")]);
   (q "[{`rating`: 5}, {`rating`: 3}]", PList [PDict [("rating", PInt 5)]; PDict [("rating", PInt 3)]]);
   (q "{`rating`: 4}", PDict [("rating", PInt 4)]);
   (q "{`faqs`: [{`question`: `Q?`, `answer`: `A.`}]}",
    PDict [("faqs", PList [PDict [("question", PStr "Q?"); ("answer", PStr "A.")]])]);
   (q "{`locations`: [{`name`: `HQ`}]}",
    PDict [("locations", PList [PDict [("name", PStr "HQ")]])]);
   (q "{`name`: `HQ`, `geo`: `40.7,-74.0`}",
    PDict [("name", PStr "HQ"); ("geo", PStr "40.7,-74.0")])].

Fixpoint lookup_document (text : string) (docs : list (string * pyval)) : result pyval :=
  match docs with
  | [] => Raise (Exn "ValueError" "Expecting value: line 1 column 1 (char 0)")
  | (t, v) :: rest => if String.eqb t text then Ok v else lookup_document text rest
  end.

Definition json_loads (text : string) : result pyval := lookup_document text documents.
Definition yaml_safe_load (text : string) : result pyval := lookup_document text documents.

(** The examples convert no numeric string and print no float or
    container. *)
Definition float_of_str (text : string) : result F64.t :=
  Raise (Exn "ValueError" ("could not convert string to float: " ++ text)).
Definition repr (v : pyval) : string := "<repr>".

Definition noon : clock :=
  {| local_year := 2025; utc_year := 2025; utc_month := 3; utc_day := 9;
     utc_hour := 12; utc_minute := 5 |}.

End Demo.

(* ------------------------------------------------------------------ *)
(** ** Strings and lists: a few facts *)

Lemma append_assoc (a b c : string) : (a ++ b) ++ c = a ++ b ++ c.
Proof. induction a as [|x a IH]; simpl; [reflexivity | now rewrite IH]. Qed.

Lemma append_nil_r (a : string) : a ++ "" = a.
Proof. induction a as [|x a IH]; simpl; [reflexivity | now rewrite IH]. Qed.

Lemma permutation_of_three {A} (a b c : A) (l : list A) :
  Permutation l [a; b; c] ->
  l = [a; b; c] \/ l = [a; c; b] \/ l = [b; a; c]
  \/ l = [b; c; a] \/ l = [c; a; b] \/ l = [c; b; a].
Proof.
  intros H.
  destruct (Permutation_vs_cons_inv H) as (l1 & l2 & ->).
  apply Permutation_sym, Permutation_cons_app_inv, Permutation_length_2_inv in H.
  destruct l1 as [|x [|y [|z l1]]]; simpl in *.
  - destruct H as [-> | ->]; auto 10.
  - destruct H as [H | H]; injection H as -> ->; auto 10.
  - destruct H as [H | H]; injection H as -> -> ->; auto 10.
  - destruct H as [H | H]; discriminate H.
Qed.


Section Builder.

(** The Python run time: the two parsers ([Raise] when they raise),
    [float] on a string, and [repr]. *)
Variable json_loads : string -> result pyval.
Variable yaml_safe_load : string -> result pyval.
Variable float_of_str : string -> result F64.t.
Variable repr : pyval -> string.

(** [str(v)] *)
Definition py_str (v : pyval) : string :=
  match v with
  | PStr s => s
  | PInt z => Str.of_Z z
  | PBool true => "True"
  | PBool false => "False"
  | PNone => "None"
  | _ => repr v
  end.

(** [float(v)] *)
Definition py_float (v : pyval) : result F64.t :=
  match v with
  | PFloat f => Ok f
  | PInt z =>
      match F64.of_Z z with
      | S754_infinity _ => Raise (Exn "OverflowError" "int too large to convert to float")
      | f => Ok f
      end
  | PBool b => Ok (F64.of_Z (if b then 1 else 0))
  | PStr s => float_of_str s
  | _ => Raise (Exn "TypeError" "float() argument must be a string or a real number")
  end.

(** *** Utilities *)

Definition escape_html (text : pyval) : string :=
  match text with
  | PStr s => Str.replace ">" "&gt;" (Str.replace "<" "&lt;" (Str.replace "&" "&amp;" s))
  | _ => ""
  end.

Definition esc (s : string) : string := escape_html (PStr s).

(** [re.sub(r"[\s]+", "-", s)] *)
Fixpoint dash_spaces (in_run : bool) (s : string) : string :=
  match s with
  | EmptyString => EmptyString
  | String c s' =>
      if Str.is_space c
      then if in_run then dash_spaces true s' else String "-"%char (dash_spaces true s')
      else String c (dash_spaces false s')
  end.

Definition slugify (text : string) : string :=
  if Str.is_empty text then "item"
  else
    let kept := Str.filter_chars
                  (fun c => Str.is_alnum c || Str.is_space c || Ascii.eqb c "-"%char) text in
    let slug := dash_spaces false (Str.lower (Str.strip kept)) in
    if Str.is_empty slug then "item" else slug.

Fixpoint _first_nonempty (vals : list pyval) : string :=
  match vals with
  | [] => ""
  | v :: rest =>
      match v with
      | PStr s =>
          if negb (Str.is_empty (Str.strip s)) then Str.strip s else _first_nonempty rest
      | PBool _ | PInt _ => py_str v
      | PFloat f => if F64.eqb f f then py_str v else _first_nonempty rest
      | PDict d =>
          match Py.lookup d "@value" with
          | Some (PStr s) =>
              if negb (Str.is_empty (Str.strip s)) then Str.strip s else _first_nonempty rest
          | _ => _first_nonempty rest
          end
      | _ => _first_nonempty rest
      end
  end.

Definition nonblank (s : string) : bool := negb (Str.is_empty (Str.strip s)).

Definition _as_list (val : pyval) : list string :=
  match val with
  | PNone => []
  | PList l => map Str.strip (filter nonblank (map py_str l))
  | PStr s =>
      if nonblank s
      then map Str.strip (filter nonblank (Str.split ","%char s))
      else []
  | _ => []
  end.

(** [os.path.splitext(name)[0]]: cut at the last dot, unless only dots
    come before it. *)
Definition splitext_root (name : string) : string :=
  match Str.split "."%char name with
  | [] | [_] => name
  | parts =>
      let root := Str.join "." (removelast parts) in
      if Str.is_empty (Str.filter_chars (fun c => negb (Ascii.eqb c "."%char)) root)
      then name else root
  end.

Definition basename (p : FS.path) : string := last p "".

Definition _title_from_filename (p : FS.path) : string :=
  let base := splitext_root (basename p) in
  Str.title (Str.strip (Str.replace "_" " " (Str.replace "-" " " base))).

(** [re.fullmatch(r"(service|item|entry)\s*\d+", t)] *)
Definition all_digits (s : string) : bool :=
  negb (Str.is_empty s) && Str.is_empty (Str.filter_chars (fun c => negb (Str.is_digit c)) s).

Definition numbered_after (word t : string) : bool :=
  Str.startswith t word && all_digits (Str.lstrip (Str.drop (String.length word) t)).

Definition generic_titles : list string :=
  ["service"; "unnamed service"; "untitled"; "n/a"; "na"; "tbd"].

Definition _is_placeholder_title (text : pyval) : bool :=
  match text with
  | PStr s =>
      if Str.is_empty (Str.strip s) then true
      else
        let t := Str.lower (Str.strip s) in
        existsb (String.eqb t) generic_titles
        || numbered_after "service" t || numbered_after "item" t || numbered_after "entry" t
  | _ => true
  end.

Definition gets (obj : dict) (keys : list string) : list pyval :=
  map (Py.get obj) keys.

Definition _guess_description (obj : dict) : string :=
  _first_nonempty
    (gets obj ["description"; "summary"; "details"; "body"; "content"; "answer"; "copy"]).

Definition _guess_price (obj : dict) : string :=
  let p := _first_nonempty
             (gets obj ["price"; "price_range"; "starting_price"; "min_price"; "cost"; "fee"]) in
  if Str.is_empty p then "Contact for pricing" else p.

(** [a or b or c] over the values of the listed keys. *)
Fixpoint first_truthy (vals : list pyval) : pyval :=
  match vals with
  | [] => PNone
  | [v] => v
  | v :: rest => if Py.truthy v then v else first_truthy rest
  end.

Fixpoint dedupe (seen : list string) (bullets : list string) : list string :=
  match bullets with
  | [] => []
  | b :: rest =>
      let key := Str.lower b in
      if existsb (String.eqb key) seen then dedupe seen rest
      else b :: dedupe (key :: seen) rest
  end.

Definition _bullet_points (obj : dict) : list string :=
  let feats := _as_list (first_truthy (gets obj ["features"; "benefits"; "highlights"])) in
  let specs := _as_list (first_truthy (gets obj ["specialties"; "capabilities"])) in
  let areas := _as_list (first_truthy (gets obj ["service_areas"; "areas"; "locations_served"])) in
  let bullets := firstn 3 feats in
  let bullets := match bullets with [] => firstn 3 specs | _ => bullets end in
  let bullets :=
    match areas with
    | [] => bullets
    | _ => app bullets ["Service areas: " ++ Str.join ", " (firstn 5 areas)]
    end in
  firstn 4 (dedupe [] bullets).

(** *** Loading records *)

(** [return data if isinstance(data, list) else [data]] *)
Definition as_records (data : pyval) : list pyval :=
  match data with
  | PList l => l
  | v => [v]
  end.

Definition parse_with (loads : string -> result pyval) (content : string) : M (list pyval) :=
  data <- lift (loads content) ;;
  ret (as_records (Py.or data (PList []))).

Definition load_data (filepath : FS.path) : M (list pyval) :=
  present <- reads (fun t => FS.exists_ t filepath) ;;
  if Str.is_empty (FS.path_str filepath) || negb present then ret []
  else
    try_except
      (raw <- reads_result (fun t => FS.read_text t filepath) ;;
       let content := Str.strip raw in
       if Str.is_empty content then ret []
       else
         let lower := Str.lower (FS.path_str filepath) in
         if Str.endswith_any lower [".json"; ".jsonld"] then parse_with json_loads content
         else if Str.endswith_any lower [".yaml"; ".yml"] then parse_with yaml_safe_load content
         else if Str.endswith_any lower [".txt"; ".md"; ".llm"] then
           let stripped := Str.lstrip content in
           if Str.startswith stripped "{" || Str.startswith stripped "["
           then parse_with json_loads content
           else parse_with yaml_safe_load content
         else ret [])
      (fun e =>
         print ("❌ Failed to load " ++ FS.path_str filepath ++ ": " ++ exn_msg e) ;;;
         ret []).

(** *** Flexible folder resolution *)

Fixpoint _first_existing_dir (t : FS.tree) (candidates : list FS.path) : option FS.path :=
  match candidates with
  | [] => None
  | d :: rest =>
      if negb (Str.is_empty (FS.path_str d)) && FS.isdir t d then Some d
      else _first_existing_dir t rest
  end.

Definition data_exts : list string :=
  [".json"; ".yaml"; ".yml"; ".md"; ".llm"; ".txt"; ".jsonl"].

Definition _list_data_files (t : FS.tree) (folder : FS.path) (exts : list string)
  : list FS.path :=
  if Str.is_empty (FS.path_str folder) || negb (FS.isdir t folder) then []
  else
    map (fun rf => (fst rf ++ [snd rf])%list)
        (filter (fun rf => Str.endswith_any (Str.lower (snd rf)) exts)
                (FS.walk_files t folder)).

Definition org_candidates : list FS.path :=
  [["schemas"; "organization"]; ["schemas"; "organizations"]; ["schemas"; "company"];
   ["schemas"; "entity"]; ["schemas"; "business"]; ["organization"]; ["company"]; ["business"]].
Definition services_candidates : list FS.path :=
  [["schemas"; "services"]; ["services"]; ["practice-areas"]; ["practice_areas"]].
Definition reviews_candidates : list FS.path :=
  [["schemas"; "reviews"]; ["reviews"]; ["testimonials"]].
Definition faq_candidates : list FS.path :=
  [["schemas"; "faqs"]; ["faqs"]; ["faq-schemas"]; ["faq_schemas"]].
Definition help_candidates : list FS.path :=
  [["schemas"; "help-articles"]; ["help-articles"]; ["help_articles"];
   ["llm-data"; "help-articles"]; ["llm-data"; "help_articles"]].
Definition locations_candidates : list FS.path :=
  [["schemas"; "locations"]; ["locations"]; ["offices"]; ["office-locations"];
   ["office_locations"]].
Definition team_candidates : list FS.path :=
  [["schemas"; "team"]; ["team"]; ["staff"]; ["providers"]; ["lawyers"]; ["attorneys"]].
Definition press_candidates : list FS.path :=
  [["schemas"; "press"]; ["press"]; ["media"]; ["news"]].
Definition case_studies_candidates : list FS.path :=
  [["schemas"; "case-studies"]; ["case-studies"]; ["case_studies"]; ["results"]; ["matters"]].
Definition llm_data_candidates : list FS.path :=
  [["llm-data"]; ["llm_data"]; ["llm"]; ["data"]].

(** The constants as the module computes them on the tree [t] it is
    imported in. *)
Definition resolve_dirs (t : FS.tree) : dirs :=
  {| ORG_DIR := _first_existing_dir t org_candidates;
     SERVICES_DIR := _first_existing_dir t services_candidates;
     REVIEWS_DIR := _first_existing_dir t reviews_candidates;
     FAQ_DIR := _first_existing_dir t faq_candidates;
     HELP_DIR := _first_existing_dir t help_candidates;
     LOCATIONS_DIR := _first_existing_dir t locations_candidates;
     TEAM_DIR := _first_existing_dir t team_candidates;
     PRESS_DIR := _first_existing_dir t press_candidates;
     CASE_STUDIES_DIR := _first_existing_dir t case_studies_candidates;
     LLM_DATA_DIR := _first_existing_dir t llm_data_candidates |}.

Definition _normalize_records (payload : pyval) : list pyval :=
  match payload with
  | PList l => l
  | PDict d =>
      match Py.get d "locations" with
      | PList l => l
      | _ =>
          match Py.get d "services" with
          | PList l => l
          | _ =>
              match Py.get d "faqs" with
              | PList l => l
              | _ => [payload]
              end
          end
      end
  | _ => []
  end.

(** *** Organization meta *)

(** The environment variable GITHUB_REPOSITORY (empty when unset) and the
    directory constants of this run. *)
Variable repo_slug : string.
Variable g : dirs.

(** [if X_DIR:] on a directory constant. *)
Definition chosen (d : option FS.path) : option FS.path :=
  match d with
  | Some p => if Str.is_empty (FS.path_str p) then None else Some p
  | None => None
  end.

Definition listdir (d : FS.path) : M (list string) :=
  reads_result (fun t => FS.listdir t d).

Definition is_schema_file (fn : string) : bool :=
  Str.endswith_any (Str.lower fn) [".json"; ".yaml"; ".yml"].

(** The loop of [load_org_meta]: the first schema file, in sorted order,
    that loads to a non-empty list gives the organization record. *)
Fixpoint first_org_record (d : FS.path) (names : list string) : M pyval :=
  match names with
  | [] => ret PNone
  | fn :: rest =>
      if is_schema_file fn then
        data <- load_data (d ++ [fn])%list ;;
        match data with
        | rec :: _ => ret rec
        | [] => first_org_record d rest
        end
      else first_org_record d rest
  end.

Definition repo_site_name : string :=
  if Str.is_empty repo_slug then "Site"
  else Str.title (Str.replace "-" " " (Str.after_first "/"%char repo_slug)).

Definition load_org_meta : M org_meta :=
  org_obj <- match chosen (ORG_DIR g) with
             | Some d => names <- listdir d ;; first_org_record d (Str.sorted names)
             | None => ret PNone
             end ;;
  let meta :=
    match org_obj with
    | PDict o =>
        {| meta_name := PStr (_first_nonempty
                                (gets o ["entity_name"; "name"; "legal_name"; "brand"; "site_title"]));
           meta_logo := PStr (_first_nonempty (gets o ["logo_url"; "logo"]));
           meta_favicon := PStr (_first_nonempty (gets o ["favicon"; "favicon_url"]));
           meta_website := PStr (_first_nonempty (gets o ["website"; "url"])) |}
    | _ => {| meta_name := PNone; meta_favicon := PNone; meta_logo := PNone;
              meta_website := PNone |}
    end in
  ret {| meta_name := if Py.truthy (meta_name meta) then meta_name meta
                      else PStr repo_site_name;
         meta_favicon := meta_favicon meta;
         meta_logo := meta_logo meta;
         meta_website := meta_website meta |}.

(** *** HTML shell *)

Definition generate_nav : string := q "
    <nav style=`background: #2c3e50; padding: 1rem; margin-bottom: 2rem;`>
        <ul style=`list-style: none; display: flex; gap: 2rem; margin: 0; padding: 0; flex-wrap: wrap; justify-content: center;`>
            <li><a href=`index.html` style=`color: white; text-decoration: none;`>Home</a></li>
            <li><a href=`about.html` style=`color: white; text-decoration: none;`>About</a></li>
            <li><a href=`services.html` style=`color: white; text-decoration: none;`>Services</a></li>
            <li><a href=`awards.html` style=`color: white; text-decoration: none;`>Awards</a></li>
            <li><a href=`testimonials.html` style=`color: white; text-decoration: none;`>Testimonials</a></li>
            <li><a href=`faqs.html` style=`color: white; text-decoration: none;`>FAQs</a></li>
            <li><a href=`help.html` style=`color: white; text-decoration: none;`>Help</a></li>
            <li><a href=`contact.html` style=`color: white; text-decoration: none;`>Contact</a></li>
        </ul>
    </nav>
    ".

(** [datetime.utcnow().strftime('%Y-%m-%d %H:%M UTC')] *)
Definition utc_stamp (clk : clock) : string :=
  Str.of_Z (utc_year clk) ++ "-" ++ Str.two_digits (utc_month clk) ++ "-"
  ++ Str.two_digits (utc_day clk) ++ " " ++ Str.two_digits (utc_hour clk) ++ ":"
  ++ Str.two_digits (utc_minute clk) ++ " UTC".

(** The one line of a page that depends on the time of the run. *)
Definition footer_line (clk : clock) : string :=
  "        <p>© " ++ Str.of_Z (local_year clk)
  ++ " — Auto-generated from structured data. Last updated: " ++ utc_stamp clk ++ "</p>".

Definition page_head (site_name favicon_href : pyval) (title : string) : string :=
  let page_title :=
    if Str.is_empty title then escape_html site_name
    else escape_html site_name ++ " — " ++ esc title in
  let theme_color := "#2c3e50" in
  q "<!DOCTYPE html>
<html lang=`en`>
<head>
    <meta charset=`UTF-8`>
    <title>" ++ page_title ++ q "</title>
    <meta name=`application-name` content=`" ++ escape_html site_name ++ q "`>
    <meta name=`viewport` content=`width=device-width, initial-scale=1.0`>
    <meta name=`theme-color` content=`" ++ theme_color ++ q "`>
    <link rel=`icon` href=`" ++ escape_html favicon_href ++ q "`>
    <link rel=`icon` type=`image/png` sizes=`32x32` href=`icons/favicon-32.png`>
    <link rel=`icon` type=`image/png` sizes=`16x16` href=`icons/favicon-16.png`>
    <link rel=`apple-touch-icon` sizes=`180x180` href=`icons/apple-touch-icon.png`>
    <link rel=`manifest` href=`site.webmanifest`>
    <style>
        body { font-family: -apple-system, BlinkMacSystemFont, sans-serif; max-width: 900px; margin: 0 auto; padding: 20px; line-height: 1.7; }
        h1, h2, h3 { color: #2c3e50; }
        a { color: #3498db; text-decoration: none; }
        a:hover { text-decoration: underline; }
        img { max-width: 100%; height: auto; }
        .page-header { background: #ecf0f1; padding: 2rem; border-radius: 8px; margin-bottom: 2rem; text-align: center; }
        .card { border: 1px solid #eee; padding: 1.5rem; border-radius: 8px; margin: 2rem 0; }
        .badge { background: #3498db; color: white; padding: 0.25rem 0.5rem; border-radius: 4px; font-size: 0.9em; }
        .muted { color: #6b7280; }
        code { background: #f3f4f6; padding: 0.1rem 0.25rem; border-radius: 4px; }
    </style>
</head>
<body>
    " ++ generate_nav ++ q "
    <div class=`page-header`>
        <h1>" ++ escape_html (if Str.is_empty title then site_name else PStr title) ++ "</h1>
    </div>
    ".

Definition page_mid : string := q "
    <footer style=`margin-top: 4rem; padding-top: 2rem; border-top: 1px solid #eee; text-align: center; color: #7f8c8d;`>
".

Definition page_tail : string := "
    </footer>
</body>
</html>".

Definition generate_page (clk : clock) (title content : string) : M string :=
  org <- load_org_meta ;;
  let site_name := Py.or (meta_name org) (PStr "Site") in
  let favicon_href := Py.or (meta_favicon org) (PStr "favicon.ico") in
  ret (page_head site_name favicon_href title ++ content ++ page_mid
       ++ footer_line clk ++ page_tail).

Definition placeholder (title reason : string) : string :=
  q "
    <div class=`card`>
        <h2>" ++ esc title ++ q "</h2>
        <p class=`muted`>" ++ esc reason ++ "</p>
    </div>
    ".

(** [with open(name, "w", encoding="utf-8") as f: f.write(page)]: the file
    is created empty before [page] is evaluated.  A renderer runs after the
    clean-up of [prepare] has removed [name], so [open] does not meet a
    directory here; and the text of a page is a string of this model, that
    is, text that UTF-8 encodes. *)
Definition write_page (name : string) (page : M string) : M unit :=
  modify_files (FS.write name "") ;;;
  html <- page ;;
  modify_files (FS.write name html).

(** *** Pages *)

Definition quick_link (link : string * string) : string :=
  q "<li style=`margin: 0.5rem 0;`><a href=`" ++ snd link
  ++ q "` style=`font-size: 1.1em; font-weight: 500;`>" ++ esc (fst link) ++ "</a></li>".

Definition file_link (base_url : string) (fp : FS.path) : string :=
  let rel := Str.replace Str.backslash "/" (FS.path_str fp) in
  let display_path :=
    if Str.startswith rel "schemas/" then Str.replace "schemas/" "" rel else rel in
  let href := if Str.is_empty base_url then rel else base_url ++ "/" ++ rel in
  q "<li><a href=`" ++ href ++ q "` target=`_blank`>" ++ esc display_path ++ "</a></li>".

Definition index_roots : list FS.path :=
  [["schemas"]; ["faq-schemas"]; ["organization"]; ["locations"]; ["llm-data"]].

Definition index_existing_roots (t : FS.tree) : list FS.path :=
  filter (FS.isdir t) index_roots.

Definition index_file_links (base_url : string) (roots : list FS.path) (t : FS.tree)
  : list string :=
  flat_map (fun root => map (file_link base_url) (_list_data_files t root data_exts)) roots.

Definition generate_index_page (clk : clock) : M bool :=
  org <- load_org_meta ;;
  let site_name := Py.or (meta_name org) (PStr "Site") in
  let links :=
    [("About Us", "about.html"); ("Our Services", "services.html");
     ("Testimonials", "testimonials.html"); ("FAQs", "faqs.html");
     ("Help Center", "help.html"); ("Contact Us", "contact.html");
     ("Browse All Files", "#files")] in
  let quick_links := Str.join Str.nl (map quick_link links) in
  roots <- reads index_existing_roots ;;
  let base_url :=
    if Str.is_empty repo_slug then ""
    else "https://raw.githubusercontent.com/" ++ repo_slug ++ "/main" in
  file_links <- reads (index_file_links base_url roots) ;;
  let content := q "
    <p>Welcome to our AI-optimized public data hub. Use the quick navigation below, or browse all machine-readable files.</p>
    <h2>🚀 Quick Navigation</h2>
    <ul style=`list-style: none; padding: 0;`>
        " ++ quick_links ++ q "
    </ul>
    <h2 id=`files`>📁 All Files</h2>
    <ul>
        " ++ match file_links with
             | [] => q "<li class=`muted`>No files found yet.</li>"
             | _ => Str.join "" (Str.sorted file_links)
             end ++ "
    </ul>
    " in
  write_page "index.html" (generate_page clk ("Welcome to " ++ py_str site_name) content) ;;;
  print "✅ index.html generated" ;;;
  ret true.

(** The fields of a record that is a mapping; [{}] otherwise. *)
Definition as_dict (v : pyval) : dict :=
  match v with PDict d => d | _ => [] end.

Definition service_title (fn : string) (s : dict) : string :=
  let t := _first_nonempty (gets s ["title"; "service_name"; "name"]) in
  if _is_placeholder_title (PStr t) then _title_from_filename [fn] else t.

(** [float(rev.get("rating"))] kept when it is positive; a failure of the
    conversion is swallowed. *)
Definition positive_rating (rev : dict) : option F64.t :=
  match py_float (Py.get rev "rating") with
  | Ok r => if F64.gtb r F64.zero then Some r else None
  | Raise _ => None
  end.

Definition set_add (x : string) (s : list string) : list string :=
  if existsb (String.eqb x) s then s else app s [x].

Record contact_facts : Type := ContactFacts {
  cf_areas : list string;
  cf_phone : string;
  cf_email : string
}.

Definition stars (n : Z) : string :=
  Str.repeat "★" (Z.to_nat n) ++ Str.repeat "☆" (Z.to_nat (5 - n)).

(** The "Average rating" row of the About page, when there are ratings. *)
Definition rating_fact (ratings : list F64.t) : result (option string) :=
  match ratings with
  | [] => Ok None
  | _ =>
      let avg_rating := F64.div (F64.sum ratings) (F64.of_Z (Z.of_nat (length ratings))) in
      rbind (F64.round avg_rating) (fun n =>
      Ok (Some ("<strong>Average rating:</strong> " ++ F64.format_1f avg_rating ++ " "
                ++ stars n)))
  end.

Definition about_org_record : M pyval :=
  match chosen (ORG_DIR g) with
  | Some d =>
      names <- listdir d ;;
      match List.find is_schema_file (Str.sorted names) with
      | Some fn =>
          data <- load_data (d ++ [fn])%list ;;
          ret (match data with rec :: _ => rec | [] => PNone end)
      | None => ret PNone
      end
  | None => ret PNone
  end.

Definition about_services_step (d : FS.path) (titles : list string) (fn : string)
  : M (list string) :=
  if negb (is_schema_file fn) then ret titles
  else
    data <- load_data (d ++ [fn])%list ;;
    ret (app titles
           (flat_map (fun rec =>
              flat_map (fun s => match s with
                                 | PDict sd => [service_title fn sd]
                                 | _ => []
                                 end)
                       (_normalize_records rec))
            data)).

Definition about_service_titles : M (list string) :=
  match chosen (SERVICES_DIR g) with
  | Some d =>
      names <- listdir d ;;
      for_each names [] (about_services_step d)
  | None => ret []
  end.

Definition about_location_step (acc : contact_facts) (loc : pyval) : contact_facts :=
  match loc with
  | PDict l =>
      {| cf_areas := fold_left (fun s a => set_add a s)
                       (_as_list (first_truthy
                                    (gets l ["service_areas"; "areas"; "locations_served"])))
                       (cf_areas acc);
         cf_phone := if Str.is_empty (cf_phone acc)
                     then _first_nonempty (gets l ["phone"; "telephone"])
                     else cf_phone acc;
         cf_email := if Str.is_empty (cf_email acc)
                     then _first_nonempty (gets l ["email"])
                     else cf_email acc |}
  | _ => acc
  end.

Definition about_locations_step (d : FS.path) (acc : contact_facts) (fn : string)
  : M contact_facts :=
  if negb (is_schema_file fn) then ret acc
  else
    data <- load_data (d ++ [fn])%list ;;
    ret (fold_left about_location_step data acc).

Definition about_contact_facts : M contact_facts :=
  match chosen (LOCATIONS_DIR g) with
  | Some d =>
      names <- listdir d ;;
      for_each names (ContactFacts [] "" "") (about_locations_step d)
  | None => ret (ContactFacts [] "" "")
  end.

Definition review_ratings (data : list pyval) : list F64.t :=
  flat_map (fun rev => match rev with
                       | PDict r => match positive_rating r with
                                    | Some x => [x]
                                    | None => []
                                    end
                       | _ => []
                       end) data.

Definition about_ratings_step (d : FS.path) (ratings : list F64.t) (fn : string)
  : M (list F64.t) :=
  if negb (is_schema_file fn) then ret ratings
  else
    data <- load_data (d ++ [fn])%list ;;
    ret (app ratings (review_ratings data)).

Definition about_ratings : M (list F64.t) :=
  match chosen (REVIEWS_DIR g) with
  | Some d =>
      names <- listdir d ;;
      for_each names [] (about_ratings_step d)
  | None => ret []
  end.

Definition opt_list {A} (o : option A) : list A :=
  match o with Some a => [a] | None => [] end.

Definition when {A} (b : bool) (a : A) : list A := if b then [a] else [].

Definition about_facts (service_titles : list string) (rating_row : option string)
    (c : contact_facts) : list string :=
  app (when (negb (length service_titles =? 0)%nat)
         ("<strong>Services offered:</strong> " ++ Str.of_nat (length service_titles)))
 (app (opt_list rating_row)
 (app (when (negb (length (cf_areas c) =? 0)%nat)
         ("<strong>Service areas:</strong> "
          ++ esc (Str.join ", " (firstn 10 (Str.sorted (cf_areas c))))))
 (app (when (negb (Str.is_empty (cf_phone c)))
         ("<strong>Phone:</strong> " ++ esc (cf_phone c)))
      (when (negb (Str.is_empty (cf_email c)))
         (q "<strong>Email:</strong> <a href=`mailto:" ++ esc (cf_email c) ++ q "`>"
          ++ esc (cf_email c) ++ "</a>"))))).

Definition same_as_link (s : string) : string :=
  q "<li><a href=`" ++ esc s ++ q "` target=`_blank` rel=`nofollow`>" ++ esc s ++ "</a></li>".

Definition generate_about_page (clk : clock) : M bool :=
  org_obj <- about_org_record ;;
  let org := as_dict org_obj in
  org_meta <- load_org_meta ;;
  let display_name :=
    let n := _first_nonempty (app (gets org ["entity_name"; "name"]) [meta_name org_meta]) in
    if Str.is_empty n then "About Us" else n in
  let logo_url := _first_nonempty (app (gets org ["logo_url"; "logo"]) [meta_logo org_meta]) in
  let desc :=
    let d := _first_nonempty (gets org ["description"; "about"]) in
    if Str.is_empty d
    then display_name
         ++ " is a professional firm serving our community with a client-first approach."
    else d in
  service_titles <- about_service_titles ;;
  contact <- about_contact_facts ;;
  ratings <- about_ratings ;;
  rating_row <- lift (rating_fact ratings) ;;
  let facts := about_facts service_titles rating_row contact in
  let website :=
    _first_nonempty (app (gets org ["website"; "url"]) [meta_website org_meta]) in
  let same_as := _as_list (first_truthy (gets org ["sameAs"; "same_as"])) in
  let parts :=
    app (when (negb (Str.is_empty logo_url))
           (q "<img src=`" ++ esc logo_url ++ q "` alt=`" ++ esc display_name
            ++ q "` style=`max-height: 120px; margin-bottom: 2rem;`>"))
   (app ["<p>" ++ esc desc ++ "</p>"]
   (app (match facts with
         | [] => []
         | _ => [q "<div class=`card`><h2>Facts at a Glance</h2><ul>"
                 ++ Str.join "" (map (fun row => "<li>" ++ row ++ "</li>") facts)
                 ++ "</ul></div>"]
         end)
   (app (when (negb (Str.is_empty website) || negb (length same_as =? 0)%nat)
           ("<h2>Links</h2><ul>"
            ++ Str.join ""
                 (app (when (negb (Str.is_empty website))
                         (q "<li><a href=`" ++ esc website
                          ++ q "` target=`_blank` rel=`nofollow`>Website</a></li>"))
                      (map same_as_link (firstn 12 same_as)))
            ++ "</ul>"))
        [q "
    <div class=`card`>
        <h2>Ready to Talk?</h2>
        <p>Have a project in mind or need guidance? We’re here to help.</p>
        <p><a href=`contact.html`>Contact us</a> to get started.</p>
    </div>
    "]))) in
  write_page "about.html" (generate_page clk display_name (Str.join Str.nl parts)) ;;;
  print "✅ about.html generated" ;;;
  ret true.

(** [loc.get(key) or (loc.get("geo") or {}).get(key)] *)
Definition coordinate (loc : dict) (key : string) : result pyval :=
  let v := Py.get loc key in
  if Py.truthy v then Ok v else Py.or_empty_get (Py.get loc "geo") key.

Definition _map_embed_src (loc : dict) (address : string) : result string :=
  rbind (coordinate loc "latitude") (fun lat =>
  rbind (coordinate loc "longitude") (fun lng =>
  if Py.is_number lat && Py.is_number lng then
    Ok ("https://www.google.com/maps?q=" ++ py_str lat ++ "," ++ py_str lng
        ++ "&z=15&output=embed")
  else
    let map_url := _first_nonempty (gets loc ["map_embed_url"; "map"; "map_iframe"]) in
    let gmaps := _first_nonempty (gets loc ["google_maps_url"; "maps_url"; "map_url"]) in
    if negb (Str.is_empty map_url) then Ok map_url
    else if negb (Str.is_empty gmaps) then Ok gmaps
    else if negb (Str.is_empty address)
    then Ok ("https://www.google.com/maps?q=" ++ Str.quote_plus address ++ "&output=embed")
    else Ok "")).

Definition nonempty_str (s : string) : bool := negb (Str.is_empty s).

(** [" ".join([p for p in [line1, line2, city_state, zipc] if p]).strip()] *)
Definition assemble_address (line1 line2 city state zipc : string) : string :=
  let city_state := Str.join ", " (filter nonempty_str [city; state]) in
  Str.strip (Str.join " " (filter nonempty_str [line1; line2; city_state; zipc])).

(** The address from the flat fields of the record. *)
Definition component_address (loc : dict) : string :=
  assemble_address
    (_first_nonempty (gets loc ["address_street"; "streetAddress"; "street"]))
    (_first_nonempty (gets loc ["address2"; "suite"]))
    (_first_nonempty (gets loc ["address_city"; "city"]))
    (_first_nonempty (gets loc ["address_state"; "state"; "addressRegion"]))
    (_first_nonempty (gets loc ["address_postal_code"; "postalCode"; "zip"])).

Definition _format_address (loc : dict) : string :=
  match Py.get loc "address" with
  | PStr a => if nonblank a then Str.strip a else component_address loc
  | PDict addr =>
      assemble_address
        (_first_nonempty (gets addr ["streetAddress"; "address1"; "addressLine1"]))
        (_first_nonempty (gets addr ["address2"; "addressLine2"; "suite"]))
        (_first_nonempty (gets addr ["addressLocality"; "city"]))
        (_first_nonempty (gets addr ["addressRegion"; "state"]))
        (_first_nonempty (gets addr ["postalCode"; "zip"; "zipCode"]))
  | _ => component_address loc
  end.

Definition or_dash (s : string) : string := if Str.is_empty s then "—" else s.

Definition hours_row (r : pyval) : list string :=
  match r with
  | PDict rd =>
      let day := _first_nonempty (gets rd ["dayOfWeek"; "day"; "weekday"]) in
      let day := if Str.contains "/" day then Str.after_last "/"%char day else day in
      let opens := _first_nonempty (gets rd ["opens"; "openingTime"]) in
      let closes := _first_nonempty (gets rd ["closes"; "closingTime"]) in
      if nonempty_str day && (nonempty_str opens || nonempty_str closes)
      then [day ++ ": " ++ or_dash opens ++ " – " ++ or_dash closes]
      else []
  | _ => []
  end.

Definition _extract_hours (loc : dict) : string :=
  let hours :=
    _first_nonempty (gets loc ["hours"; "openingHours"; "opening_hours"; "business_hours"]) in
  if nonempty_str hours then hours
  else
    match first_truthy (gets loc ["openingHoursSpecification"; "opening_hours_specification"]) with
    | PList spec => Str.join "; " (flat_map hours_row spec)
    | _ => ""
    end.

(** The loop state of the contact page. *)
Record contact_acc : Type := ContactAcc {
  ca_items : list string;
  ca_first_name : string;
  ca_first_phone : string;
  ca_first_email : string;
  ca_files_seen : nat;
  ca_records_seen : nat
}.

Definition social_link (s : string) : string :=
  "<a href='" ++ esc s ++ "' target='_blank' rel='nofollow'>" ++ esc s ++ "</a>".

Definition map_iframe (map_src : string) : string :=
  q "
                <div style=`margin-top: 1rem;`>
                    <iframe src=`" ++ esc map_src ++ q "` width=`100%` height=`320`
                            style=`border:0; border-radius: 8px;` allowfullscreen loading=`lazy`></iframe>
                </div>
                ".

(** One location record of the contact page: its card and the values the
    Quick Contact block may take from it. *)
Definition location_card (loc : dict) : result (string * string * string * string) :=
  let name :=
    _first_nonempty (app (gets loc ["entity_name"; "location_name"; "name"]) [PStr "Location"]) in
  rbind (Py.or_empty_get (Py.get loc "contactPoint") "telephone") (fun cp_phone =>
  let phone := _first_nonempty (app (gets loc ["phone"; "telephone"]) [cp_phone]) in
  rbind (Py.or_empty_get (Py.get loc "contactPoint") "email") (fun cp_email =>
  let email := _first_nonempty (app (gets loc ["email"]) [cp_email]) in
  let person := _first_nonempty (gets loc ["contact_person"; "contact"; "contact_name"]) in
  let addr := _format_address loc in
  let hours := _extract_hours loc in
  let site := _first_nonempty (gets loc ["website"; "url"; "homepage"]) in
  let socials :=
    _as_list (first_truthy (gets loc ["sameAs"; "same_as"; "social"; "social_links"])) in
  rbind (_map_embed_src loc addr) (fun map_src =>
  let block :=
    "<div class='card'>"
    ++ "<h3>" ++ esc name ++ "</h3><p>"
    ++ (if nonempty_str person then "<strong>Contact:</strong> " ++ esc person ++ "<br>" else "")
    ++ (if nonempty_str addr then "<strong>Address:</strong> " ++ esc addr ++ "<br>" else "")
    ++ (if nonempty_str hours then "<strong>Hours:</strong> " ++ esc hours ++ "<br>" else "")
    ++ (if nonempty_str site
        then "<strong>Website:</strong> <a href='" ++ esc site
             ++ "' target='_blank' rel='nofollow'>" ++ esc site ++ "</a><br>"
        else "")
    ++ "</p>"
    ++ match socials with
       | [] => ""
       | _ => "<p><strong>Find us:</strong> "
              ++ Str.join " • " (map social_link (firstn 8 socials)) ++ "</p>"
       end
    ++ (if nonempty_str map_src then map_iframe map_src else "")
    ++ "</div>" in
  Ok (block, name, phone, email)))).

Definition contact_record_step (acc : contact_acc) (loc : pyval) : M contact_acc :=
  match loc with
  | PDict l =>
      card <- lift (location_card l) ;;
      let '(block, name, phone, email) := card in
      ret {| ca_items := app (ca_items acc) [block];
             ca_first_name := if Str.is_empty (ca_first_name acc) then name
                              else ca_first_name acc;
             ca_first_phone := if Str.is_empty (ca_first_phone acc) && nonempty_str phone
                               then phone else ca_first_phone acc;
             ca_first_email := if Str.is_empty (ca_first_email acc) && nonempty_str email
                               then email else ca_first_email acc;
             ca_files_seen := ca_files_seen acc;
             ca_records_seen := S (ca_records_seen acc) |}
  | _ => ret acc
  end.

Definition seen_file (acc : contact_acc) : contact_acc :=
  {| ca_items := ca_items acc; ca_first_name := ca_first_name acc;
     ca_first_phone := ca_first_phone acc; ca_first_email := ca_first_email acc;
     ca_files_seen := S (ca_files_seen acc); ca_records_seen := ca_records_seen acc |}.

Definition quick_contact (acc : contact_acc) : string :=
  if nonempty_str (ca_first_name acc) || nonempty_str (ca_first_phone acc)
     || nonempty_str (ca_first_email acc)
  then
    "<div class='card'><h2>Quick Contact</h2>"
    ++ (if nonempty_str (ca_first_name acc)
        then "<p><strong>" ++ esc (ca_first_name acc) ++ "</strong></p>" else "")
    ++ (if nonempty_str (ca_first_phone acc)
        then "<p><strong>Phone:</strong> <a href='tel:" ++ esc (ca_first_phone acc) ++ "'>"
             ++ esc (ca_first_phone acc) ++ "</a></p>"
        else "")
    ++ (if nonempty_str (ca_first_email acc)
        then "<p><strong>Email:</strong> <a href='mailto:" ++ esc (ca_first_email acc) ++ "'>"
             ++ esc (ca_first_email acc) ++ "</a></p>"
        else "")
    ++ "</div>"
  else "".

Definition contact_missing_text : string :=
  "No locations folder found yet. Add location JSON/YAML files to your locations folder (or schemas/locations) to populate this page.".

Definition contact_file_step (d : FS.path) (acc : contact_acc) (fname : string)
  : M contact_acc :=
  if negb (is_schema_file fname) then ret acc
  else
    let acc := seen_file acc in
    data <- load_data (d ++ [fname])%list ;;
    match data with
    | [] => ret acc
    | _ => for_each (_normalize_records (PList data)) acc contact_record_step
    end.

Definition generate_contact_page (clk : clock) : M bool :=
  match chosen (LOCATIONS_DIR g) with
  | None =>
      write_page "contact.html"
        (generate_page clk "Contact Us" (placeholder "Contact Us" contact_missing_text)) ;;;
      print "✅ contact.html generated (placeholder)" ;;;
      ret true
  | Some d =>
      names <- listdir d ;;
      acc <- for_each (Str.sorted names) (ContactAcc [] "" "" "" 0 0) (contact_file_step d) ;;
      let intro :=
        "<p>We’d love to hear from you. Reach out using the details below or visit us at our offices.</p>" in
      let content :=
        intro ++ quick_contact acc
        ++ match ca_items acc with
           | [] => placeholder "Locations"
                     ("No usable locations found (scanned " ++ Str.of_nat (ca_files_seen acc)
                      ++ " files, " ++ Str.of_nat (ca_records_seen acc) ++ " records).")
           | items => Str.join "" items
           end in
      write_page "contact.html" (generate_page clk "Contact Us" content) ;;;
      print "✅ contact.html generated" ;;;
      ret true
  end.

(** The loop [for rec in records] of the services page: a record with a
    list under "services" stands for the items of that list. *)
Definition expand_services (records : list pyval) : list pyval :=
  flat_map (fun rec =>
              match rec with
              | PDict d => match Py.get d "services" with
                           | PList l => l
                           | _ => [rec]
                           end
              | _ => [rec]
              end) records.

(** The title of a service card: the record's own title, else its first
    two keywords, else the file name. *)
Definition service_card_title (fn : string) (svc : dict) : string :=
  let title := _first_nonempty (gets svc ["title"; "service_name"; "name"]) in
  let title :=
    if _is_placeholder_title (PStr title) then
      match _as_list (Py.get svc "keywords") with
      | [] => title
      | kws => Str.title (Str.join " / " (firstn 2 kws))
      end
    else title in
  if _is_placeholder_title (PStr title) then _title_from_filename [fn] else title.

Definition service_card (fn : string) (svc : dict) : string :=
  let title := service_card_title fn svc in
  let description := _guess_description svc in
  let price := _guess_price svc in
  let featured := Py.truthy (Py.or (Py.get svc "featured") (Py.get svc "is_featured")) in
  let slug := Py.or (Py.get svc "slug") (PStr (slugify title)) in
  let badge := if featured then q "<span class=`badge`>Featured</span>" else "" in
  let bullets := _bullet_points svc in
  let bullet_html :=
    match bullets with
    | [] => ""
    | _ => "<ul>" ++ Str.join "" (map (fun b => "<li>" ++ esc b ++ "</li>") bullets) ++ "</ul>"
    end in
  q "
            <div class=`card` id=`" ++ escape_html slug ++ q "`>
                <h2>" ++ esc title ++ " " ++ badge ++ "</h2>
                " ++ (if nonempty_str description then "<p>" ++ esc description ++ "</p>" else "")
  ++ "
                " ++ bullet_html ++ "
                <p><strong>Starting at:</strong> " ++ esc price ++ q "</p>
                <a href=`#" ++ py_str slug ++ q "` style=`display: inline-block; margin-top: 1rem;`>🔗 Permalink</a>
            </div>
            ".

Definition service_cards (fn : string) (data : list pyval) : list string :=
  flat_map (fun svc => match svc with
                       | PDict d => [service_card fn d]
                       | _ => []
                       end)
           (expand_services data).

Definition services_missing_text : string :=
  "No services folder found yet. Add JSON/YAML files to schemas/services (or services/) to populate this page.".

(** One file of the services directory.  [load_data] always returns a
    list, so [records = data if isinstance(data, list) else [data]] is
    [data]. *)
Definition services_step (d : FS.path) (items : list string) (fn : string)
  : M (list string) :=
  if negb (is_schema_file fn) then ret items
  else
    data <- load_data (d ++ [fn])%list ;;
    ret (app items (service_cards fn data)).

Definition generate_services_page (clk : clock) : M bool :=
  match chosen (SERVICES_DIR g) with
  | None =>
      write_page "services.html"
        (generate_page clk "Our Services" (placeholder "Our Services" services_missing_text)) ;;;
      print "✅ services.html generated (placeholder)" ;;;
      ret true
  | Some d =>
      names <- listdir d ;;
      items <- for_each (Str.sorted names) [] (services_step d) ;;
      let content :=
        match items with
        | [] => placeholder "Our Services" "No usable services found yet."
        | _ => Str.join "" items
        end in
      write_page "services.html" (generate_page clk "Our Services" content) ;;;
      print "✅ services.html generated" ;;;
      ret true
  end.

Definition awards_dir : FS.path := ["schemas"; "awards"].

Definition awards_missing_html : string := "<p>No awards have been published yet.</p>".

Definition award_title (obj : dict) (filename : FS.path) : string :=
  let candidate :=
    _first_nonempty
      (gets obj ["title"; "award_name"; "certification_name"; "accreditation_name";
                 "license_name"; "name"; "issuer"; "organization"]) in
  if _is_placeholder_title (PStr candidate) then _title_from_filename filename else candidate.

Definition award_card (filepath : FS.path) (aw : dict) : string :=
  let title := award_title aw filepath in
  let desc := _first_nonempty (gets aw ["description"; "summary"; "details"; "notes"]) in
  let date := _first_nonempty (gets aw ["date"; "awarded_date"; "year"]) in
  let org := _first_nonempty (gets aw ["issuer"; "awarding_body"; "organization"]) in
  let extra :=
    app (when (nonempty_str date) ("<strong>Date:</strong> " ++ esc date))
        (when (nonempty_str org) ("<strong>Issuer:</strong> " ++ esc org)) in
  let extra_html := Str.join "<br>" extra in
  q "
            <div class=`card`>
                <h2>" ++ esc title ++ "</h2>
                " ++ (if nonempty_str desc then "<p>" ++ esc desc ++ "</p>" else "") ++ "
                " ++ (if nonempty_str extra_html then "<p>" ++ extra_html ++ "</p>" else "") ++ "
            </div>
            ".

Definition award_cards (filepath : FS.path) (data : list pyval) : list string :=
  flat_map (fun aw => match aw with
                      | PDict d => [award_card filepath d]
                      | _ => []
                      end) data.

Definition is_award_file (file : string) : bool :=
  Str.endswith_any file [".json"; ".yaml"; ".yml"].

Definition awards_step (acc : list string * nat) (file : string) : M (list string * nat) :=
  if negb (is_award_file file) then ret acc
  else
    let filepath := (awards_dir ++ [file])%list in
    data <- load_data filepath ;;
    match data with
    | [] => ret acc
    | _ => ret (app (fst acc) (award_cards filepath data), S (snd acc))
    end.

Definition generate_awards_page (clk : clock) : M bool :=
  print ("🔍 Checking awards data in: " ++ FS.path_str awards_dir) ;;;
  present <- reads (fun t => FS.exists_ t awards_dir) ;;
  if negb present then
    print ("❌ Awards directory not found: " ++ FS.path_str awards_dir
           ++ " — generating placeholder awards.html") ;;;
    write_page "awards.html" (generate_page clk "Awards" awards_missing_html) ;;;
    ret true
  else
    names <- listdir awards_dir ;;
    acc <- for_each (Str.sorted names) ([], O) awards_step ;;
    let '(items, files_processed) := acc in
    let content :=
      match items with
      | [] => awards_missing_html
      | _ => Str.join "" items
      end in
    write_page "awards.html" (generate_page clk "Awards" content) ;;;
    print ("✅ awards.html generated (" ++ Str.of_nat (length items) ++ " items from "
           ++ Str.of_nat files_processed ++ " file(s))") ;;;
    ret true.

(** [int(float(rev.get("rating", 5)))], 5 when that raises, clamped to
    1..5. *)
Definition review_rating (rev : dict) : Z :=
  let rating :=
    match rbind (py_float (Py.get_default rev "rating" (PInt 5))) F64.to_int with
    | Ok n => n
    | Raise _ => 5%Z
    end in
  Z.max 1 (Z.min 5 rating).

Definition star_display (rating : Z) : string :=
  Str.repeat "★" (Z.to_nat rating) ++ Str.repeat "☆" (Z.to_nat (5 - rating)).

Definition review_card (rev : dict) : string :=
  let author := _first_nonempty (app (gets rev ["customer_name"; "author"]) [PStr "Anonymous"]) in
  let entity := _first_nonempty (app (gets rev ["entity_name"]) [PStr ""]) in
  let quote :=
    _first_nonempty (app (gets rev ["review_body"; "quote"; "review_title"])
                         [PStr "No review text provided."]) in
  let rating := review_rating rev in
  let date := _first_nonempty (app (gets rev ["date"]) [PStr ""]) in
  q "
            <blockquote class=`card` style=`font-style: italic;`>
                <p>“" ++ esc quote ++ q "”</p>
                <footer style=`margin-top: 1rem; font-style: normal;`>
                    — " ++ esc author ++ (if nonempty_str entity then ", " ++ esc entity else "") ++ "
                    " ++ (if nonempty_str date then "<br/><small>" ++ esc date ++ "</small>" else "")
  ++ q "
                </footer>
                <div style=`margin-top: 0.5rem; color: #f39c12;`>" ++ star_display rating ++ "</div>
            </blockquote>
            ".

Definition review_cards (data : list pyval) : list string :=
  flat_map (fun rev => match rev with
                       | PDict d => [review_card d]
                       | _ => []
                       end) data.

Definition reviews_missing_text : string :=
  "No reviews folder found yet. Add JSON/YAML files to schemas/reviews (or reviews/) to populate this page.".

Definition reviews_step (d : FS.path) (items : list string) (fn : string)
  : M (list string) :=
  if negb (is_schema_file fn) then ret items
  else
    data <- load_data (d ++ [fn])%list ;;
    ret (app items (review_cards data)).

Definition generate_testimonials_page (clk : clock) : M bool :=
  match chosen (REVIEWS_DIR g) with
  | None =>
      write_page "testimonials.html"
        (generate_page clk "Testimonials" (placeholder "Testimonials" reviews_missing_text)) ;;;
      print "✅ testimonials.html generated (placeholder)" ;;;
      ret true
  | Some d =>
      names <- listdir d ;;
      items <- for_each (Str.sorted names) [] (reviews_step d) ;;
      let content :=
        match items with
        | [] => placeholder "Testimonials" "No usable reviews found yet."
        | _ => Str.join "" items
        end in
      write_page "testimonials.html" (generate_page clk "Testimonials" content) ;;;
      print "✅ testimonials.html generated" ;;;
      ret true
  end.

(** [(v or "").strip()] *)
Definition or_empty_strip (v : pyval) : result string :=
  match Py.or v (PStr "") with
  | PStr s => Ok (Str.strip s)
  | _ => Raise (Exn "AttributeError" "object has no attribute 'strip'")
  end.

Definition faq_card (item : dict) : result (list string) :=
  rbind (or_empty_strip (Py.get item "question")) (fun question =>
  rbind (or_empty_strip (Py.get item "answer")) (fun answer =>
  if Str.is_empty question then Ok []
  else Ok [q "
            <div class=`card`>
                <h3 style=`margin: 0 0 0.5rem 0;`>" ++ esc question ++ "</h3>
                <p>" ++ esc answer ++ "</p>
            </div>
            "])).

Fixpoint faq_cards (data : list pyval) : result (list string) :=
  match data with
  | [] => Ok []
  | item :: rest =>
      rbind (match item with
             | PDict d => faq_card d
             | _ => Ok []
             end) (fun cards =>
      rbind (faq_cards rest) (fun more => Ok (app cards more)))
  end.

Definition faq_missing_text : string :=
  "No FAQ folder found yet. Add JSON/YAML files to schemas/faqs (or faq-schemas/) to populate this page.".

Definition faq_step (d : FS.path) (items : list string) (fn : string)
  : M (list string) :=
  if negb (is_schema_file fn) then ret items
  else
    data <- load_data (d ++ [fn])%list ;;
    cards <- lift (faq_cards data) ;;
    ret (app items cards).

Definition generate_faq_page (clk : clock) : M bool :=
  match chosen (FAQ_DIR g) with
  | None =>
      write_page "faqs.html"
        (generate_page clk "Frequently Asked Questions" (placeholder "FAQs" faq_missing_text)) ;;;
      print "✅ faqs.html generated (placeholder)" ;;;
      ret true
  | Some d =>
      names <- listdir d ;;
      items <- for_each (Str.sorted names) [] (faq_step d) ;;
      let content :=
        match items with
        | [] => placeholder "FAQs" "No usable FAQs found yet."
        | _ => Str.join "" items
        end in
      write_page "faqs.html" (generate_page clk "Frequently Asked Questions" content) ;;;
      print "✅ faqs.html generated" ;;;
      ret true
  end.

(** The front matter scan of a help article. *)
Record article_scan : Type := ArticleScan {
  as_title : option string;
  as_body : list string;
  as_in_frontmatter : bool;
  as_frontmatter_done : bool
}.

Definition scan_line (st : article_scan) (line : string) : article_scan :=
  if String.eqb (Str.strip line) "---" && negb (as_frontmatter_done st) then
    let inside := negb (as_in_frontmatter st) in
    {| as_title := as_title st; as_body := as_body st;
       as_in_frontmatter := inside;
       as_frontmatter_done := if inside then as_frontmatter_done st else true |}
  else if as_in_frontmatter st && negb (as_frontmatter_done st) then
    if Str.startswith (Str.lower line) "title:"
    then {| as_title := Some (Str.strip (match snd (Str.split1 ":"%char line) with
                                          | Some rest => rest
                                          | None => ""
                                          end));
            as_body := as_body st;
            as_in_frontmatter := as_in_frontmatter st;
            as_frontmatter_done := as_frontmatter_done st |}
    else st
  else
    {| as_title := as_title st; as_body := app (as_body st) [line];
       as_in_frontmatter := as_in_frontmatter st;
       as_frontmatter_done := as_frontmatter_done st |}.

Definition html_line (line : string) : string :=
  if Str.startswith line "## " then "<h2>" ++ esc (Str.drop 3 line) ++ "</h2>"
  else if Str.startswith line "# " then "<h1>" ++ esc (Str.drop 2 line) ++ "</h1>"
  else if Str.startswith_any line ["- "; "* "] then "<p>• " ++ esc (Str.drop 2 line) ++ "</p>"
  else if Str.is_empty (Str.strip line) then "<br/>"
  else "<p>" ++ esc line ++ "</p>".

Definition help_article (filepath : FS.path) (content : string) : string :=
  let st := fold_left scan_line (Str.splitlines content) (ArticleScan None [] false false) in
  let title :=
    match as_title st with
    | Some t => if Str.is_empty t then _title_from_filename filepath else t
    | None => _title_from_filename filepath
    end in
  q "
        <div class=`card`>
            <h2>" ++ esc title ++ "</h2>
            " ++ Str.join "" (map html_line (as_body st)) ++ "
        </div>
        ".

Definition is_md (fn : string) : bool := Str.endswith (Str.lower fn) ".md".

Definition help_missing_text : string :=
  "No help-articles folder found yet. Add .md files to schemas/help-articles (or help-articles/) to populate this page.".

(** The directory the help page reads: [HELP_DIR], else the llm-data
    directory when it holds a markdown file. *)
Definition help_source (t : FS.tree) : option FS.path :=
  match chosen (HELP_DIR g) with
  | Some d => Some d
  | None =>
      match chosen (LLM_DATA_DIR g) with
      | Some l =>
          if FS.isdir t l then
            match filter (fun f => Str.endswith (Str.lower (FS.path_str f)) ".md")
                         (_list_data_files t l [".md"]) with
            | [] => None
            | _ => Some l
            end
          else None
      | None => None
      end
  end.

Definition help_md_files (d : FS.path) (t : FS.tree) : list FS.path :=
  if FS.isdir t d
  then Str.sort_by FS.path_str
         (map (fun rf => (fst rf ++ [snd rf])%list)
              (filter (fun rf => is_md (snd rf)) (FS.walk_files t d)))
  else [].

Definition help_step (articles : list string) (filepath : FS.path) : M (list string) :=
  content <- reads_result (fun t => FS.read_text t filepath) ;;
  ret (app articles [help_article filepath content]).

Definition generate_help_articles_page (clk : clock) : M bool :=
  source <- reads help_source ;;
  match source with
  | None =>
      write_page "help.html"
        (generate_page clk "Help Center" (placeholder "Help Center" help_missing_text)) ;;;
      print "✅ help.html generated (placeholder)" ;;;
      ret true
  | Some d =>
      md_files <- reads (help_md_files d) ;;
      match md_files with
      | [] =>
          write_page "help.html"
            (generate_page clk "Help Center"
               (placeholder "Help Center" "No .md help articles found yet.")) ;;;
          print "✅ help.html generated (placeholder)" ;;;
          ret true
      | _ =>
          articles <- for_each md_files [] help_step ;;
          write_page "help.html" (generate_page clk "Help Center" (Str.join "" articles)) ;;;
          print "✅ help.html generated" ;;;
          ret true
      end
  end.

(** *** Entry point *)

Definition html_files : list string :=
  ["index.html"; "about.html"; "services.html"; "awards.html"; "testimonials.html";
   "faqs.html"; "help.html"; "contact.html"].

Definition generators (clk : string -> clock) : list (string * M bool) :=
  [("index.html", generate_index_page (clk "index.html"));
   ("about.html", generate_about_page (clk "about.html"));
   ("services.html", generate_services_page (clk "services.html"));
   ("awards.html", generate_awards_page (clk "awards.html"));
   ("testimonials.html", generate_testimonials_page (clk "testimonials.html"));
   ("faqs.html", generate_faq_page (clk "faqs.html"));
   ("help.html", generate_help_articles_page (clk "help.html"));
   ("contact.html", generate_contact_page (clk "contact.html"))].

(** The clean-up before the pages are built: the marker file for the
    hosting platform is created and old pages are deleted.  These
    statements stand outside the [try] of the loop below: when [open] or
    [os.remove] raises, which they do on a directory, the run ends there. *)
Definition delete_old (f : string) : M unit :=
  present <- reads (fun t => FS.exists_ t [f]) ;;
  if present then
    update_files (FS.os_remove f) ;;;
    print ("🗑️ Deleted old " ++ f ++ " — forcing rebuild")
  else ret tt.

Definition prepare : M unit :=
  update_files (FS.open_w ".nojekyll") ;;;
  print "✅ Created .nojekyll file for GitHub Pages" ;;;
  for_each html_files tt (fun _ f => delete_old f).

(** The loop over the generators: [ok] is the flag of the source, and the
    value returned is the exit status of the process. *)
Definition run_generator (ok : bool) (entry : string * M bool) : M bool :=
  try_except
    (fst_ <- snd entry ;; ret ok)
    (fun e =>
       print ("❌ Failed generating " ++ fst entry ++ ": " ++ exn_msg e) ;;;
       ret false).

Definition build_pages (gens : list (string * M bool)) : M Z :=
  ok <- for_each gens true run_generator ;;
  if negb ok then
    print "⚠️ BUILD FINISHED WITH ERRORS — check logs above" ;;;
    ret 2%Z
  else
    print (Str.nl ++ "🎉 BUILD COMPLETE — site ready for GitHub Pages deployment") ;;;
    ret 0%Z.

(** The entry point from the point where the working directory is set;
    [clk] gives the time at which each page is generated. *)
Definition main (clk : string -> clock) : M Z :=
  prepare ;;;
  build_pages (generators clk).

(** [find_repo_root]: starting at the directory of the script, at most
    five directories are tried, each the parent of the one before it; the
    first that holds one of the marker folders is the root, and the
    directory of the script is the root when none does.  The paths here are
    absolute: a path is the list of its components from the root of the
    file system [t], and the parent of the root is the root. *)
Definition markers : list string :=
  ["schemas"; "faq-schemas"; "organization"; "locations"; "llm-data"].

Definition has_marker (t : FS.tree) (cur : FS.path) : bool :=
  existsb (fun m => FS.isdir t (cur ++ [m])%list) markers.

(** [os.path.dirname] *)
Definition dirname (p : FS.path) : FS.path := removelast p.

Definition path_eqb (a b : FS.path) : bool :=
  if list_eq_dec string_dec a b then true else false.

Fixpoint find_root_from (t : FS.tree) (tries : nat) (cur : FS.path) : option FS.path :=
  match tries with
  | O => None
  | S tries' =>
      if has_marker t cur then Some cur
      else
        let parent := dirname cur in
        if path_eqb parent cur then None else find_root_from t tries' parent
  end.

Definition find_repo_root (t : FS.tree) (script_dir : FS.path) : FS.path :=
  match find_root_from t 5 script_dir with
  | Some root => root
  | None => script_dir
  end.

(* ------------------------------------------------------------------ *)
(** ** The record loader *)

(** What the parser chosen by the file name makes of the file: nothing
    when the file is missing or blank or its extension is not recognized, a
    failure when the file cannot be read or the parser raises. *)
Definition parse_attempt (t : FS.tree) (p : FS.path) : option (result pyval) :=
  if Str.is_empty (FS.path_str p) || negb (FS.exists_ t p) then None
  else
    match FS.read_text t p with
    | Raise e => Some (Raise e)
    | Ok raw =>
        let content := Str.strip raw in
        let lower := Str.lower (FS.path_str p) in
        if Str.is_empty content then None
        else if Str.endswith_any lower [".json"; ".jsonld"] then Some (json_loads content)
        else if Str.endswith_any lower [".yaml"; ".yml"] then Some (yaml_safe_load content)
        else if Str.endswith_any lower [".txt"; ".md"; ".llm"] then
          Some (if Str.startswith (Str.lstrip content) "{"
                   || Str.startswith (Str.lstrip content) "["
                then json_loads content else yaml_safe_load content)
        else None
    end.

Definition load_failure_line (p : FS.path) (e : exn) : string :=
  "❌ Failed to load " ++ FS.path_str p ++ ": " ++ exn_msg e.

Lemma world_eta (w : world) : World (files w) (stdout w) = w.
Proof. destruct w; reflexivity. Qed.

Lemma parse_with_run (loads : string -> result pyval) (content : string) (w : world) :
  parse_with loads content w =
    match loads content with
    | Ok v => (w, Ok (as_records (Py.or v (PList []))))
    | Raise e => (w, Raise e)
    end.
Proof.
  unfold parse_with, bind, lift, ret. destruct (loads content); reflexivity.
Qed.

(** [load_data] in one equation: it reads, never writes, and returns. *)
Lemma load_data_run (p : FS.path) (w : world) :
  load_data p w =
    match parse_attempt (files w) p with
    | None => (w, Ok [])
    | Some (Raise e) =>
        (World (files w) (app (stdout w) [load_failure_line p e]), Ok [])
    | Some (Ok v) => (w, Ok (as_records (Py.or v (PList []))))
    end.
Proof.
  unfold load_data, parse_attempt, bind, reads, reads_result, try_except.
  destruct (Str.is_empty (FS.path_str p) || negb (FS.exists_ (files w) p)); [reflexivity|].
  destruct (FS.read_text (files w) p) as [raw|e]; [|reflexivity].
  destruct (Str.is_empty (Str.strip raw)); [reflexivity|].
  destruct (Str.endswith_any _ [".json"; ".jsonld"]).
  { rewrite parse_with_run. destruct (json_loads _); reflexivity. }
  destruct (Str.endswith_any _ [".yaml"; ".yml"]).
  { rewrite parse_with_run. destruct (yaml_safe_load _); reflexivity. }
  destruct (Str.endswith_any _ [".txt"; ".md"; ".llm"]); [|reflexivity].
  destruct (Str.startswith _ "{" || Str.startswith _ "[");
    rewrite parse_with_run;
    [destruct (json_loads _) | destruct (yaml_safe_load _)]; reflexivity.
Qed.


(* ------------------------------------------------------------------ *)
(** ** Star ratings on the testimonials page *)

Lemma py_float_default_rating : py_float (PInt 5) = Ok (F64.of_Z 5).
Proof. reflexivity. Qed.

Lemma review_rating_bounds (rev : dict) : (1 <= review_rating rev <= 5)%Z.
Proof. unfold review_rating. lia. Qed.

Lemma star_display_five (rating : Z) :
  (1 <= rating <= 5)%Z ->
  exists filled : nat,
    (1 <= filled <= 5)%nat /\ Z.of_nat filled = rating
    /\ star_display rating = Str.repeat "★" filled ++ Str.repeat "☆" (5 - filled).
Proof.
  intros H. exists (Z.to_nat rating). repeat split; try lia.
  unfold star_display. do 2 f_equal. lia.
Qed.

(** C10.  For every review record the rating drawn on the testimonials
    page is an integer from 1 to 5, the star line of its card is that many
    filled stars followed by empty ones, five in all, and a record whose
    rating is missing, or is a value [float] rejects, gets five filled
    stars. *)
Theorem review_stars_one_to_five (rev : dict) :
  (1 <= review_rating rev <= 5)%Z
  /\ (exists filled : nat,
        (1 <= filled <= 5)%nat /\ Z.of_nat filled = review_rating rev
        /\ star_display (review_rating rev)
           = Str.repeat "★" filled ++ Str.repeat "☆" (5 - filled)
        /\ exists before,
             review_card rev
             = before ++ q "<div style=`margin-top: 0.5rem; color: #f39c12;`>"
               ++ (Str.repeat "★" filled ++ Str.repeat "☆" (5 - filled))
               ++ "</div>
            </blockquote>
            ")
  /\ (Py.lookup rev "rating" = None ->
      review_rating rev = 5%Z /\ star_display (review_rating rev) = "★★★★★")
  /\ (forall v e, Py.lookup rev "rating" = Some v -> py_float v = Raise e ->
      review_rating rev = 5%Z /\ star_display (review_rating rev) = "★★★★★").
Proof.
  split; [apply review_rating_bounds|]. split.
  - destruct (star_display_five (review_rating rev) (review_rating_bounds rev))
      as (filled & Hr & Hz & Hs).
    exists filled. split; [exact Hr|]. split; [exact Hz|]. split; [exact Hs|].
    unfold review_card. rewrite Hs.
    replace (q "
                </footer>
                <div style=`margin-top: 0.5rem; color: #f39c12;`>")
      with ("
                </footer>
                " ++ q "<div style=`margin-top: 0.5rem; color: #f39c12;`>")
      by reflexivity.
    eexists. repeat rewrite <- append_assoc. reflexivity.
  - split.
    + intros Hnone. assert (H : review_rating rev = 5%Z).
      { unfold review_rating, Py.get_default. rewrite Hnone. reflexivity. }
      rewrite H. split; reflexivity.
    + intros v e Hv He. assert (H : review_rating rev = 5%Z).
      { unfold review_rating, Py.get_default. rewrite Hv, He. reflexivity. }
      rewrite H. split; reflexivity.
Qed.

(* ------------------------------------------------------------------ *)
(** ** Titles of service cards *)

Lemma generic_title_first_nonempty (svc : dict) (t : string) :
  Py.get svc "title" = PStr t -> Str.is_empty (Str.strip t) = false ->
  _first_nonempty (gets svc ["title"; "service_name"; "name"]) = Str.strip t.
Proof.
  intros Ht Hs. unfold gets. simpl map. rewrite Ht. simpl. rewrite Hs. reflexivity.
Qed.

(** C6, as amended.  For a service record whose title is "Service" or
    "item 3" the heading of the card is chosen without that title: with no
    keywords it is the title derived from the file name, and with keywords
    it is the first two keywords, joined by " / " and title-cased, or the
    title derived from the file name when that text is itself a generic
    title.  The title derived from the file name is taken as it is, so for
    a file named service.json it reads "Service" again.  The heading of
    the card holds the title so chosen. *)
Theorem generic_service_title_replaced (fn : string) (svc : dict) :
  Py.get svc "title" = PStr "Service" \/ Py.get svc "title" = PStr "item 3" ->
  service_card_title fn svc
  = match _as_list (Py.get svc "keywords") with
    | [] => _title_from_filename [fn]
    | kws =>
        let from_keywords := Str.title (Str.join " / " (firstn 2 kws)) in
        if _is_placeholder_title (PStr from_keywords)
        then _title_from_filename [fn] else from_keywords
    end
  /\ exists before rest,
       service_card fn svc
       = before ++ "<h2>" ++ esc (service_card_title fn svc) ++ " " ++ rest.
Proof.
  intros H. split.
  - unfold service_card_title.
    assert (Hc : exists t, _first_nonempty (gets svc ["title"; "service_name"; "name"]) = t
                           /\ _is_placeholder_title (PStr t) = true).
    { destruct H as [H|H];
        rewrite (generic_title_first_nonempty svc _ H) by reflexivity;
        eexists; split; reflexivity. }
    destruct Hc as (t & -> & Hp). rewrite Hp.
    destruct (_as_list (Py.get svc "keywords")) as [|k kws].
    + rewrite Hp. reflexivity.
    + cbv zeta. reflexivity.
  - unfold service_card.
    replace (q "`>
                <h2>") with (q "`>
                " ++ "<h2>") by reflexivity.
    match goal with
    | |- exists b r, ?p1 ++ ?p2 ++ (?a ++ _) ++ _ ++ _ ++ ?R = _ =>
        exists (p1 ++ p2 ++ a), R
    end.
    rewrite !append_assoc. reflexivity.
Qed.

(* ------------------------------------------------------------------ *)
(** ** The map of a location *)

(** C8 at the record [{"latitude": 0, "longitude": 10, "address":
    "1 Main St"}]: the latitude 0 is a number, yet the source of the
    iframe is the geocoding URL of the address and not the coordinate URL,
    because [loc.get("latitude") or ...] drops a zero.  With the latitude 1
    the coordinate URL is chosen. *)
Theorem map_embed_drops_zero_coordinate :
  let loc := [("latitude", PInt 0); ("longitude", PInt 10); ("address", PStr "1 Main St")] in
  let loc1 := [("latitude", PInt 1); ("longitude", PInt 10); ("address", PStr "1 Main St")] in
  Py.is_number (Py.get loc "latitude") && Py.is_number (Py.get loc "longitude") = true
  /\ _map_embed_src loc (_format_address loc)
     = Ok "https://www.google.com/maps?q=1+Main+St&output=embed"
  /\ _map_embed_src loc1 (_format_address loc1)
     = Ok "https://www.google.com/maps?q=1,10&z=15&output=embed".
Proof. cbv zeta. repeat split; reflexivity. Qed.

(** The order of the sources when both coordinates are found truthy or
    absent: coordinates, then an explicit map URL, then the address. *)
Lemma map_embed_src_order (loc : dict) (address : string) (lat lng : pyval) :
  coordinate loc "latitude" = Ok lat ->
  coordinate loc "longitude" = Ok lng ->
  _map_embed_src loc address
  = Ok (if Py.is_number lat && Py.is_number lng
        then "https://www.google.com/maps?q=" ++ py_str lat ++ "," ++ py_str lng
             ++ "&z=15&output=embed"
        else
          let map_url := _first_nonempty (gets loc ["map_embed_url"; "map"; "map_iframe"]) in
          let gmaps := _first_nonempty (gets loc ["google_maps_url"; "maps_url"; "map_url"]) in
          if nonempty_str map_url then map_url
          else if nonempty_str gmaps then gmaps
          else if nonempty_str address
          then "https://www.google.com/maps?q=" ++ Str.quote_plus address ++ "&output=embed"
          else "").
Proof.
  intros Hlat Hlng. unfold _map_embed_src, nonempty_str. rewrite Hlat, Hlng.
  unfold rbind. cbv beta iota zeta.
  set (map_url := _first_nonempty (gets loc ["map_embed_url"; "map"; "map_iframe"])).
  set (gmaps := _first_nonempty (gets loc ["google_maps_url"; "maps_url"; "map_url"])).
  destruct (Py.is_number lat && Py.is_number lng); [reflexivity|].
  destruct (negb (Str.is_empty map_url)); [reflexivity|].
  destruct (negb (Str.is_empty gmaps)); [reflexivity|].
  destruct (negb (Str.is_empty address)); reflexivity.
Qed.

(* ------------------------------------------------------------------ *)
(** ** Which files of a directory are loaded *)




Lemma prefix_cons (a b : ascii) (p s : string) :
  String.prefix (String a p) (String b s) = Ascii.eqb a b && String.prefix p s.
Proof.
  simpl. destruct (ascii_dec a b) as [->|Hne].
  - now rewrite Ascii.eqb_refl.
  - apply Ascii.eqb_neq in Hne. now rewrite Hne.
Qed.










(* ------------------------------------------------------------------ *)
(** ** A file that does not parse *)

(** X1.  A schema file that cannot be read or parsed is logged and adds
    nothing: the loop of each page goes on with what it had (the contact
    page counts the file as seen). *)
Theorem malformed_file_is_skipped (d : FS.path) (fn : string) (w : world) (e : exn) :
  is_schema_file fn = true ->
  parse_attempt (files w) (d ++ [fn])%list = Some (Raise e) ->
  let logged := World (files w) (app (stdout w) [load_failure_line (d ++ [fn])%list e]) in
  (forall items, services_step d items fn w = (logged, Ok items))
  /\ (forall items, reviews_step d items fn w = (logged, Ok items))
  /\ (forall items, faq_step d items fn w = (logged, Ok items))
  /\ (forall acc, contact_file_step d acc fn w = (logged, Ok (seen_file acc))).
Proof.
  intros Hs Hp. cbv zeta.
  unfold services_step, reviews_step, faq_step, contact_file_step.
  rewrite Hs. cbn [negb]. unfold bind. rewrite load_data_run, Hp.
  repeat split; intros; unfold ret, lift; cbn [app service_cards review_cards faq_cards
    expand_services flat_map]; rewrite ?app_nil_r; reflexivity.
Qed.

(* ------------------------------------------------------------------ *)
(** ** The directory resolver *)

(** A candidate the resolver accepts. *)
Definition usable (t : FS.tree) (d : FS.path) : bool :=
  negb (Str.is_empty (FS.path_str d)) && FS.isdir t d.

(** X2.  The resolver returns the first candidate that is a directory,
    and nothing when none is. *)
Theorem first_existing_dir_is_first (t : FS.tree) (candidates : list FS.path) :
  match _first_existing_dir t candidates with
  | Some d =>
      exists before rest,
        candidates = (before ++ d :: rest)%list
        /\ FS.isdir t d = true
        /\ forallb (fun c => negb (usable t c)) before = true
  | None => forallb (fun c => negb (usable t c)) candidates = true
  end.
Proof.
  induction candidates as [|c cs IH]; [reflexivity|].
  cbn [_first_existing_dir]. fold (usable t c).
  destruct (usable t c) eqn:Hc.
  - exists [], cs. repeat split. unfold usable in Hc. now apply andb_prop in Hc.
  - destruct (_first_existing_dir t cs) as [d|].
    + destruct IH as (before & rest & -> & Hd & Hb).
      exists (c :: before), rest. repeat split; [exact Hd|].
      cbn [forallb]. now rewrite Hc, Hb.
    + cbn [forallb]. now rewrite Hc, IH.
Qed.

(* ------------------------------------------------------------------ *)
(** ** Addresses *)

Lemma rstrip_app_kept (a b : string) :
  b <> "" -> Str.rstrip b = b -> Str.rstrip (a ++ b) = a ++ b.
Proof.
  intros Hb Hr. induction a as [|c a IH]; [exact Hr|].
  cbn [append Str.rstrip]. rewrite IH.
  destruct (a ++ b) eqn:E; [|reflexivity].
  destruct a; [cbn [append] in E; congruence | discriminate].
Qed.

Lemma rstrip_cons (c : ascii) (s : string) :
  Str.rstrip (String c s)
  = match Str.rstrip s with
    | EmptyString => if Str.is_space c then EmptyString else String c EmptyString
    | r => String c r
    end.
Proof. reflexivity. Qed.

Lemma rstrip_idempotent (s : string) : Str.rstrip (Str.rstrip s) = Str.rstrip s.
Proof.
  induction s as [|c s IH]; [reflexivity|].
  rewrite rstrip_cons. destruct (Str.rstrip s) as [|c' r] eqn:E.
  - destruct (Str.is_space c) eqn:Hc; [reflexivity|].
    rewrite rstrip_cons. cbn [Str.rstrip]. now rewrite Hc.
  - rewrite rstrip_cons, IH. reflexivity.
Qed.

Lemma lstrip_head (s : string) :
  match Str.lstrip s with
  | EmptyString => True
  | String c _ => Str.is_space c = false
  end.
Proof.
  induction s as [|c s IH]; [exact I|].
  cbn [Str.lstrip]. destruct (Str.is_space c) eqn:Hc; [exact IH | exact Hc].
Qed.

Lemma rstrip_head (c : ascii) (s : string) :
  Str.is_space c = false -> exists r, Str.rstrip (String c s) = String c r.
Proof.
  intros Hc. rewrite rstrip_cons. destruct (Str.rstrip s); [rewrite Hc|]; now eexists.
Qed.

Lemma strip_pair (a b : string) :
  Str.strip a <> "" -> Str.strip b <> "" ->
  Str.strip (Str.strip a ++ ", " ++ Str.strip b) = Str.strip a ++ ", " ++ Str.strip b.
Proof.
  intros Ha Hb. unfold Str.strip at 1.
  assert (Hl : Str.lstrip (Str.strip a ++ ", " ++ Str.strip b)
               = Str.strip a ++ ", " ++ Str.strip b).
  { unfold Str.strip in *. pose proof (lstrip_head a) as H.
    destruct (Str.lstrip a) as [|c l]; [now elim Ha|].
    destruct (rstrip_head c l H) as [r Hr]. rewrite Hr.
    cbn [append Str.lstrip]. now rewrite H. }
  rewrite Hl.
  replace (Str.strip a ++ ", " ++ Str.strip b) with ((Str.strip a ++ ", ") ++ Str.strip b)
    by apply append_assoc.
  apply rstrip_app_kept; [exact Hb|]. unfold Str.strip. apply rstrip_idempotent.
Qed.

Lemma get_absent (d : dict) (k : string) : Py.lookup d k = None -> Py.get d k = PNone.
Proof. intros H. unfold Py.get. now rewrite H. Qed.

(** X3.  A location whose address is a mapping that gives a city and a
    state, and none of the other address fields that are read, is rendered
    as the city, a comma and the state, whatever else the location and the
    mapping hold. *)
Theorem address_of_city_and_state (loc addr : dict) (city state : string) :
  Py.get loc "address" = PDict addr ->
  (forall k, In k ["streetAddress"; "address1"; "addressLine1"; "address2"; "addressLine2";
                   "suite"; "addressLocality"; "addressRegion"; "postalCode"; "zip";
                   "zipCode"] ->
             Py.lookup addr k = None) ->
  Py.get addr "city" = PStr city -> Py.get addr "state" = PStr state ->
  Str.strip city <> "" -> Str.strip state <> "" ->
  _format_address loc = Str.strip city ++ ", " ++ Str.strip state.
Proof.
  intros Haddr Hnone Hcity Hstate Hc Hs.
  assert (Hc' : Str.is_empty (Str.strip city) = false)
    by (destruct (Str.strip city); [now elim Hc | reflexivity]).
  assert (Hs' : Str.is_empty (Str.strip state) = false)
    by (destruct (Str.strip state); [now elim Hs | reflexivity]).
  unfold _format_address. rewrite Haddr. unfold gets. cbn [map].
  rewrite (get_absent addr "streetAddress"), (get_absent addr "address1"),
    (get_absent addr "addressLine1"), (get_absent addr "address2"),
    (get_absent addr "addressLine2"), (get_absent addr "suite"),
    (get_absent addr "addressLocality"), (get_absent addr "addressRegion"),
    (get_absent addr "postalCode"), (get_absent addr "zip"), (get_absent addr "zipCode")
    by (apply Hnone; cbn [In]; auto 20).
  rewrite Hcity, Hstate. cbn [_first_nonempty].
  rewrite Hc', Hs'. cbn [negb].
  unfold assemble_address, nonempty_str.
  cbn [filter Str.is_empty negb]. rewrite Hc', Hs'. cbn [negb Str.join String.concat].
  assert (Hj : Str.is_empty (Str.strip city ++ ", " ++ Str.strip state) = false)
    by (destruct (Str.strip city); [now elim Hc | reflexivity]).
  rewrite Hj. cbn [negb Str.join String.concat filter].
  now apply strip_pair.
Qed.

(* ------------------------------------------------------------------ *)
(** ** Inputs and outputs in the working directory *)

Definition is_output (name : string) : bool := existsb (String.eqb name) html_files.

(** A path the builder reads from: it does not start at one of the pages
    the builder writes. *)
Definition safe (p : FS.path) : bool :=
  match p with
  | c :: _ => negb (is_output c)
  | [] => false
  end.

Definition safe_dir (o : option FS.path) : bool :=
  match o with Some d => safe d | None => true end.

Definition dirs_safe (ds : dirs) : bool :=
  safe_dir (ORG_DIR ds) && safe_dir (SERVICES_DIR ds) && safe_dir (REVIEWS_DIR ds)
  && safe_dir (FAQ_DIR ds) && safe_dir (HELP_DIR ds) && safe_dir (LOCATIONS_DIR ds)
  && safe_dir (LLM_DATA_DIR ds).

Lemma first_existing_dir_in (t : FS.tree) (cs : list FS.path) (d : FS.path) :
  _first_existing_dir t cs = Some d -> In d cs.
Proof.
  induction cs as [|c cs IH]; simpl; [discriminate|].
  destruct (negb (Str.is_empty (FS.path_str c)) && FS.isdir t c).
  - intros [= ->]. now left.
  - intros H. right. now apply IH.
Qed.

Lemma first_existing_dir_safe (t : FS.tree) (cs : list FS.path) :
  forallb safe cs = true -> safe_dir (_first_existing_dir t cs) = true.
Proof.
  intros Hcs. destruct (_first_existing_dir t cs) as [d|] eqn:Hd; [|reflexivity].
  simpl. rewrite forallb_forall in Hcs. apply Hcs. eapply first_existing_dir_in, Hd.
Qed.

Lemma first_existing_dir_isdir (t : FS.tree) (cs : list FS.path) (d : FS.path) :
  _first_existing_dir t cs = Some d -> FS.isdir t d = true.
Proof.
  induction cs as [|c cs IH]; simpl; [discriminate|].
  destruct (negb (Str.is_empty (FS.path_str c)) && FS.isdir t c) eqn:Hc.
  - intros [= <-]. now apply andb_prop in Hc.
  - exact IH.
Qed.

Lemma resolve_dirs_safe (t : FS.tree) : dirs_safe (resolve_dirs t) = true.
Proof.
  unfold dirs_safe, resolve_dirs.
  cbn [ORG_DIR SERVICES_DIR REVIEWS_DIR FAQ_DIR HELP_DIR LOCATIONS_DIR LLM_DATA_DIR].
  repeat (rewrite first_existing_dir_safe by reflexivity). reflexivity.
Qed.

Lemma chosen_some (o : option FS.path) (d : FS.path) : chosen o = Some d -> o = Some d.
Proof.
  destruct o as [p|]; simpl; [|discriminate].
  destruct (Str.is_empty (FS.path_str p)); [discriminate|]. now intros [= ->].
Qed.

Lemma chosen_safe (o : option FS.path) (d : FS.path) :
  safe_dir o = true -> chosen o = Some d -> safe d = true.
Proof. intros Hs Hc. apply chosen_some in Hc. now subst o. Qed.

Lemma find_remove_other (name c : string) (t : FS.tree) :
  String.eqb name c = false -> FS.find c (FS.remove name t) = FS.find c t.
Proof.
  intros Hne. induction t as [|[n x] t IH]; simpl; [reflexivity|].
  destruct (String.eqb n name) eqn:Hn; simpl.
  - apply String.eqb_eq in Hn. subst n. rewrite Hne. exact IH.
  - destruct (String.eqb n c); [reflexivity | exact IH].
Qed.

Lemma find_remove_same (name : string) (t : FS.tree) :
  FS.find name (FS.remove name t) = None.
Proof.
  induction t as [|[n x] t IH]; simpl; [reflexivity|].
  destruct (String.eqb n name) eqn:Hn; simpl; [exact IH|].
  rewrite Hn. exact IH.
Qed.

Lemma at_path_cons (t : FS.tree) (c : string) (rest : FS.path) :
  FS.at_path t (c :: rest)
  = match FS.find c t with
    | Some m => FS.lookup m rest
    | None => None
    end.
Proof. reflexivity. Qed.

Lemma at_path_write_other (name text c : string) (rest : FS.path) (t : FS.tree) :
  String.eqb name c = false ->
  FS.at_path (FS.write name text t) (c :: rest) = FS.at_path t (c :: rest).
Proof.
  intros Hne. rewrite !at_path_cons. unfold FS.write. simpl. rewrite Hne.
  now rewrite find_remove_other.
Qed.

Lemma at_path_remove_other (name c : string) (rest : FS.path) (t : FS.tree) :
  String.eqb name c = false ->
  FS.at_path (FS.remove name t) (c :: rest) = FS.at_path t (c :: rest).
Proof. intros Hne. rewrite !at_path_cons. now rewrite find_remove_other. Qed.

Lemma read_back (name text : string) (t : FS.tree) :
  FS.read_text (FS.write name text t) [name] = Ok text.
Proof.
  unfold FS.read_text. rewrite at_path_cons. unfold FS.write. simpl.
  now rewrite String.eqb_refl.
Qed.

Lemma output_not_safe_head (name c : string) (rest : FS.path) :
  is_output name = true -> safe (c :: rest) = true -> String.eqb name c = false.
Proof.
  intros Hn Hs. simpl in Hs. destruct (String.eqb name c) eqn:E; [|reflexivity].
  apply String.eqb_eq in E. subst c. rewrite Hn in Hs. discriminate.
Qed.

(* ------------------------------------------------------------------ *)
(** ** The clean-up *)

(** The names the clean-up opens or removes. *)
Definition cleanup_names : list string := ".nojekyll" :: html_files.

(** One of them is a directory. *)
Definition cleanup_blocked (t : FS.tree) : bool :=
  existsb (fun f => FS.isdir t [f]) cleanup_names.

(** The loop over the old pages and the whole clean-up, on the tree
    alone. *)
Fixpoint delete_all (fs : list string) (t : FS.tree) : FS.tree * result unit :=
  match fs with
  | [] => (t, Ok tt)
  | f :: fs' =>
      if FS.exists_ t [f] then
        match FS.os_remove f t with
        | Ok t' => delete_all fs' t'
        | Raise e => (t, Raise e)
        end
      else delete_all fs' t
  end.

Definition cleanup (t : FS.tree) : FS.tree * result unit :=
  match FS.open_w ".nojekyll" t with
  | Ok t' => delete_all html_files t'
  | Raise e => (t, Raise e)
  end.

Lemma delete_old_run (f : string) (w : world) :
  delete_old f w
  = if FS.exists_ (files w) [f] then
      match FS.os_remove f (files w) with
      | Ok t =>
          (World t (app (stdout w) ["🗑️ Deleted old " ++ f ++ " — forcing rebuild"]), Ok tt)
      | Raise e => (w, Raise e)
      end
    else (w, Ok tt).
Proof.
  unfold delete_old, bind, reads, update_files, print, ret. cbn [files stdout].
  destruct (FS.exists_ (files w) [f]); [|reflexivity].
  now destruct (FS.os_remove f (files w)).
Qed.

Lemma delete_loop_run (fs : list string) (w : world) :
  files (fst (for_each fs tt (fun _ f => delete_old f) w)) = fst (delete_all fs (files w))
  /\ snd (for_each fs tt (fun _ f => delete_old f) w) = snd (delete_all fs (files w)).
Proof.
  revert w. induction fs as [|f fs IH]; intros w; [split; reflexivity|].
  cbn [for_each delete_all]. unfold bind. rewrite delete_old_run.
  destruct (FS.exists_ (files w) [f]); [|apply IH].
  destruct (FS.os_remove f (files w)) as [t'|e]; [apply IH | split; reflexivity].
Qed.

Lemma prepare_cleanup (w : world) :
  files (fst (prepare w)) = fst (cleanup (files w))
  /\ snd (prepare w) = snd (cleanup (files w)).
Proof.
  unfold prepare, cleanup, bind, update_files, print.
  destruct (FS.open_w ".nojekyll" (files w)) as [t|e]; [|split; reflexivity].
  apply (delete_loop_run html_files
           (World t (app (stdout w) ["✅ Created .nojekyll file for GitHub Pages"]))).
Qed.

Lemma remove_absent (f : string) (t : FS.tree) : FS.find f t = None -> FS.remove f t = t.
Proof.
  induction t as [|[n x] t IH]; simpl; [reflexivity|].
  destruct (String.eqb n f); [discriminate|]. simpl. intros H. now rewrite IH.
Qed.

Lemma isdir_find (t : FS.tree) (f : string) :
  FS.isdir t [f] = match FS.find f t with Some (FS.Dir _) => true | _ => false end.
Proof.
  unfold FS.isdir. rewrite at_path_cons. now destruct (FS.find f t) as [[| |es]|].
Qed.

Lemma exists_find (t : FS.tree) (f : string) :
  FS.exists_ t [f] = match FS.find f t with Some _ => true | None => false end.
Proof. unfold FS.exists_. rewrite at_path_cons. now destruct (FS.find f t). Qed.

(** One round of the loop: a directory stops it, anything else is gone
    afterwards. *)
Lemma delete_all_cons (f : string) (fs : list string) (t : FS.tree) :
  delete_all (f :: fs) t
  = if FS.isdir t [f] then (t, Raise (FS.is_a_directory f))
    else delete_all fs (FS.remove f t).
Proof.
  cbn [delete_all]. rewrite exists_find, isdir_find. unfold FS.os_remove.
  destruct (FS.find f t) as [[s| |es]|] eqn:E; try reflexivity.
  now rewrite (remove_absent f t E).
Qed.

Lemma cleanup_unfold (t : FS.tree) :
  cleanup t
  = if FS.isdir t [".nojekyll"] then (t, Raise (FS.is_a_directory ".nojekyll"))
    else delete_all html_files (FS.write ".nojekyll" "" t).
Proof.
  unfold cleanup, FS.open_w. rewrite isdir_find.
  now destruct (FS.find ".nojekyll" t) as [[s| |es]|].
Qed.

Lemma find_remove (name c : string) (t : FS.tree) :
  FS.find c (FS.remove name t) = if String.eqb name c then None else FS.find c t.
Proof.
  destruct (String.eqb name c) eqn:E.
  - apply String.eqb_eq in E. subst c. apply find_remove_same.
  - now apply find_remove_other.
Qed.

(** The loop leaves the names it is not given, never brings a name back,
    and leaves every directory. *)
Lemma delete_all_other (fs : list string) (c : string) (t : FS.tree) :
  ~ In c fs -> FS.find c (fst (delete_all fs t)) = FS.find c t.
Proof.
  revert t. induction fs as [|f fs IH]; intros t Hc; [reflexivity|].
  rewrite delete_all_cons. destruct (FS.isdir t [f]); [reflexivity|].
  rewrite IH by (intros H; apply Hc; now right).
  apply find_remove_other. apply String.eqb_neq. intros ->. apply Hc. now left.
Qed.

Lemma delete_all_absent (fs : list string) (c : string) (t : FS.tree) :
  FS.find c t = None -> FS.find c (fst (delete_all fs t)) = None.
Proof.
  revert t. induction fs as [|f fs IH]; intros t Hc; [exact Hc|].
  rewrite delete_all_cons. destruct (FS.isdir t [f]); [exact Hc|].
  apply IH. rewrite find_remove, Hc. now destruct (String.eqb f c).
Qed.

Lemma delete_all_keeps_dirs (fs : list string) (c : string) (t : FS.tree) :
  FS.isdir t [c] = true -> FS.isdir (fst (delete_all fs t)) [c] = true.
Proof.
  revert t. induction fs as [|f fs IH]; intros t Hc; [exact Hc|].
  rewrite delete_all_cons. destruct (FS.isdir t [f]) eqn:Hf; [exact Hc|].
  apply IH. rewrite isdir_find, find_remove.
  destruct (String.eqb f c) eqn:E.
  - apply String.eqb_eq in E. subst c. congruence.
  - now rewrite <- isdir_find.
Qed.

Lemma isdir_remove (name c : string) (t : FS.tree) :
  FS.isdir (FS.remove name t) [c] = true -> FS.isdir t [c] = true.
Proof.
  rewrite !isdir_find, find_remove. now destruct (String.eqb name c).
Qed.

(** With no directory among the names the loop returns, and has removed
    them all; with one it raises. *)
Lemma delete_all_free (fs : list string) (t : FS.tree) :
  existsb (fun f => FS.isdir t [f]) fs = false ->
  delete_all fs t = (fold_left (fun t f => FS.remove f t) fs t, Ok tt).
Proof.
  revert t. induction fs as [|f fs IH]; intros t H; [reflexivity|].
  cbn [existsb] in H. apply orb_false_elim in H. destruct H as [Hf Hfs].
  rewrite delete_all_cons, Hf. cbn [fold_left]. apply IH.
  destruct (existsb (fun f0 => FS.isdir (FS.remove f t) [f0]) fs) eqn:E; [|reflexivity].
  apply existsb_exists in E. destruct E as (x & Hx & Hd). apply isdir_remove in Hd.
  assert (Ht : existsb (fun f0 => FS.isdir t [f0]) fs = true)
    by (apply existsb_exists; now exists x).
  congruence.
Qed.

Lemma delete_all_blocked (fs : list string) (t : FS.tree) :
  existsb (fun f => FS.isdir t [f]) fs = true ->
  exists f, In f fs /\ FS.isdir t [f] = true
            /\ snd (delete_all fs t) = Raise (FS.is_a_directory f).
Proof.
  revert t. induction fs as [|f fs IH]; intros t H; [discriminate|].
  rewrite delete_all_cons. destruct (FS.isdir t [f]) eqn:Hf.
  - exists f. split; [now left|]. now split.
  - cbn [existsb] in H. rewrite Hf in H. cbn [orb] in H.
    assert (H' : existsb (fun f0 => FS.isdir (FS.remove f t) [f0]) fs = true).
    { apply existsb_exists in H. destruct H as (x & Hx & Hd).
      apply existsb_exists. exists x. split; [exact Hx|].
      rewrite isdir_find, find_remove. destruct (String.eqb f x) eqn:E.
      - apply String.eqb_eq in E. subst x. congruence.
      - now rewrite <- isdir_find. }
    destruct (IH _ H') as (x & Hx & Hd & Hr). exists x.
    split; [now right|]. split; [now apply isdir_remove in Hd | exact Hr].
Qed.

(** A second pass of the loop over what the first one left does the
    same and changes nothing. *)
Lemma delete_all_again (fs : list string) (t : FS.tree) :
  delete_all fs (fst (delete_all fs t)) = delete_all fs t.
Proof.
  revert t. induction fs as [|f fs IH]; intros t; [reflexivity|].
  rewrite (delete_all_cons f fs t). destruct (FS.isdir t [f]) eqn:Hf.
  - cbn [fst]. now rewrite delete_all_cons, Hf.
  - assert (Hnone : FS.find f (fst (delete_all fs (FS.remove f t))) = None)
      by (apply delete_all_absent, find_remove_same).
    rewrite delete_all_cons, isdir_find, Hnone, (remove_absent _ _ Hnone). apply IH.
Qed.

Lemma delete_all_under (n : string) (x : FS.node) (fs : list string) (s : FS.tree) :
  ~ In n fs ->
  delete_all fs ((n, x) :: s) = ((n, x) :: fst (delete_all fs s), snd (delete_all fs s)).
Proof.
  revert s. induction fs as [|f fs IH]; intros s Hn; [reflexivity|].
  assert (Hne : String.eqb n f = false)
    by (apply String.eqb_neq; intros ->; apply Hn; now left).
  rewrite !delete_all_cons, !isdir_find. cbn [FS.find]. rewrite Hne.
  destruct (FS.find f s) as [[text| |es]|]; try reflexivity;
    unfold FS.remove; cbn [filter fst]; rewrite Hne; cbn [negb];
    apply IH; intros H; apply Hn; now right.
Qed.

Lemma not_in_html_files (c : string) : is_output c = false -> ~ In c html_files.
Proof.
  intros E Hin.
  assert (H : is_output c = true)
    by (apply existsb_exists; exists c; split; [exact Hin | apply String.eqb_refl]).
  congruence.
Qed.

Lemma cleanup_again (t : FS.tree) : cleanup (fst (cleanup t)) = cleanup t.
Proof.
  rewrite (cleanup_unfold t). destruct (FS.isdir t [".nojekyll"]) eqn:Hn.
  - cbn [fst]. now rewrite cleanup_unfold, Hn.
  - unfold FS.write.
    rewrite (delete_all_under ".nojekyll" (FS.File "") html_files)
      by (apply not_in_html_files; reflexivity).
    cbn [fst]. set (s := FS.remove ".nojekyll" t).
    assert (Hs : FS.find ".nojekyll" (fst (delete_all html_files s)) = None)
      by (apply delete_all_absent, find_remove_same).
    rewrite cleanup_unfold, isdir_find. cbn [FS.find String.eqb Ascii.eqb Bool.eqb].
    unfold FS.write, FS.remove at 1. cbn [filter fst String.eqb Ascii.eqb Bool.eqb negb].
    fold (FS.remove ".nojekyll" (fst (delete_all html_files s))).
    rewrite (remove_absent _ _ Hs).
    rewrite (delete_all_under ".nojekyll" (FS.File "") html_files)
      by (apply not_in_html_files; reflexivity).
    now rewrite delete_all_again.
Qed.

(** The clean-up returns exactly when none of its names is a directory. *)
Lemma cleanup_free (t : FS.tree) :
  cleanup_blocked t = false ->
  cleanup t
  = (fold_left (fun t f => FS.remove f t) html_files (FS.write ".nojekyll" "" t), Ok tt).
Proof.
  unfold cleanup_blocked, cleanup_names. cbn [existsb]. intros H.
  apply orb_false_elim in H. destruct H as [Hn Hpages].
  rewrite cleanup_unfold, Hn. apply delete_all_free.
  destruct (existsb (fun f => FS.isdir (FS.write ".nojekyll" "" t) [f]) html_files) eqn:E;
    [|reflexivity].
  apply existsb_exists in E. destruct E as (x & Hx & Hd).
  assert (Hne : String.eqb ".nojekyll" x = false).
  { apply String.eqb_neq. intros <-. revert Hx. apply not_in_html_files. reflexivity. }
  unfold FS.isdir in Hd. rewrite at_path_write_other in Hd by exact Hne.
  assert (Ht : existsb (fun f => FS.isdir t [f]) html_files = true)
    by (apply existsb_exists; now exists x).
  congruence.
Qed.

Lemma cleanup_stopped (t : FS.tree) :
  cleanup_blocked t = true ->
  exists f, In f cleanup_names /\ FS.isdir t [f] = true
            /\ snd (cleanup t) = Raise (FS.is_a_directory f).
Proof.
  unfold cleanup_blocked, cleanup_names. cbn [existsb]. intros H.
  rewrite cleanup_unfold. destruct (FS.isdir t [".nojekyll"]) eqn:Hn.
  - exists ".nojekyll". split; [now left|]. now split.
  - cbn [orb] in H.
    assert (H' : existsb (fun f => FS.isdir (FS.write ".nojekyll" "" t) [f]) html_files = true).
    { apply existsb_exists in H. destruct H as (x & Hx & Hd).
      apply existsb_exists. exists x. split; [exact Hx|].
      unfold FS.isdir in *. rewrite at_path_write_other; [exact Hd|].
      apply String.eqb_neq. intros <-. revert Hx. apply not_in_html_files. reflexivity. }
    destruct (delete_all_blocked _ _ H') as (x & Hx & Hd & Hr). exists x.
    split; [now right|]. split; [|exact Hr].
    unfold FS.isdir in *. rewrite at_path_write_other in Hd; [exact Hd|].
    apply String.eqb_neq. intros <-. revert Hx. apply not_in_html_files. reflexivity.
Qed.

Lemma prepare_returns (w : world) :
  cleanup_blocked (files w) = false -> snd (prepare w) = Ok tt.
Proof.
  intros H. rewrite (proj2 (prepare_cleanup w)), (cleanup_free _ H). reflexivity.
Qed.

Lemma prepare_raises (w : world) :
  cleanup_blocked (files w) = true ->
  exists f, In f cleanup_names /\ FS.isdir (files w) [f] = true
            /\ snd (prepare w) = Raise (FS.is_a_directory f).
Proof.
  intros H. rewrite (proj2 (prepare_cleanup w)). now apply cleanup_stopped.
Qed.

Lemma prepare_returned (w : world) (u : unit) :
  snd (prepare w) = Ok u -> cleanup_blocked (files w) = false.
Proof.
  intros H. destruct (cleanup_blocked (files w)) eqn:E; [|reflexivity].
  destruct (prepare_raises w E) as (f & _ & _ & Hr). congruence.
Qed.

Lemma prepare_files (w : world) :
  cleanup_blocked (files w) = false ->
  files (fst (prepare w))
  = fold_left (fun t f => FS.remove f t) html_files (FS.write ".nojekyll" "" (files w)).
Proof.
  intros H. rewrite (proj1 (prepare_cleanup w)), (cleanup_free _ H). reflexivity.
Qed.

(** After a clean-up that returned no page exists, and the inputs are
    those of the tree before it, with the marker file written. *)
Lemma prepare_no_pages (w : world) (f : string) :
  cleanup_blocked (files w) = false ->
  is_output f = true -> FS.find f (files (fst (prepare w))) = None.
Proof.
  intros Hfree Hf. rewrite (prepare_files w Hfree).
  unfold is_output, html_files in *. cbn [existsb] in Hf.
  repeat match type of Hf with
         | (String.eqb f ?name || _)%bool = true =>
             apply orb_prop in Hf; destruct Hf as [Hf|Hf];
             [apply String.eqb_eq in Hf; subst f; cbn [fold_left];
              repeat (rewrite find_remove_other by reflexivity);
              apply find_remove_same|]
         end.
  discriminate.
Qed.

Lemma prepare_inputs (w : world) (p : FS.path) :
  cleanup_blocked (files w) = false ->
  safe p = true ->
  FS.at_path (files (fst (prepare w))) p
  = FS.at_path (FS.write ".nojekyll" "" (files w)) p.
Proof.
  intros Hfree Hp. rewrite (prepare_files w Hfree). destruct p as [|c rest]; [discriminate|].
  cbn [safe] in Hp. unfold is_output, html_files in *. cbn [existsb] in Hp.
  rewrite !negb_orb in Hp.
  repeat match type of Hp with
         | (_ && _)%bool = true => apply andb_prop in Hp; destruct Hp as [? Hp]
         end.
  cbn [fold_left].
  repeat (rewrite at_path_remove_other
            by (rewrite String.eqb_sym;
                match goal with H : negb ?b = true |- ?b = false =>
                  now destruct b end)).
  reflexivity.
Qed.

(** Whether it returns or raises, the clean-up leaves every entry that
    is not one of its names. *)
Lemma cleanup_inputs_kept (w : world) (c : string) (rest : FS.path) :
  c <> ".nojekyll" -> ~ In c html_files ->
  FS.at_path (files (fst (prepare w))) (c :: rest) = FS.at_path (files w) (c :: rest).
Proof.
  intros Hc Hout.
  assert (Hfind : FS.find c (fst (cleanup (files w))) = FS.find c (files w)).
  { rewrite cleanup_unfold. destruct (FS.isdir (files w) [".nojekyll"]); [reflexivity|].
    rewrite (delete_all_other html_files c _ Hout).
    unfold FS.write. cbn [FS.find].
    assert (Hne : String.eqb ".nojekyll" c = false) by (apply String.eqb_neq; congruence).
    rewrite Hne. now apply find_remove_other. }
  now rewrite (proj1 (prepare_cleanup w)), !at_path_cons, Hfind.
Qed.

Lemma prepare_again (w : world) :
  files (fst (prepare (fst (prepare w)))) = files (fst (prepare w))
  /\ snd (prepare (fst (prepare w))) = snd (prepare w).
Proof.
  destruct (prepare_cleanup (fst (prepare w))) as [Hf Hr].
  destruct (prepare_cleanup w) as [Hf0 Hr0].
  rewrite Hf, Hr, Hf0, Hr0, cleanup_again. now split.
Qed.

(* ------------------------------------------------------------------ *)
(** ** The driver loop *)

Definition failure_line (name : string) (e : exn) : string :=
  "❌ Failed generating " ++ name ++ ": " ++ exn_msg e.

(** The generators run one after the other, each on the world the one
    before it left, whatever the one before it did: the outcome of each and
    the final world.  A generator that raised leaves its log line. *)
Fixpoint run_all (gens : list (string * M bool)) (w : world)
  : list (result bool) * world :=
  match gens with
  | [] => ([], w)
  | entry :: rest =>
      let after := snd entry w in
      let w' := match snd after with
                | Ok _ => fst after
                | Raise e => World (files (fst after))
                               (app (stdout (fst after)) [failure_line (fst entry) e])
                end in
      (snd after :: fst (run_all rest w'), snd (run_all rest w'))
  end.

Lemma run_all_length (gens : list (string * M bool)) (w : world) :
  length (fst (run_all gens w)) = length gens.
Proof.
  revert w. induction gens as [|entry rest IH]; intros w; simpl; [reflexivity|].
  now rewrite IH.
Qed.

Lemma driver_loop_run (gens : list (string * M bool)) (ok : bool) (w : world) :
  for_each gens ok run_generator w
  = (snd (run_all gens w), Ok (ok && forallb is_ok (fst (run_all gens w)))).
Proof.
  revert ok w. induction gens as [|entry rest IH]; intros ok w.
  - simpl. unfold ret. now rewrite andb_true_r.
  - simpl for_each. unfold bind at 1.
    unfold run_generator at 1, try_except, bind at 1, ret, print, failure_line.
    simpl run_all.
    destruct (snd entry w) as [w1 [b|e]]; simpl; rewrite IH; simpl.
    + reflexivity.
    + rewrite andb_false_r. reflexivity.
Qed.

Lemma build_pages_run (gens : list (string * M bool)) (w : world) :
  exists code last_line,
    build_pages gens w
    = (World (files (snd (run_all gens w))) (app (stdout (snd (run_all gens w))) [last_line]),
       Ok code)
    /\ (forallb is_ok (fst (run_all gens w)) = true -> code = 0%Z)
    /\ (existsb (fun r => negb (is_ok r)) (fst (run_all gens w)) = true -> code = 2%Z).
Proof.
  unfold build_pages, bind at 1. rewrite driver_loop_run.
  generalize (run_all gens w). intros [outcomes w']. cbn [fst snd andb].
  destruct (forallb is_ok outcomes) eqn:Hall; cbn [negb];
    unfold bind, print, ret; cbn [fst snd files stdout].
  - do 2 eexists. split; [reflexivity|]. split; [reflexivity|].
    intros Hex. exfalso.
    apply existsb_exists in Hex. destruct Hex as (r & Hin & Hr).
    rewrite forallb_forall in Hall. rewrite (Hall r Hin) in Hr. discriminate.
  - do 2 eexists. split; [reflexivity|]. split; [discriminate | reflexivity].
Qed.


(* ------------------------------------------------------------------ *)
(** ** Pages without a source directory *)

(** The statement returned, and changed nothing but the log. *)
Definition quiet {A} (w : world) (out : world * result A) : Prop :=
  exists a log, out = (World (files w) (app (stdout w) log), Ok a).

Lemma quiet_here {A} (w : world) (a : A) : quiet w (w, Ok a).
Proof. exists a, []. now rewrite app_nil_r, world_eta. Qed.

Lemma quiet_after {A} (w : world) (log : list string) (out : world * result A) :
  quiet (World (files w) (app (stdout w) log)) out -> quiet w out.
Proof.
  intros (a & log' & ->). exists a, (app log log'). simpl. now rewrite app_assoc.
Qed.

Lemma load_data_quiet (p : FS.path) (w : world) : quiet w (load_data p w).
Proof.
  rewrite load_data_run. destruct (parse_attempt (files w) p) as [[v|e]|].
  - apply quiet_here.
  - eexists _, _. reflexivity.
  - apply quiet_here.
Qed.

Lemma first_org_record_quiet (d : FS.path) (names : list string) (w : world) :
  quiet w (first_org_record d names w).
Proof.
  revert w. induction names as [|fn names IH]; intros w; simpl.
  - apply quiet_here.
  - destruct (is_schema_file fn); [|apply IH].
    unfold bind. destruct (load_data_quiet (d ++ [fn])%list w) as (data & log & ->).
    destruct data as [|rec data].
    + apply quiet_after with (log := log), IH.
    + apply quiet_after with (log := log), quiet_here.
Qed.

(** The organization directory chosen at import can be listed. *)
Definition org_listable (t : FS.tree) : Prop :=
  match chosen (ORG_DIR g) with
  | Some d => FS.isdir t d = true
  | None => True
  end.

Lemma listdir_of_dir (t : FS.tree) (d : FS.path) :
  FS.isdir t d = true -> exists names, FS.listdir t d = Ok names.
Proof.
  unfold FS.isdir, FS.listdir, FS.node_isdir, FS.node_listdir.
  destruct (FS.at_path t d) as [[| |es]|]; try discriminate. intros _. now eexists.
Qed.

Lemma load_org_meta_quiet (w : world) :
  org_listable (files w) -> quiet w (load_org_meta w).
Proof.
  unfold org_listable, load_org_meta. intros Hd. unfold bind at 1.
  destruct (chosen (ORG_DIR g)) as [d|].
  - unfold bind at 1, listdir, reads_result.
    destruct (listdir_of_dir _ _ Hd) as [names ->].
    destruct (first_org_record_quiet d (Str.sorted names) w) as (v & log & ->).
    apply quiet_after with (log := log), quiet_here.
  - unfold ret. apply quiet_here.
Qed.

Lemma generate_page_run (clk : clock) (title content : string) (w : world) :
  org_listable (files w) ->
  exists head log,
    generate_page clk title content w
    = (World (files w) (app (stdout w) log),
       Ok (head ++ content ++ page_mid ++ footer_line clk ++ page_tail)).
Proof.
  intros Hd. unfold generate_page, bind.
  destruct (load_org_meta_quiet w Hd) as (org & log & ->).
  unfold ret. eexists _, log. reflexivity.
Qed.

Lemma org_listable_write (name text : string) (t : FS.tree) :
  is_output name = true -> dirs_safe g = true ->
  org_listable t -> org_listable (FS.write name text t).
Proof.
  unfold org_listable. intros Hn Hg Hd.
  destruct (chosen (ORG_DIR g)) as [d|] eqn:Hc; [|exact I].
  assert (Hs : safe d = true).
  { apply (chosen_safe (ORG_DIR g)); [|exact Hc].
    unfold dirs_safe in Hg. repeat (apply andb_prop in Hg; destruct Hg as [Hg ?]).
    exact Hg. }
  destruct d as [|c rest]; [discriminate|].
  unfold FS.isdir in *. rewrite at_path_write_other; [exact Hd|].
  now apply (output_not_safe_head name c rest).
Qed.

Lemma write_page_run (name : string) (clk : clock) (title content : string) (w : world) :
  is_output name = true -> dirs_safe g = true -> org_listable (files w) ->
  exists head log,
    write_page name (generate_page clk title content) w
    = (World (FS.write name (head ++ content ++ page_mid ++ footer_line clk ++ page_tail)
                (FS.write name "" (files w)))
             (app (stdout w) log),
       Ok tt).
Proof.
  intros Hn Hg Hd. unfold write_page, bind at 1, modify_files at 1.
  unfold bind at 1.
  destruct (generate_page_run clk title content
              (World (FS.write name "" (files w)) (stdout w))) as (head & log & ->).
  { simpl. now apply org_listable_write. }
  unfold modify_files. simpl. eexists _, _. reflexivity.
Qed.







Lemma placeholder_page_written (name : string) (clk : clock) (title content text : string)
    (w : world) :
  is_output name = true -> dirs_safe g = true -> org_listable (files w) ->
  (exists a b, content = a ++ text ++ b) ->
  exists w' page before rest,
    write_page name (generate_page clk title content) w = (w', Ok tt)
    /\ FS.read_text (files w') [name] = Ok page
    /\ page = before ++ text ++ rest.
Proof.
  intros Hn Hg Hd (a & b & ->).
  destruct (write_page_run name clk title (a ++ text ++ b) w Hn Hg Hd) as (head & log & ->).
  eexists _, _, (head ++ a), (b ++ page_mid ++ footer_line clk ++ page_tail).
  split; [reflexivity|]. split; [apply read_back|].
  rewrite !append_assoc. reflexivity.
Qed.


(* ------------------------------------------------------------------ *)
(** ** Two runs side by side *)

Section TwoRuns.

(** The time each page is generated at, in the first and in the second
    run. *)
Variables clk1 clk2 : string -> clock.

(** Two versions of the page [f]: the same file (or both absent), or two
    files that differ in the footer line only. *)
Definition same_page (f : string) (o1 o2 : option FS.node) : Prop :=
  o1 = o2
  \/ exists before rest,
       o1 = Some (FS.File (before ++ footer_line (clk1 f) ++ rest))
       /\ o2 = Some (FS.File (before ++ footer_line (clk2 f) ++ rest)).

(** Two trees with the same inputs. *)
Definition keeps (t1 t2 : FS.tree) : Prop :=
  forall p, safe p = true -> FS.at_path t1 p = FS.at_path t2 p.

Definition agree (t1 t2 : FS.tree) : Prop :=
  keeps t1 t2
  /\ forall f, is_output f = true -> same_page f (FS.find f t1) (FS.find f t2).

(** [m1] and [m2], started on trees that agree, end on trees that agree,
    with the same result, and neither touched an input. *)
Definition sim {A} (m1 m2 : M A) : Prop :=
  forall w1 w2, agree (files w1) (files w2) ->
    agree (files (fst (m1 w1))) (files (fst (m2 w2)))
    /\ snd (m1 w1) = snd (m2 w2)
    /\ keeps (files w1) (files (fst (m1 w1)))
    /\ keeps (files w2) (files (fst (m2 w2))).

Definition produced {A} (m : M A) (a : A) : Prop := exists w, snd (m w) = Ok a.

(** A value read from the tree that depends on the inputs only. *)
Definition respects {A} (f : FS.tree -> A) : Prop :=
  forall t1 t2, keeps t1 t2 -> f t1 = f t2.

Lemma keeps_refl (t : FS.tree) : keeps t t.
Proof. intros p _. reflexivity. Qed.

Lemma keeps_trans (t1 t2 t3 : FS.tree) : keeps t1 t2 -> keeps t2 t3 -> keeps t1 t3.
Proof. intros H12 H23 p Hp. now rewrite (H12 p Hp), (H23 p Hp). Qed.

Lemma keeps_sym (t1 t2 : FS.tree) : keeps t1 t2 -> keeps t2 t1.
Proof. intros H p Hp. now rewrite (H p Hp). Qed.

Lemma agree_refl (t : FS.tree) : agree t t.
Proof. split; [apply keeps_refl | intros f _; now left]. Qed.

Lemma sim_ret {A} (a : A) : sim (ret a) (ret a).
Proof. intros w1 w2 H. simpl. repeat split; try apply H; apply keeps_refl. Qed.

Lemma sim_lift {A} (r : result A) : sim (lift r) (lift r).
Proof. intros w1 w2 H. simpl. repeat split; try apply H; apply keeps_refl. Qed.

Lemma sim_print (line : string) : sim (print line) (print line).
Proof. intros w1 w2 H. simpl. repeat split; try apply H; apply keeps_refl. Qed.

Lemma sim_reads {A} (f : FS.tree -> A) : respects f -> sim (reads f) (reads f).
Proof.
  intros Hf w1 w2 H. simpl. repeat split; try apply H; try apply keeps_refl.
  f_equal. apply Hf, H.
Qed.

Lemma sim_reads_result {A} (f : FS.tree -> result A) :
  respects f -> sim (reads_result f) (reads_result f).
Proof.
  intros Hf w1 w2 H. simpl. repeat split; try apply H; try apply keeps_refl.
  apply Hf, H.
Qed.

Lemma sim_bind {A B} (m1 m2 : M A) (k1 k2 : A -> M B) :
  sim m1 m2 ->
  (forall a, produced m1 a -> sim (k1 a) (k2 a)) ->
  sim (bind m1 k1) (bind m2 k2).
Proof.
  intros Hm Hk w1 w2 H. unfold bind.
  destruct (Hm w1 w2 H) as (Ha & Hr & K1 & K2).
  assert (Hp : forall a, snd (m1 w1) = Ok a -> produced m1 a) by (intros a E; now exists w1).
  destruct (m1 w1) as [w1' r1], (m2 w2) as [w2' r2]. simpl in *. subst r2.
  destruct r1 as [a|e]; simpl.
  - destruct (Hk a (Hp a eq_refl) w1' w2' Ha) as (Ha' & Hr' & K1' & K2').
    split; [exact Ha'|]. split; [exact Hr'|].
    split; eapply keeps_trans; eassumption.
  - split; [exact Ha|]. split; [reflexivity|]. split; assumption.
Qed.

Lemma sim_try_except {A} (m1 m2 : M A) (h1 h2 : exn -> M A) :
  sim m1 m2 -> (forall e, sim (h1 e) (h2 e)) ->
  sim (try_except m1 h1) (try_except m2 h2).
Proof.
  intros Hm Hh w1 w2 H. unfold try_except.
  destruct (Hm w1 w2 H) as (Ha & Hr & K1 & K2).
  destruct (m1 w1) as [w1' r1], (m2 w2) as [w2' r2]. simpl in *. subst r2.
  destruct r1 as [a|e]; simpl.
  - split; [exact Ha|]. split; [reflexivity|]. split; assumption.
  - destruct (Hh e w1' w2' Ha) as (Ha' & Hr' & K1' & K2').
    split; [exact Ha'|]. split; [exact Hr'|].
    split; eapply keeps_trans; eassumption.
Qed.

Lemma sim_for_each {A X} (xs : list X) (b1 b2 : A -> X -> M A) :
  (forall a x, In x xs -> sim (b1 a x) (b2 a x)) ->
  forall a, sim (for_each xs a b1) (for_each xs a b2).
Proof.
  induction xs as [|x xs IH]; intros Hb a; simpl.
  - apply sim_ret.
  - apply sim_bind.
    + apply Hb. now left.
    + intros a' _. apply IH. intros a0 x0 Hin. apply Hb. now right.
Qed.

(** *** Reading inputs *)

Lemma safe_app (d : FS.path) (fn : string) : safe d = true -> safe (d ++ [fn])%list = true.
Proof. destruct d; [discriminate | trivial]. Qed.

Lemma respects_exists (p : FS.path) : safe p = true -> respects (fun t => FS.exists_ t p).
Proof. intros Hp t1 t2 H. unfold FS.exists_. now rewrite (H p Hp). Qed.

Lemma respects_isdir (p : FS.path) : safe p = true -> respects (fun t => FS.isdir t p).
Proof. intros Hp t1 t2 H. unfold FS.isdir. now rewrite (H p Hp). Qed.

Lemma respects_listdir (p : FS.path) : safe p = true -> respects (fun t => FS.listdir t p).
Proof. intros Hp t1 t2 H. unfold FS.listdir. now rewrite (H p Hp). Qed.

Lemma respects_read_text (p : FS.path) :
  safe p = true -> respects (fun t => FS.read_text t p).
Proof. intros Hp t1 t2 H. unfold FS.read_text. now rewrite (H p Hp). Qed.

Lemma respects_walk_files (p : FS.path) :
  safe p = true -> respects (fun t => FS.walk_files t p).
Proof. intros Hp t1 t2 H. unfold FS.walk_files. now rewrite (H p Hp). Qed.

Lemma respects_list_data_files (folder : FS.path) (exts : list string) :
  safe folder = true -> respects (fun t => _list_data_files t folder exts).
Proof.
  intros Hp t1 t2 H. unfold _list_data_files.
  rewrite (respects_isdir folder Hp t1 t2 H), (respects_walk_files folder Hp t1 t2 H).
  reflexivity.
Qed.

Lemma respects_parse_attempt (p : FS.path) :
  safe p = true -> respects (fun t => parse_attempt t p).
Proof.
  intros Hp t1 t2 H. unfold parse_attempt.
  rewrite (respects_exists p Hp t1 t2 H), (respects_read_text p Hp t1 t2 H).
  reflexivity.
Qed.

Lemma sim_listdir (d : FS.path) : safe d = true -> sim (listdir d) (listdir d).
Proof. intros Hd. apply sim_reads_result, respects_listdir, Hd. Qed.

Lemma sim_load_data (p : FS.path) : safe p = true -> sim (load_data p) (load_data p).
Proof.
  intros Hp w1 w2 H. rewrite !load_data_run.
  rewrite (respects_parse_attempt p Hp (files w1) (files w2) (proj1 H)).
  destruct (parse_attempt (files w2) p) as [[v|e]|]; simpl;
    repeat split; try apply H; apply keeps_refl.
Qed.

(** *** Writing a page *)

Hypothesis dirs_ok : dirs_safe g = true.

Lemma dirs_ok_fields :
  safe_dir (ORG_DIR g) = true /\ safe_dir (SERVICES_DIR g) = true
  /\ safe_dir (REVIEWS_DIR g) = true /\ safe_dir (FAQ_DIR g) = true
  /\ safe_dir (HELP_DIR g) = true /\ safe_dir (LOCATIONS_DIR g) = true
  /\ safe_dir (LLM_DATA_DIR g) = true.
Proof.
  pose proof dirs_ok as H. unfold dirs_safe in H.
  repeat (apply andb_prop in H; destruct H as [H ?]). repeat split; assumption.
Qed.

Lemma find_write_same (f text : string) (t : FS.tree) :
  FS.find f (FS.write f text t) = Some (FS.File text).
Proof. unfold FS.write. simpl. now rewrite String.eqb_refl. Qed.

Lemma find_write_other (f f' text : string) (t : FS.tree) :
  String.eqb f f' = false -> FS.find f' (FS.write f text t) = FS.find f' t.
Proof. intros Hne. unfold FS.write. simpl. rewrite Hne. now apply find_remove_other. Qed.

Lemma keeps_write (f text : string) (t : FS.tree) :
  is_output f = true -> keeps t (FS.write f text t).
Proof.
  intros Hf [|c rest] Hp; [discriminate|].
  symmetry. apply at_path_write_other. now apply (output_not_safe_head f c rest).
Qed.

Lemma agree_write (f x1 x2 : string) (t1 t2 : FS.tree) :
  is_output f = true -> agree t1 t2 ->
  same_page f (Some (FS.File x1)) (Some (FS.File x2)) ->
  agree (FS.write f x1 t1) (FS.write f x2 t2).
Proof.
  intros Hf [Hk Ho] Hsame. split.
  - eapply keeps_trans; [apply keeps_sym, keeps_write, Hf|].
    eapply keeps_trans; [exact Hk | apply keeps_write, Hf].
  - intros f' Hf'. destruct (String.eqb f f') eqn:E.
    + apply String.eqb_eq in E. subst f'. now rewrite !find_write_same.
    + rewrite !find_write_other by assumption. now apply Ho.
Qed.

Lemma sim_first_org_record (d : FS.path) (names : list string) :
  safe d = true -> sim (first_org_record d names) (first_org_record d names).
Proof.
  intros Hd. induction names as [|fn names IH]; simpl.
  - apply sim_ret.
  - destruct (is_schema_file fn); [|exact IH].
    apply sim_bind; [apply sim_load_data, safe_app, Hd|].
    intros [|rec data] _; [exact IH | apply sim_ret].
Qed.

Lemma sim_load_org_meta : sim load_org_meta load_org_meta.
Proof.
  unfold load_org_meta. apply sim_bind; [|intros; apply sim_ret].
  destruct (chosen (ORG_DIR g)) as [d|] eqn:Hc; [|apply sim_ret].
  assert (Hd : safe d = true)
    by (apply (chosen_safe (ORG_DIR g)); [apply dirs_ok_fields | exact Hc]).
  apply sim_bind; [apply sim_listdir, Hd|].
  intros names _. apply sim_first_org_record, Hd.
Qed.

Definition page_of (clk : clock) (title content : string) (org : org_meta) : string :=
  page_head (Py.or (meta_name org) (PStr "Site")) (Py.or (meta_favicon org) (PStr "favicon.ico"))
    title
  ++ content ++ page_mid ++ footer_line clk ++ page_tail.

Lemma write_page_unfold (f : string) (clk : clock) (title content : string) (w : world) :
  write_page f (generate_page clk title content) w
  = match load_org_meta (World (FS.write f "" (files w)) (stdout w)) with
    | (w', Ok org) =>
        (World (FS.write f (page_of clk title content org) (files w')) (stdout w'), Ok tt)
    | (w', Raise e) => (w', Raise e)
    end.
Proof.
  unfold write_page, generate_page, bind, modify_files, ret, page_of.
  cbn [fst snd files stdout].
  destruct (load_org_meta (World (FS.write f "" (files w)) (stdout w))) as [w' [org|e]];
    reflexivity.
Qed.

Lemma same_page_of (f title content : string) (org : org_meta) :
  same_page f (Some (FS.File (page_of (clk1 f) title content org)))
              (Some (FS.File (page_of (clk2 f) title content org))).
Proof.
  right. unfold page_of.
  exists (page_head (Py.or (meta_name org) (PStr "Site"))
            (Py.or (meta_favicon org) (PStr "favicon.ico")) title ++ content ++ page_mid),
         page_tail.
  rewrite !append_assoc. split; reflexivity.
Qed.

Lemma sim_write_page (f title content : string) :
  is_output f = true ->
  sim (write_page f (generate_page (clk1 f) title content))
      (write_page f (generate_page (clk2 f) title content)).
Proof.
  intros Hf w1 w2 H.
  assert (H0 : agree (FS.write f "" (files w1)) (FS.write f "" (files w2)))
    by (apply agree_write; [exact Hf | exact H | now left]).
  destruct (sim_load_org_meta (World (FS.write f "" (files w1)) (stdout w1))
              (World (FS.write f "" (files w2)) (stdout w2)) H0) as (Ha & Hr & K1 & K2).
  rewrite !write_page_unfold.
  destruct (load_org_meta (World (FS.write f "" (files w1)) (stdout w1))) as [w1o r1].
  destruct (load_org_meta (World (FS.write f "" (files w2)) (stdout w2))) as [w2o r2].
  cbn [fst snd files] in Ha, Hr, K1, K2. subst r2.
  destruct r1 as [org|e]; cbn [fst snd files].
  - split; [apply agree_write; [exact Hf | exact Ha | apply same_page_of]|].
    split; [reflexivity|]. split.
    + eapply keeps_trans; [apply keeps_write, Hf|].
      eapply keeps_trans; [exact K1 | apply keeps_write, Hf].
    + eapply keeps_trans; [apply keeps_write, Hf|].
      eapply keeps_trans; [exact K2 | apply keeps_write, Hf].
  - split; [exact Ha|]. split; [reflexivity|]. split.
    + eapply keeps_trans; [apply keeps_write, Hf | exact K1].
    + eapply keeps_trans; [apply keeps_write, Hf | exact K2].
Qed.

(** *** The renderers *)

Ltac sim_step :=
  match goal with
  | |- sim (ret _) (ret _) => apply sim_ret
  | |- sim (print _) (print _) => apply sim_print
  | |- sim (lift _) (lift _) => apply sim_lift
  | |- sim (write_page _ _) (write_page _ _) => apply sim_write_page; reflexivity
  | |- sim (bind _ _) (bind _ _) => apply sim_bind; [|intros ? ?]
  | |- sim (if ?b then _ else _) (if ?b then _ else _) => destruct b
  end.

Ltac chosen_dir d Hd field :=
  match goal with
  | |- context [chosen (field g)] =>
      let Hc := fresh "Hc" in
      destruct (chosen (field g)) as [d|] eqn:Hc;
      [assert (Hd : safe d = true)
         by (apply (chosen_safe (field g)); [apply dirs_ok_fields | exact Hc])|]
  end.

Lemma sim_services_step (d : FS.path) (items : list string) (fn : string) :
  safe d = true -> sim (services_step d items fn) (services_step d items fn).
Proof.
  intros Hd. unfold services_step. repeat sim_step. apply sim_load_data, safe_app, Hd.
Qed.

Lemma sim_reviews_step (d : FS.path) (items : list string) (fn : string) :
  safe d = true -> sim (reviews_step d items fn) (reviews_step d items fn).
Proof.
  intros Hd. unfold reviews_step. repeat sim_step. apply sim_load_data, safe_app, Hd.
Qed.

Lemma sim_faq_step (d : FS.path) (items : list string) (fn : string) :
  safe d = true -> sim (faq_step d items fn) (faq_step d items fn).
Proof.
  intros Hd. unfold faq_step. repeat sim_step. apply sim_load_data, safe_app, Hd.
Qed.

Lemma sim_contact_record_step (acc : contact_acc) (loc : pyval) :
  sim (contact_record_step acc loc) (contact_record_step acc loc).
Proof.
  unfold contact_record_step. destruct loc; try apply sim_ret.
  apply sim_bind; [apply sim_lift|]. intros [[[block name] phone] email] _. apply sim_ret.
Qed.

Lemma sim_contact_file_step (d : FS.path) (acc : contact_acc) (fn : string) :
  safe d = true -> sim (contact_file_step d acc fn) (contact_file_step d acc fn).
Proof.
  intros Hd. unfold contact_file_step. sim_step; [apply sim_ret|].
  apply sim_bind; [apply sim_load_data, safe_app, Hd|].
  intros [|rec data] _; [apply sim_ret|].
  apply sim_for_each. intros a x _. apply sim_contact_record_step.
Qed.

Lemma sim_awards_step (acc : list string * nat) (file : string) :
  sim (awards_step acc file) (awards_step acc file).
Proof.
  unfold awards_step. sim_step; [apply sim_ret|].
  apply sim_bind; [apply sim_load_data; reflexivity|].
  intros [|rec data] _; apply sim_ret.
Qed.

Lemma sim_help_step (articles : list string) (filepath : FS.path) :
  safe filepath = true -> sim (help_step articles filepath) (help_step articles filepath).
Proof.
  intros Hp. unfold help_step.
  apply sim_bind; [apply sim_reads_result, respects_read_text, Hp|].
  intros content _. apply sim_ret.
Qed.

Lemma sim_about_services_step (d : FS.path) (titles : list string) (fn : string) :
  safe d = true -> sim (about_services_step d titles fn) (about_services_step d titles fn).
Proof.
  intros Hd. unfold about_services_step. repeat sim_step.
  apply sim_load_data, safe_app, Hd.
Qed.

Lemma sim_about_locations_step (d : FS.path) (acc : contact_facts) (fn : string) :
  safe d = true -> sim (about_locations_step d acc fn) (about_locations_step d acc fn).
Proof.
  intros Hd. unfold about_locations_step. repeat sim_step.
  apply sim_load_data, safe_app, Hd.
Qed.

Lemma sim_about_ratings_step (d : FS.path) (ratings : list F64.t) (fn : string) :
  safe d = true -> sim (about_ratings_step d ratings fn) (about_ratings_step d ratings fn).
Proof.
  intros Hd. unfold about_ratings_step. repeat sim_step.
  apply sim_load_data, safe_app, Hd.
Qed.

Lemma sim_services_page :
  sim (generate_services_page (clk1 "services.html"))
      (generate_services_page (clk2 "services.html")).
Proof.
  unfold generate_services_page. chosen_dir d Hd SERVICES_DIR.
  - apply sim_bind; [apply sim_listdir, Hd|]. intros names _.
    apply sim_bind;
      [apply sim_for_each; intros; now apply sim_services_step|].
    intros items _. repeat sim_step.
  - repeat sim_step.
Qed.

Lemma sim_testimonials_page :
  sim (generate_testimonials_page (clk1 "testimonials.html"))
      (generate_testimonials_page (clk2 "testimonials.html")).
Proof.
  unfold generate_testimonials_page. chosen_dir d Hd REVIEWS_DIR.
  - apply sim_bind; [apply sim_listdir, Hd|]. intros names _.
    apply sim_bind;
      [apply sim_for_each; intros; now apply sim_reviews_step|].
    intros items _. repeat sim_step.
  - repeat sim_step.
Qed.

Lemma sim_faq_page :
  sim (generate_faq_page (clk1 "faqs.html")) (generate_faq_page (clk2 "faqs.html")).
Proof.
  unfold generate_faq_page. chosen_dir d Hd FAQ_DIR.
  - apply sim_bind; [apply sim_listdir, Hd|]. intros names _.
    apply sim_bind;
      [apply sim_for_each; intros; now apply sim_faq_step|].
    intros items _. repeat sim_step.
  - repeat sim_step.
Qed.

Lemma sim_contact_page :
  sim (generate_contact_page (clk1 "contact.html"))
      (generate_contact_page (clk2 "contact.html")).
Proof.
  unfold generate_contact_page. chosen_dir d Hd LOCATIONS_DIR.
  - apply sim_bind; [apply sim_listdir, Hd|]. intros names _.
    apply sim_bind;
      [apply sim_for_each; intros; now apply sim_contact_file_step|].
    intros acc _. repeat sim_step.
  - repeat sim_step.
Qed.

Lemma sim_awards_page :
  sim (generate_awards_page (clk1 "awards.html")) (generate_awards_page (clk2 "awards.html")).
Proof.
  unfold generate_awards_page. sim_step; [sim_step|].
  apply sim_bind; [apply sim_reads, respects_exists; reflexivity|].
  intros present _. destruct present; simpl negb; cbv iota.
  - apply sim_bind; [apply sim_listdir; reflexivity|]. intros names _.
    apply sim_bind; [apply sim_for_each; intros; apply sim_awards_step|].
    intros [items files_processed] _. repeat sim_step.
  - repeat sim_step.
Qed.

Lemma sim_about_page :
  sim (generate_about_page (clk1 "about.html")) (generate_about_page (clk2 "about.html")).
Proof.
  unfold generate_about_page.
  apply sim_bind.
  { unfold about_org_record. chosen_dir d Hd ORG_DIR; [|apply sim_ret].
    apply sim_bind; [apply sim_listdir, Hd|]. intros names _.
    destruct (List.find is_schema_file (Str.sorted names)) as [fn|]; [|apply sim_ret].
    apply sim_bind; [apply sim_load_data, safe_app, Hd | intros; apply sim_ret]. }
  intros org_obj _. apply sim_bind; [apply sim_load_org_meta|]. intros org_meta _.
  apply sim_bind.
  { unfold about_service_titles. chosen_dir d Hd SERVICES_DIR; [|apply sim_ret].
    apply sim_bind; [apply sim_listdir, Hd|]. intros names _.
    apply sim_for_each. intros. now apply sim_about_services_step. }
  intros service_titles _. apply sim_bind.
  { unfold about_contact_facts. chosen_dir d Hd LOCATIONS_DIR; [|apply sim_ret].
    apply sim_bind; [apply sim_listdir, Hd|]. intros names _.
    apply sim_for_each. intros. now apply sim_about_locations_step. }
  intros contact _. apply sim_bind.
  { unfold about_ratings. chosen_dir d Hd REVIEWS_DIR; [|apply sim_ret].
    apply sim_bind; [apply sim_listdir, Hd|]. intros names _.
    apply sim_for_each. intros. now apply sim_about_ratings_step. }
  intros ratings _. repeat sim_step.
Qed.

Lemma filter_isdir_respects (l : list FS.path) :
  forallb safe l = true -> respects (fun t => filter (FS.isdir t) l).
Proof.
  intros Hl t1 t2 H. induction l as [|p l IH]; [reflexivity|].
  simpl in Hl. apply andb_prop in Hl. destruct Hl as [Hp Hl]. simpl.
  rewrite (respects_isdir p Hp t1 t2 H), (IH Hl). reflexivity.
Qed.

Lemma respects_index_file_links (base_url : string) (roots : list FS.path) :
  (forall r, In r roots -> safe r = true) ->
  respects (index_file_links base_url roots).
Proof.
  intros Hr t1 t2 H. unfold index_file_links.
  induction roots as [|r roots IH]; [reflexivity|]. simpl.
  rewrite (respects_list_data_files r data_exts (Hr r (or_introl eq_refl)) t1 t2 H).
  rewrite IH; [reflexivity|]. intros r' Hin. apply Hr. now right.
Qed.

Lemma sim_index_page :
  sim (generate_index_page (clk1 "index.html")) (generate_index_page (clk2 "index.html")).
Proof.
  unfold generate_index_page.
  apply sim_bind; [apply sim_load_org_meta|]. intros org _.
  apply sim_bind.
  { apply sim_reads. unfold index_existing_roots. now apply filter_isdir_respects. }
  intros roots [w Hw]. apply sim_bind.
  { apply sim_reads, respects_index_file_links. intros r Hin.
    simpl in Hw. injection Hw as <-. unfold index_existing_roots in Hin.
    apply filter_In in Hin. destruct Hin as [Hin _].
    assert (Hall : forallb safe index_roots = true) by reflexivity.
    rewrite forallb_forall in Hall. now apply Hall. }
  intros file_links _. repeat sim_step.
Qed.

(** Every directory [os.walk] visits lies below the directory it starts
    from. *)
Lemma walk_safe (n : FS.node) :
  forall root r name, safe root = true -> In (r, name) (FS.walk root n) -> safe r = true.
Proof.
  induction n as [s| |es IH] using
    (fix node_rect' (P : FS.node -> Prop)
         (HF : forall s, P (FS.File s)) (HB : P FS.Binary)
         (HD : forall es, Forall (fun e => P (snd e)) es -> P (FS.Dir es))
         (n : FS.node) {struct n} : P n :=
       match n with
       | FS.File s => HF s
       | FS.Binary => HB
       | FS.Dir es =>
           HD es ((fix all (l : list (string * FS.node)) : Forall (fun e => P (snd e)) l :=
                     match l with
                     | [] => Forall_nil _
                     | (name, child) :: l' =>
                         Forall_cons (name, child) (node_rect' P HF HB HD child) (all l')
                     end) es)
       end);
    intros root r name Hroot Hin; simpl in Hin; try contradiction.
  apply in_app_or in Hin. destruct Hin as [Hin|Hin].
  - apply in_map_iff in Hin. destruct Hin as (e & He & _). now injection He as <- _.
  - induction IH as [|[nm child] es' Hchild _ IHes]; [contradiction|].
    apply in_app_or in Hin. destruct Hin as [Hin|Hin]; [|now apply IHes].
    apply (Hchild (root ++ [nm])%list r name); [now apply safe_app | exact Hin].
Qed.

Lemma in_insert_by {A} (key : A -> string) (x y : A) (l : list A) :
  In y (Str.insert_by key x l) -> y = x \/ In y l.
Proof.
  induction l as [|z l IH]; simpl.
  - intros [<-|[]]. now left.
  - destruct (String.leb (key x) (key z)); simpl.
    + intros [<-|[<-|H]]; auto.
    + intros [<-|H]; auto. destruct (IH H); auto.
Qed.

Lemma in_sort_by {A} (key : A -> string) (y : A) (l : list A) :
  In y (Str.sort_by key l) -> In y l.
Proof.
  induction l as [|x l IH]; simpl; [trivial|].
  intros H. apply in_insert_by in H. destruct H as [->|H]; auto.
Qed.

Lemma help_md_files_safe (d : FS.path) (t : FS.tree) (fp : FS.path) :
  safe d = true -> In fp (help_md_files d t) -> safe fp = true.
Proof.
  intros Hd Hin. unfold help_md_files in Hin.
  destruct (FS.isdir t d); [|contradiction].
  apply in_sort_by, in_map_iff in Hin. destruct Hin as ([r name] & <- & Hin).
  apply filter_In in Hin. destruct Hin as [Hin _]. simpl.
  apply safe_app. unfold FS.walk_files, FS.node_walk in Hin.
  destruct (FS.at_path t d) as [n|]; [|contradiction].
  now apply (walk_safe n d r name).
Qed.

Lemma respects_help_md_files (d : FS.path) : safe d = true -> respects (help_md_files d).
Proof.
  intros Hd t1 t2 H. unfold help_md_files.
  rewrite (respects_isdir d Hd t1 t2 H), (respects_walk_files d Hd t1 t2 H). reflexivity.
Qed.

Lemma respects_help_source : respects help_source.
Proof.
  intros t1 t2 H. unfold help_source.
  destruct (chosen (HELP_DIR g)); [reflexivity|].
  destruct (chosen (LLM_DATA_DIR g)) as [l|] eqn:Hc; [|reflexivity].
  assert (Hl : safe l = true)
    by (apply (chosen_safe (LLM_DATA_DIR g)); [apply dirs_ok_fields | exact Hc]).
  rewrite (respects_isdir l Hl t1 t2 H), (respects_list_data_files l [".md"] Hl t1 t2 H).
  reflexivity.
Qed.

Lemma help_source_safe (t : FS.tree) (d : FS.path) :
  help_source t = Some d -> safe d = true.
Proof.
  unfold help_source.
  destruct (chosen (HELP_DIR g)) as [h|] eqn:Hh.
  - intros [= <-]. apply (chosen_safe (HELP_DIR g)); [apply dirs_ok_fields | exact Hh].
  - destruct (chosen (LLM_DATA_DIR g)) as [l|] eqn:Hc; [|discriminate].
    destruct (FS.isdir t l); [|discriminate].
    destruct (filter _ _); [discriminate|].
    intros [= <-]. apply (chosen_safe (LLM_DATA_DIR g)); [apply dirs_ok_fields | exact Hc].
Qed.

Lemma sim_help_page :
  sim (generate_help_articles_page (clk1 "help.html"))
      (generate_help_articles_page (clk2 "help.html")).
Proof.
  unfold generate_help_articles_page.
  apply sim_bind; [apply sim_reads, respects_help_source|].
  intros [d|] [w Hw]; [|repeat sim_step].
  simpl in Hw. injection Hw as Hw. apply help_source_safe in Hw.
  apply sim_bind; [apply sim_reads, respects_help_md_files, Hw|].
  intros md_files [w' Hw']. simpl in Hw'. injection Hw' as <-.
  destruct (help_md_files d (files w')) as [|fp fps] eqn:Hmd; [repeat sim_step|].
  apply sim_bind.
  { apply sim_for_each. intros a x Hin. apply sim_help_step.
    apply (help_md_files_safe d (files w')); [exact Hw | now rewrite Hmd]. }
  intros articles _. repeat sim_step.
Qed.

(** *** The whole run *)

Lemma sim_run_generator (ok : bool) (name : string) (m1 m2 : M bool) :
  sim m1 m2 -> sim (run_generator ok (name, m1)) (run_generator ok (name, m2)).
Proof.
  intros Hm. unfold run_generator. simpl. apply sim_try_except.
  - apply sim_bind; [exact Hm | intros; apply sim_ret].
  - intros e. repeat sim_step.
Qed.

Lemma sim_build_pages :
  sim (build_pages (generators clk1)) (build_pages (generators clk2)).
Proof.
  unfold build_pages, generators. apply sim_bind.
  { cbn [for_each].
    repeat (apply sim_bind;
            [apply sim_run_generator;
             first [ apply sim_index_page | apply sim_about_page | apply sim_services_page
                   | apply sim_awards_page | apply sim_testimonials_page | apply sim_faq_page
                   | apply sim_help_page | apply sim_contact_page ]
            | intros ? _ ]).
    apply sim_ret. }
  intros ok _. destruct ok; cbn [negb]; repeat sim_step.
Qed.

(** Two clean-ups that returned, the second in a tree with the inputs the
    first one left, leave trees that agree. *)
Lemma prepared_twice (w w1 : world) :
  cleanup_blocked (files w) = false -> cleanup_blocked (files w1) = false ->
  keeps (files (fst (prepare w))) (files w1) ->
  agree (files (fst (prepare w))) (files (fst (prepare w1))).
Proof.
  intros Hw Hw1 Hk. split.
  - intros p Hp. rewrite (prepare_inputs w1 p Hw1 Hp).
    destruct p as [|c rest]; [discriminate|].
    destruct (String.eqb ".nojekyll" c) eqn:E.
    + apply String.eqb_eq in E. subst c.
      rewrite (prepare_inputs w _ Hw Hp), !at_path_cons, !find_write_same. reflexivity.
    + rewrite at_path_write_other by exact E. apply Hk, Hp.
  - intros f Hf. left. now rewrite !prepare_no_pages.
Qed.

End TwoRuns.

(* ------------------------------------------------------------------ *)
(** ** Characters and strings: more facts *)

(** Every character of [s] satisfies [p]. *)
Fixpoint all_chars (p : ascii -> bool) (s : string) : bool :=
  match s with
  | EmptyString => true
  | String c s' => p c && all_chars p s'
  end.

(** A fact about one character, settled on each of the 256. *)
Ltac each_char c :=
  destruct c as [[] [] [] [] [] [] [] []]; vm_compute;
  repeat (let H := fresh in intro H); try reflexivity; try discriminate; auto.

Lemma all_chars_app (p : ascii -> bool) (a b : string) :
  all_chars p (a ++ b) = all_chars p a && all_chars p b.
Proof.
  induction a as [|c a IH]; [reflexivity|]. cbn [append all_chars].
  now rewrite IH, andb_assoc.
Qed.

Lemma all_chars_weaken (p r : ascii -> bool) (s : string) :
  (forall c, p c = true -> r c = true) ->
  all_chars p s = true -> all_chars r s = true.
Proof.
  intros Hpr. induction s as [|c s IH]; [reflexivity|]. cbn [all_chars].
  intros H. apply andb_prop in H. destruct H as [Hc Hs].
  now rewrite (Hpr c Hc), (IH Hs).
Qed.

Lemma all_chars_filter (p : ascii -> bool) (s : string) :
  all_chars p (Str.filter_chars p s) = true.
Proof.
  induction s as [|c s IH]; [reflexivity|]. cbn [Str.filter_chars].
  destruct (p c) eqn:Hc; [|exact IH]. cbn [all_chars]. now rewrite Hc, IH.
Qed.

Lemma all_chars_map (p r : ascii -> bool) (f : ascii -> ascii) (s : string) :
  (forall c, p c = true -> r (f c) = true) ->
  all_chars p s = true -> all_chars r (Str.map_chars f s) = true.
Proof.
  intros Hf. induction s as [|c s IH]; [reflexivity|]. cbn [all_chars Str.map_chars].
  intros H. apply andb_prop in H. destruct H as [Hc Hs].
  now rewrite (Hf c Hc), (IH Hs).
Qed.

Lemma all_chars_lstrip (p : ascii -> bool) (s : string) :
  all_chars p s = true -> all_chars p (Str.lstrip s) = true.
Proof.
  induction s as [|c s IH]; [reflexivity|]. cbn [Str.lstrip].
  destruct (Str.is_space c); [|trivial].
  cbn [all_chars]. intros H. apply andb_prop in H. now apply IH.
Qed.

Lemma all_chars_rstrip (p : ascii -> bool) (s : string) :
  all_chars p s = true -> all_chars p (Str.rstrip s) = true.
Proof.
  induction s as [|c s IH]; [reflexivity|]. rewrite rstrip_cons.
  cbn [all_chars]. intros H. apply andb_prop in H. destruct H as [Hc Hs].
  specialize (IH Hs). destruct (Str.rstrip s) as [|c' r].
  - destruct (Str.is_space c); [reflexivity|]. cbn [all_chars]. now rewrite Hc.
  - cbn [all_chars] in *. now rewrite Hc, IH.
Qed.

Lemma all_chars_strip (p : ascii -> bool) (s : string) :
  all_chars p s = true -> all_chars p (Str.strip s) = true.
Proof. intros H. unfold Str.strip. now apply all_chars_rstrip, all_chars_lstrip. Qed.

(** A string without white space is its own strip. *)
Lemma lstrip_no_space (s : string) :
  all_chars (fun c => negb (Str.is_space c)) s = true -> Str.lstrip s = s.
Proof.
  destruct s as [|c s]; [reflexivity|]. cbn [all_chars Str.lstrip].
  intros H. apply andb_prop in H. destruct H as [Hc _].
  now destruct (Str.is_space c).
Qed.

Lemma rstrip_no_space (s : string) :
  all_chars (fun c => negb (Str.is_space c)) s = true -> Str.rstrip s = s.
Proof.
  induction s as [|c s IH]; [reflexivity|]. cbn [all_chars]. rewrite rstrip_cons.
  intros H. apply andb_prop in H. destruct H as [Hc Hs]. rewrite (IH Hs).
  destruct s; [|reflexivity]. now destruct (Str.is_space c).
Qed.

Lemma strip_no_space (s : string) :
  all_chars (fun c => negb (Str.is_space c)) s = true -> Str.strip s = s.
Proof.
  intros H. unfold Str.strip. rewrite (lstrip_no_space s H). now apply rstrip_no_space.
Qed.

Lemma map_chars_fixed (p : ascii -> bool) (f : ascii -> ascii) (s : string) :
  (forall c, p c = true -> f c = c) ->
  all_chars p s = true -> Str.map_chars f s = s.
Proof.
  intros Hf. induction s as [|c s IH]; [reflexivity|]. cbn [all_chars Str.map_chars].
  intros H. apply andb_prop in H. destruct H as [Hc Hs].
  now rewrite (Hf c Hc), (IH Hs).
Qed.

Lemma filter_chars_fixed (p : ascii -> bool) (s : string) :
  all_chars p s = true -> Str.filter_chars p s = s.
Proof.
  induction s as [|c s IH]; [reflexivity|]. cbn [all_chars Str.filter_chars].
  intros H. apply andb_prop in H. destruct H as [Hc Hs].
  now rewrite Hc, (IH Hs).
Qed.

Lemma prefix_nil (s : string) : String.prefix "" s = true.
Proof. destruct s; reflexivity. Qed.

(** [sub in s] for a one-character [sub]. *)
Lemma contains_char_cons (a c : ascii) (s : string) :
  Str.contains (String a "") (String c s)
  = Ascii.eqb a c || Str.contains (String a "") s.
Proof.
  cbn [Str.contains]. rewrite prefix_cons, prefix_nil.
  now rewrite andb_true_r.
Qed.

Lemma contains_char_app (a : ascii) (x y : string) :
  Str.contains (String a "") (x ++ y)
  = Str.contains (String a "") x || Str.contains (String a "") y.
Proof.
  induction x as [|c x IH].
  - cbn [append]. reflexivity.
  - cbn [append]. rewrite !contains_char_cons, IH. now rewrite orb_assoc.
Qed.

(* ------------------------------------------------------------------ *)
(** ** Escaping *)

(** [s.replace(a, rep)] for a one-character [a], character by character. *)
Fixpoint subst_char (a : ascii) (rep s : string) : string :=
  match s with
  | EmptyString => EmptyString
  | String c s' =>
      (if Ascii.eqb a c then rep else String c EmptyString) ++ subst_char a rep s'
  end.

Lemma replace_one_char (a : ascii) (rep s : string) :
  Str.replace (String a "") rep s = subst_char a rep s.
Proof.
  unfold Str.replace. induction s as [|c s IH]; [reflexivity|].
  cbn [Str.replace_from subst_char]. rewrite prefix_cons, prefix_nil.
  rewrite andb_true_r.
  change (String.length (String a "") - 1) with 0. rewrite IH.
  destruct (Ascii.eqb a c); reflexivity.
Qed.

Lemma subst_char_app (a : ascii) (rep x y : string) :
  subst_char a rep (x ++ y) = subst_char a rep x ++ subst_char a rep y.
Proof.
  induction x as [|c x IH]; [reflexivity|]. cbn [append subst_char].
  now rewrite IH, append_assoc.
Qed.

(** What [escape_html] makes of one character. *)
Definition escape_char (c : ascii) : string :=
  if Ascii.eqb c "&" then "&amp;"
  else if Ascii.eqb c "<" then "&lt;"
  else if Ascii.eqb c ">" then "&gt;"
  else String c EmptyString.

Fixpoint escape_each (s : string) : string :=
  match s with
  | EmptyString => EmptyString
  | String c s' => escape_char c ++ escape_each s'
  end.

Lemma escape_char_steps (c : ascii) :
  subst_char ">" "&gt;"
    (subst_char "<" "&lt;" (if Ascii.eqb "&" c then "&amp;" else String c EmptyString))
  = escape_char c.
Proof. each_char c. Qed.

Lemma escape_char_no_angle (c : ascii) :
  Str.contains "<" (escape_char c) = false /\ Str.contains ">" (escape_char c) = false.
Proof. each_char c. Qed.

Lemma esc_escape_each (s : string) : esc s = escape_each s.
Proof.
  unfold esc, escape_html. rewrite !replace_one_char.
  induction s as [|c s IH]; [reflexivity|].
  cbn [subst_char escape_each]. rewrite !subst_char_app, IH, escape_char_steps.
  reflexivity.
Qed.

(** X4.  [escape_html] on a string works character by character: an
    ampersand, a less-than sign and a greater-than sign each become their
    entity, once, and every other character (a quote among them) stays.
    The result holds no angle bracket. *)
Theorem escape_html_escapes_each_character (s : string) :
  escape_html (PStr s) = escape_each s
  /\ Str.contains "<" (escape_html (PStr s)) = false
  /\ Str.contains ">" (escape_html (PStr s)) = false.
Proof.
  fold (esc s). rewrite esc_escape_each. split; [reflexivity|].
  induction s as [|c s [IH1 IH2]]; [split; reflexivity|].
  cbn [escape_each]. rewrite !contains_char_app, IH1, IH2.
  destruct (escape_char_no_angle c) as [-> ->]. split; reflexivity.
Qed.

(* ------------------------------------------------------------------ *)
(** ** Slugs *)

(** The characters of a slug: lower-case letters, digits and the hyphen. *)
Definition slug_char (c : ascii) : bool :=
  Str.is_lower c || Str.is_digit c || Ascii.eqb c "-".

Lemma dash_spaces_slug (in_run : bool) (s : string) :
  all_chars (fun c => slug_char c || Str.is_space c) s = true ->
  all_chars slug_char (dash_spaces in_run s) = true.
Proof.
  revert in_run. induction s as [|c s IH]; intros in_run; [reflexivity|].
  cbn [all_chars dash_spaces]. intros H. apply andb_prop in H. destruct H as [Hc Hs].
  destruct (Str.is_space c) eqn:Esp.
  - destruct in_run; [now apply IH|]. cbn [all_chars]. now rewrite IH.
  - cbn [all_chars]. rewrite orb_false_r in Hc. now rewrite Hc, IH.
Qed.

Lemma dash_spaces_no_space (in_run : bool) (s : string) :
  all_chars (fun c => negb (Str.is_space c)) s = true -> dash_spaces in_run s = s.
Proof.
  revert in_run. induction s as [|c s IH]; intros in_run; [reflexivity|].
  cbn [all_chars dash_spaces]. intros H. apply andb_prop in H. destruct H as [Hc Hs].
  destruct (Str.is_space c); [discriminate|]. now rewrite IH.
Qed.

Lemma kept_char_lowered (c : ascii) :
  Str.is_alnum c || Str.is_space c || Ascii.eqb c "-" = true ->
  slug_char (Str.lower_char c) || Str.is_space (Str.lower_char c) = true.
Proof. each_char c. Qed.

Lemma slug_char_kept (c : ascii) :
  slug_char c = true -> Str.is_alnum c || Str.is_space c || Ascii.eqb c "-" = true.
Proof. each_char c. Qed.

Lemma slug_char_no_space (c : ascii) : slug_char c = true -> negb (Str.is_space c) = true.
Proof. each_char c. Qed.

Lemma slug_char_lower (c : ascii) : slug_char c = true -> Str.lower_char c = c.
Proof. each_char c. Qed.

Lemma slugify_slug (s : string) :
  Str.is_empty s = false -> all_chars slug_char s = true -> slugify s = s.
Proof.
  intros Hne Hs. unfold slugify. rewrite Hne.
  rewrite filter_chars_fixed by (apply (all_chars_weaken slug_char); [apply slug_char_kept | exact Hs]).
  assert (Hn : all_chars (fun c => negb (Str.is_space c)) s = true)
    by (apply (all_chars_weaken slug_char); [apply slug_char_no_space | exact Hs]).
  rewrite (strip_no_space s Hn).
  unfold Str.lower. rewrite (map_chars_fixed slug_char Str.lower_char s slug_char_lower Hs).
  rewrite (dash_spaces_no_space false s Hn). now rewrite Hne.
Qed.

(** X5.  A slug is never empty, is made of lower-case letters, digits and
    hyphens only, and is its own slug. *)
Theorem slugify_gives_a_clean_slug (text : string) :
  Str.is_empty (slugify text) = false
  /\ all_chars slug_char (slugify text) = true
  /\ slugify (slugify text) = slugify text.
Proof.
  assert (H : Str.is_empty (slugify text) = false /\ all_chars slug_char (slugify text) = true).
  { unfold slugify. destruct (Str.is_empty text); [split; reflexivity|].
    match goal with |- context [dash_spaces false ?x] => set (slug := dash_spaces false x) end.
    destruct (Str.is_empty slug) eqn:Hslug; [split; reflexivity|].
    split; [exact Hslug|]. subst slug. apply dash_spaces_slug.
    unfold Str.lower.
    apply (all_chars_map (fun c => Str.is_alnum c || Str.is_space c || Ascii.eqb c "-"));
      [apply kept_char_lowered|].
    apply all_chars_strip, all_chars_filter. }
  destruct H as [Hne Hs]. split; [exact Hne|]. split; [exact Hs|].
  now apply slugify_slug.
Qed.

(* ------------------------------------------------------------------ *)
(** ** Stripping, splitting and joining *)

Lemma strip_idempotent (s : string) : Str.strip (Str.strip s) = Str.strip s.
Proof.
  unfold Str.strip.
  assert (Hl : Str.lstrip (Str.rstrip (Str.lstrip s)) = Str.rstrip (Str.lstrip s)).
  { pose proof (lstrip_head s) as H. destruct (Str.lstrip s) as [|c l]; [reflexivity|].
    destruct (rstrip_head c l H) as [r ->]. cbn [Str.lstrip]. now rewrite H. }
  rewrite Hl. apply rstrip_idempotent.
Qed.

Lemma rstrip_empty (s : string) : Str.is_empty (Str.rstrip s) = all_chars Str.is_space s.
Proof.
  induction s as [|c s IH]; [reflexivity|]. rewrite rstrip_cons. cbn [all_chars].
  rewrite <- IH. destruct (Str.rstrip s); cbn [Str.is_empty].
  - destruct (Str.is_space c); reflexivity.
  - now rewrite andb_false_r.
Qed.

Lemma lstrip_all_space (s : string) :
  all_chars Str.is_space (Str.lstrip s) = all_chars Str.is_space s.
Proof.
  induction s as [|c s IH]; [reflexivity|]. cbn [Str.lstrip].
  destruct (Str.is_space c) eqn:Hc; [|reflexivity].
  cbn [all_chars]. now rewrite Hc, IH.
Qed.

(** A string is blank when all its characters are white space. *)
Lemma blank_all_space (s : string) :
  Str.is_empty (Str.strip s) = all_chars Str.is_space s.
Proof. unfold Str.strip. now rewrite rstrip_empty, lstrip_all_space. Qed.

Lemma nonblank_app_l (a b : string) : nonblank a = true -> nonblank (a ++ b) = true.
Proof.
  unfold nonblank. rewrite !blank_all_space, all_chars_app.
  destruct (all_chars Str.is_space a); [discriminate | reflexivity].
Qed.

Lemma split_not_nil (sep : ascii) (s : string) : Str.split sep s <> [].
Proof.
  destruct s as [|c s]; cbn [Str.split]; [discriminate|].
  destruct (Ascii.eqb c sep); [discriminate|]. destruct (Str.split sep s); discriminate.
Qed.

Lemma split_app_sep (sep : ascii) (x y : string) :
  Str.split sep (x ++ String sep y) = (Str.split sep x ++ Str.split sep y)%list.
Proof.
  induction x as [|c x IH]; cbn [append Str.split].
  - now rewrite Ascii.eqb_refl.
  - destruct (Ascii.eqb c sep); [now rewrite IH|]. rewrite IH.
    pose proof (split_not_nil sep x) as Hx.
    destruct (Str.split sep x) as [|w ws]; [now elim Hx | reflexivity].
Qed.

Lemma split_no_sep (sep : ascii) (x : string) :
  Str.contains (String sep "") x = false -> Str.split sep x = [x].
Proof.
  induction x as [|c x IH]; [reflexivity|].
  rewrite contains_char_cons. intros H. apply orb_false_elim in H. destruct H as [Hc Hx].
  cbn [Str.split]. rewrite Ascii.eqb_sym, Hc, (IH Hx). reflexivity.
Qed.

Lemma join_cons (sep x y : string) (l : list string) :
  Str.join sep (x :: y :: l) = x ++ sep ++ Str.join sep (y :: l).
Proof. reflexivity. Qed.

Lemma join_split (sep : ascii) (s : string) :
  Str.join (String sep "") (Str.split sep s) = s.
Proof.
  induction s as [|c s IH]; [reflexivity|]. cbn [Str.split].
  pose proof (split_not_nil sep s) as Hs.
  destruct (Ascii.eqb c sep) eqn:Hc.
  - apply Ascii.eqb_eq in Hc. subst c.
    destruct (Str.split sep s) as [|w ws]; [now elim Hs|].
    rewrite join_cons, IH. reflexivity.
  - destruct (Str.split sep s) as [|w ws]; [now elim Hs|].
    destruct ws as [|w' ws].
    + cbn [Str.join String.concat] in *. now rewrite IH.
    + rewrite join_cons. rewrite join_cons in IH. rewrite <- IH. reflexivity.
Qed.

Lemma split_join (sep : ascii) (items : list string) :
  items <> [] ->
  Forall (fun x => Str.contains (String sep "") x = false) items ->
  Str.split sep (Str.join (String sep "") items) = items.
Proof.
  induction items as [|x items IH]; [now intros H|]. intros _ Hall.
  inversion Hall as [|x' l' Hx Hitems]; subst.
  destruct items as [|y items].
  - cbn [Str.join String.concat]. now apply split_no_sep.
  - rewrite join_cons. cbn [append]. rewrite split_app_sep, (split_no_sep sep x Hx).
    rewrite IH; [reflexivity | discriminate | exact Hitems].
Qed.

Lemma filter_chars_empty (p : ascii -> bool) (s : string) :
  Str.is_empty (Str.filter_chars (fun c => negb (p c)) s) = all_chars p s.
Proof.
  induction s as [|c s IH]; [reflexivity|]. cbn [Str.filter_chars all_chars].
  destruct (p c); cbn [negb andb]; [exact IH | reflexivity].
Qed.

(* ------------------------------------------------------------------ *)
(** ** Lists of strings read from a record *)

(** X6.  Every item [_as_list] returns is non-empty and carries no white
    space at either end. *)
Theorem as_list_items_are_clean (val : pyval) (x : string) :
  In x (_as_list val) -> Str.is_empty x = false /\ Str.strip x = x.
Proof.
  assert (Hclean : forall l, In x (map Str.strip (filter nonblank l)) ->
                             Str.is_empty x = false /\ Str.strip x = x).
  { intros l Hin. apply in_map_iff in Hin. destruct Hin as (y & <- & Hy).
    apply filter_In in Hy. destruct Hy as [_ Hy]. unfold nonblank in Hy.
    split; [now destruct (Str.is_empty (Str.strip y)) | apply strip_idempotent]. }
  destruct val; cbn [_as_list]; try contradiction.
  - destruct (nonblank s); [apply Hclean | contradiction].
  - apply Hclean.
Qed.

(** X7.  A string of items separated by commas is split back into its
    items, each stripped: for items that hold no comma and are not blank,
    [_as_list] of their join is the list of the stripped items. *)
Theorem as_list_splits_at_commas (padded : list string) :
  Forall (fun p => Str.contains "," p = false /\ nonblank p = true) padded ->
  _as_list (PStr (Str.join "," padded)) = map Str.strip padded.
Proof.
  intros Hall. destruct padded as [|p ps]; [reflexivity|].
  assert (Hcomma : Forall (fun x => Str.contains "," x = false) (p :: ps))
    by (eapply Forall_impl; [|exact Hall]; now intros a [Ha _]).
  assert (Hink : forallb nonblank (p :: ps) = true)
    by (apply forallb_forall; intros a Ha; rewrite Forall_forall in Hall;
        now destruct (Hall a Ha)).
  assert (Hjoin : nonblank (Str.join "," (p :: ps)) = true).
  { cbn [forallb] in Hink. apply andb_prop in Hink. destruct Hink as [Hp _].
    destruct ps as [|p' ps]; [exact Hp|]. rewrite join_cons. now apply nonblank_app_l. }
  cbn [_as_list]. rewrite Hjoin.
  rewrite (split_join ","%char (p :: ps)) by (discriminate || exact Hcomma).
  now rewrite (forallb_filter_id nonblank _ Hink).
Qed.

(* ------------------------------------------------------------------ *)
(** ** Titles *)

Lemma splitext_root_stem (stem ext : string) :
  all_chars (fun c => Ascii.eqb c ".") stem = false ->
  Str.contains "." ext = false ->
  splitext_root (stem ++ "." ++ ext) = stem.
Proof.
  intros Hstem Hext. unfold splitext_root.
  change (stem ++ "." ++ ext) with (stem ++ String "." ext).
  rewrite split_app_sep, (split_no_sep "."%char ext Hext).
  pose proof (split_not_nil "."%char stem) as Hs.
  pose proof (join_split "."%char stem) as Hj.
  destruct (Str.split "." stem) as [|w ws]; [now elim Hs|].
  assert (Hroot : removelast ((w :: ws) ++ [ext])%list = w :: ws) by apply removelast_last.
  destruct ws as [|w' ws]; cbn [app] in *; rewrite Hroot, Hj;
    rewrite (filter_chars_empty (fun c => Ascii.eqb c ".") stem), Hstem; reflexivity.
Qed.

(** X8.  The title derived from a file name depends on the stem of the
    name only: the directories before it and the extension after its last
    dot play no part. *)
Theorem title_from_filename_reads_the_stem (d : FS.path) (stem ext : string) :
  all_chars (fun c => Ascii.eqb c ".") stem = false ->
  Str.contains "." ext = false ->
  _title_from_filename (app d [stem ++ "." ++ ext])
  = Str.title (Str.strip (Str.replace "_" " " (Str.replace "-" " " stem))).
Proof.
  intros Hstem Hext. unfold _title_from_filename, basename.
  now rewrite last_last, splitext_root_stem.
Qed.

Lemma lower_char_space (c : ascii) : Str.is_space (Str.lower_char c) = Str.is_space c.
Proof. each_char c. Qed.

Lemma lower_char_idempotent (c : ascii) :
  Str.lower_char (Str.lower_char c) = Str.lower_char c.
Proof. each_char c. Qed.

Lemma lower_idempotent (s : string) : Str.lower (Str.lower s) = Str.lower s.
Proof.
  unfold Str.lower. induction s as [|c s IH]; [reflexivity|]. cbn [Str.map_chars].
  now rewrite lower_char_idempotent, IH.
Qed.

Lemma lower_app (a b : string) : Str.lower (a ++ b) = Str.lower a ++ Str.lower b.
Proof.
  unfold Str.lower. induction a as [|c a IH]; [reflexivity|]. cbn [append Str.map_chars].
  now rewrite IH.
Qed.

Lemma lstrip_lower (s : string) : Str.lstrip (Str.lower s) = Str.lower (Str.lstrip s).
Proof.
  unfold Str.lower. induction s as [|c s IH]; [reflexivity|].
  cbn [Str.map_chars Str.lstrip]. rewrite lower_char_space.
  destruct (Str.is_space c); [exact IH | reflexivity].
Qed.

Lemma rstrip_lower (s : string) : Str.rstrip (Str.lower s) = Str.lower (Str.rstrip s).
Proof.
  unfold Str.lower. induction s as [|c s IH]; [reflexivity|].
  cbn [Str.map_chars]. rewrite !rstrip_cons, IH, lower_char_space.
  destruct (Str.rstrip s); cbn [Str.map_chars]; [|reflexivity].
  destruct (Str.is_space c); reflexivity.
Qed.

Lemma strip_lower (s : string) : Str.strip (Str.lower s) = Str.lower (Str.strip s).
Proof. unfold Str.strip. now rewrite lstrip_lower, rstrip_lower. Qed.

Lemma is_empty_lower (s : string) : Str.is_empty (Str.lower s) = Str.is_empty s.
Proof. destruct s; reflexivity. Qed.

Lemma lstrip_spaces_then (ws ds : string) :
  all_chars Str.is_space ws = true ->
  all_chars (fun c => negb (Str.is_space c)) ds = true ->
  Str.lstrip (ws ++ ds) = ds.
Proof.
  intros Hws Hds. induction ws as [|c ws IH]; [now apply lstrip_no_space|].
  cbn [all_chars] in Hws. apply andb_prop in Hws. destruct Hws as [Hc Hws].
  cbn [append Str.lstrip]. rewrite Hc. now apply IH.
Qed.

Lemma digit_no_space (c : ascii) : Str.is_digit c = true -> negb (Str.is_space c) = true.
Proof. each_char c. Qed.

Lemma digit_lower (c : ascii) : Str.is_digit c = true -> Str.lower_char c = c.
Proof. each_char c. Qed.

Lemma space_lower (c : ascii) : Str.is_space c = true -> Str.lower_char c = c.
Proof. each_char c. Qed.

Lemma prefix_app (w r : string) : String.prefix w (w ++ r) = true.
Proof.
  induction w as [|c w IH]; [apply prefix_nil|]. cbn [append].
  now rewrite prefix_cons, Ascii.eqb_refl, IH.
Qed.

Lemma drop_app (w r : string) : Str.drop (String.length w) (w ++ r) = r.
Proof. induction w as [|c w IH]; [reflexivity | exact IH]. Qed.

Lemma numbered_after_word (word ws ds : string) :
  all_chars Str.is_space ws = true ->
  Str.is_empty ds = false -> all_chars Str.is_digit ds = true ->
  numbered_after word (word ++ ws ++ ds) = true.
Proof.
  intros Hws Hne Hds. unfold numbered_after, Str.startswith, all_digits.
  rewrite prefix_app, drop_app.
  rewrite lstrip_spaces_then;
    [| exact Hws | apply (all_chars_weaken Str.is_digit); [apply digit_no_space | exact Hds]].
  now rewrite Hne, (filter_chars_empty Str.is_digit ds), Hds.
Qed.

(** X9.  Whether a title is a placeholder does not depend on its letter
    case or on white space around it; and one of the words service, item
    and entry followed by optional white space and a number is a
    placeholder. *)
Theorem placeholder_titles_by_shape :
  (forall s, _is_placeholder_title (PStr s)
             = _is_placeholder_title (PStr (Str.lower (Str.strip s))))
  /\ (forall word ws ds,
        In word ["service"; "item"; "entry"] ->
        all_chars Str.is_space ws = true ->
        Str.is_empty ds = false -> all_chars Str.is_digit ds = true ->
        _is_placeholder_title (PStr (word ++ ws ++ ds)) = true).
Proof.
  split.
  - intros s. cbn [_is_placeholder_title].
    rewrite strip_lower, strip_idempotent, is_empty_lower, lower_idempotent. reflexivity.
  - intros word ws ds Hword Hws Hne Hds.
    assert (Hns : all_chars (fun c => negb (Str.is_space c)) ds = true)
      by (apply (all_chars_weaken Str.is_digit); [apply digit_no_space | exact Hds]).
    assert (Hstrip : forall w c, word = String c w -> Str.is_space c = false ->
                                 Str.strip (word ++ ws ++ ds) = word ++ ws ++ ds).
    { intros w c -> Hc. unfold Str.strip. cbn [append Str.lstrip]. rewrite Hc.
      change (String c (w ++ ws ++ ds)) with (String c w ++ ws ++ ds).
      rewrite <- append_assoc. apply rstrip_app_kept.
      - destruct ds; [discriminate Hne | discriminate].
      - now apply rstrip_no_space. }
    assert (Hlower : Str.lower word = word ->
                     Str.lower (word ++ ws ++ ds) = word ++ ws ++ ds).
    { intros Hw. rewrite !lower_app, Hw. unfold Str.lower.
      rewrite (map_chars_fixed Str.is_space Str.lower_char ws space_lower Hws).
      now rewrite (map_chars_fixed Str.is_digit Str.lower_char ds digit_lower Hds). }
    cbn [_is_placeholder_title].
    destruct Hword as [<-|[<-|[<-|[]]]];
      (erewrite Hstrip by (reflexivity || reflexivity));
      rewrite Hlower by reflexivity;
      (rewrite (numbered_after_word _ ws ds) by assumption);
      rewrite ?orb_true_r;
      (destruct ds; [discriminate Hne | reflexivity]).
Qed.

(* ------------------------------------------------------------------ *)
(** ** Bullet points *)

Lemma dedupe_distinct (bullets seen : list string) :
  NoDup (map Str.lower (dedupe seen bullets))
  /\ forall x, In x (dedupe seen bullets) ->
               existsb (String.eqb (Str.lower x)) seen = false.
Proof.
  revert seen. induction bullets as [|b rest IH]; intros seen; cbn [dedupe].
  - split; [constructor | contradiction].
  - destruct (existsb (String.eqb (Str.lower b)) seen) eqn:Hseen; [apply IH|].
    destruct (IH (Str.lower b :: seen)) as [Hnd Hin]. split.
    + cbn [map]. constructor; [|exact Hnd].
      intros Hb. apply in_map_iff in Hb. destruct Hb as (x & Hx & Hxin).
      specialize (Hin x Hxin). cbn [existsb] in Hin. apply orb_false_elim in Hin.
      destruct Hin as [Hin _]. rewrite Hx, String.eqb_refl in Hin. discriminate.
    + intros x [<-|Hx]; [exact Hseen|].
      specialize (Hin x Hx). cbn [existsb] in Hin. apply orb_false_elim in Hin.
      now destruct Hin.
Qed.

Lemma NoDup_firstn {A} (n : nat) (l : list A) : NoDup l -> NoDup (firstn n l).
Proof.
  intros H. rewrite <- (firstn_skipn n l) in H. now apply NoDup_app_remove_r in H.
Qed.

(** X10.  A service card shows at most four bullet points, and no two of
    them are the same text up to letter case. *)
Theorem bullet_points_are_few_and_distinct (obj : dict) :
  length (_bullet_points obj) <= 4
  /\ NoDup (map Str.lower (_bullet_points obj)).
Proof.
  unfold _bullet_points. cbv zeta. split; [apply firstn_le_length|].
  rewrite <- firstn_map. apply NoDup_firstn, dedupe_distinct.
Qed.

(* ------------------------------------------------------------------ *)
(** ** Data files below a folder *)

Lemma node_induction (P : FS.node -> Prop) :
  (forall s, P (FS.File s)) -> P FS.Binary ->
  (forall es, Forall (fun e => P (snd e)) es -> P (FS.Dir es)) ->
  forall n, P n.
Proof.
  intros HF HB HD. fix self 1. intros [s| |es]; [apply HF | apply HB |].
  apply HD. induction es as [|[name child] es IH]; constructor; [apply self | exact IH].
Qed.

Lemma walk_under (n : FS.node) :
  forall root r name, In (r, name) (FS.walk root n) -> exists sub, r = (root ++ sub)%list.
Proof.
  induction n as [s| |es IH] using node_induction;
    intros root r name Hin; cbn [FS.walk] in Hin; try contradiction.
  apply in_app_or in Hin. destruct Hin as [Hin|Hin].
  - apply in_map_iff in Hin. destruct Hin as (e & He & _). injection He as <- _.
    exists []. now rewrite app_nil_r.
  - induction IH as [|[nm child] es' Hchild _ IHes]; [contradiction|].
    apply in_app_or in Hin. destruct Hin as [Hin|Hin]; [|now apply IHes].
    destruct (Hchild (root ++ [nm])%list r name Hin) as [sub ->].
    exists (nm :: sub). now rewrite <- app_assoc.
Qed.

Lemma find_in (name : string) (es : FS.tree) (m : FS.node) :
  FS.find name es = Some m -> In (name, m) es.
Proof.
  induction es as [|[n x] es IH]; cbn [FS.find]; [discriminate|].
  destruct (String.eqb n name) eqn:E.
  - apply String.eqb_eq in E. subst n. intros [= ->]. now left.
  - intros H. right. now apply IH.
Qed.

Lemma walk_subdir (root : FS.path) (es : FS.tree) (c : string) (child : FS.node)
    (x : FS.path * string) :
  In (c, child) es -> In x (FS.walk (root ++ [c])%list child) ->
  In x (FS.walk root (FS.Dir es)).
Proof.
  intros Hin Hx. cbn [FS.walk]. apply in_or_app. right.
  induction es as [|[nm ch] es IH]; [contradiction|].
  apply in_or_app. destruct Hin as [[= -> ->]|Hin]; [now left | right; now apply IH].
Qed.

Lemma walk_reaches (sub : FS.path) :
  forall (n m : FS.node) (root : FS.path) (name : string),
    FS.lookup n (sub ++ [name])%list = Some m -> FS.is_dir_node m = false ->
    In ((root ++ sub)%list, name) (FS.walk root n).
Proof.
  induction sub as [|c sub IH]; intros n m root name Hlook Hm.
  - cbn [app FS.lookup] in Hlook. destruct n as [s| |es]; try discriminate.
    destruct (FS.find name es) as [m'|] eqn:Hf; [|discriminate].
    injection Hlook as ->. rewrite app_nil_r. cbn [FS.walk]. apply in_or_app. left.
    apply in_map_iff. exists (name, m). split; [reflexivity|].
    apply filter_In. split; [now apply find_in|]. cbn [snd]. now rewrite Hm.
  - cbn [app FS.lookup] in Hlook. destruct n as [s| |es]; try discriminate.
    destruct (FS.find c es) as [child|] eqn:Hf; [|discriminate].
    apply (walk_subdir root es c child); [now apply find_in|].
    replace (root ++ c :: sub)%list with ((root ++ [c]) ++ sub)%list
      by now rewrite <- app_assoc.
    now apply (IH child m).
Qed.

Lemma lookup_app (p r : FS.path) :
  forall n, FS.lookup n (p ++ r)%list
            = match FS.lookup n p with
              | Some m => FS.lookup m r
              | None => None
              end.
Proof.
  induction p as [|c p IH]; intros n; [reflexivity|]. cbn [app FS.lookup].
  destruct n as [s| |es]; try reflexivity.
  destruct (FS.find c es); [apply IH | reflexivity].
Qed.

(** X11.  [_list_data_files] returns paths below the folder whose names
    carry one of the extensions, in any letter case; and it returns every
    file below the folder, at any depth, whose name carries one. *)
Theorem list_data_files_lists_the_files_below
    (t : FS.tree) (folder : FS.path) (exts : list string) :
  (forall p, In p (_list_data_files t folder exts) ->
     FS.isdir t folder = true
     /\ exists sub name, p = (folder ++ sub ++ [name])%list
                         /\ Str.endswith_any (Str.lower name) exts = true)
  /\ (forall sub name n,
        Str.is_empty (FS.path_str folder) = false ->
        FS.at_path t (folder ++ sub ++ [name])%list = Some n ->
        FS.is_dir_node n = false ->
        Str.endswith_any (Str.lower name) exts = true ->
        In (folder ++ sub ++ [name])%list (_list_data_files t folder exts)).
Proof.
  unfold _list_data_files. split.
  - intros p Hin.
    destruct (Str.is_empty (FS.path_str folder) || negb (FS.isdir t folder)) eqn:E;
      [contradiction|].
    apply orb_false_elim in E. destruct E as [_ E]. apply negb_false_iff in E.
    split; [exact E|].
    apply in_map_iff in Hin. destruct Hin as ([r name] & <- & Hin).
    apply filter_In in Hin. destruct Hin as [Hin Hext]. cbn [fst snd] in *.
    unfold FS.walk_files, FS.node_walk in Hin.
    destruct (FS.at_path t folder) as [n|]; [|contradiction].
    destruct (walk_under n folder r name Hin) as [sub ->].
    exists sub, name. split; [now rewrite <- app_assoc | exact Hext].
  - intros sub name n Hne Hat Hn Hext. rewrite Hne. cbn [orb].
    unfold FS.at_path in Hat. rewrite lookup_app in Hat.
    unfold FS.isdir, FS.walk_files, FS.at_path.
    destruct (FS.lookup (FS.Dir t) folder) as [m|] eqn:Hm; [|discriminate].
    assert (Hdir : FS.node_isdir (Some m) = true).
    { destruct m as [s| |es]; [| |reflexivity];
        destruct sub; cbn [app FS.lookup] in Hat; discriminate. }
    rewrite Hdir. cbn [negb].
    apply in_map_iff. exists ((folder ++ sub)%list, name). cbn [fst snd].
    split; [now rewrite <- app_assoc|].
    apply filter_In. cbn [snd]. split; [|exact Hext].
    cbn [FS.node_walk]. now apply (walk_reaches sub m n).
Qed.

(* ------------------------------------------------------------------ *)
(** ** The organization record *)

Lemma find_first_schema_file (before after : list string) (fn : string) :
  forallb (fun n => negb (is_schema_file n)) before = true ->
  is_schema_file fn = true ->
  List.find is_schema_file (before ++ fn :: after)%list = Some fn.
Proof.
  intros Hb Hfn. induction before as [|b before IH]; cbn [app List.find].
  - now rewrite Hfn.
  - cbn [forallb] in Hb. apply andb_prop in Hb. destruct Hb as [Hb Hrest].
    apply negb_true_iff in Hb. rewrite Hb. now apply IH.
Qed.

Lemma first_org_record_skips (d : FS.path) (before rest : list string) (w : world) :
  forallb (fun n => negb (is_schema_file n)) before = true ->
  first_org_record d (before ++ rest)%list w = first_org_record d rest w.
Proof.
  intros Hb. induction before as [|b before IH]; [reflexivity|].
  cbn [forallb] in Hb. apply andb_prop in Hb. destruct Hb as [Hb Hrest].
  apply negb_true_iff in Hb. cbn [app first_org_record]. rewrite Hb. now apply IH.
Qed.

(** X12.  The About page and the page shell read the organization record
    from the same file when the first schema file of the organization
    directory, in sorted order, holds a record.  When that file holds no
    record the About page has no organization record, whereas the page
    shell goes on to the files after it. *)
Theorem about_page_reads_the_first_org_file
    (d : FS.path) (names before after : list string) (fn : string) (w : world) :
  chosen (ORG_DIR g) = Some d ->
  FS.listdir (files w) d = Ok names ->
  Str.sorted names = (before ++ fn :: after)%list ->
  forallb (fun n => negb (is_schema_file n)) before = true ->
  is_schema_file fn = true ->
  (forall rec more w',
     load_data (d ++ [fn])%list w = (w', Ok (rec :: more)) ->
     about_org_record w = (w', Ok rec)
     /\ first_org_record d (Str.sorted names) w = (w', Ok rec))
  /\ (forall w',
        load_data (d ++ [fn])%list w = (w', Ok []) ->
        about_org_record w = (w', Ok PNone)
        /\ first_org_record d (Str.sorted names) w = first_org_record d after w').
Proof.
  intros Hd Hnames Hsorted Hbefore Hfn.
  assert (Habout : about_org_record w
                   = match load_data (d ++ [fn])%list w with
                     | (w', Ok data) => (w', Ok match data with rec :: _ => rec | [] => PNone end)
                     | (w', Raise e) => (w', Raise e)
                     end).
  { unfold about_org_record. rewrite Hd. unfold bind at 1, listdir, reads_result.
    rewrite Hnames, Hsorted, (find_first_schema_file before after fn Hbefore Hfn).
    unfold bind, ret. destruct (load_data (d ++ [fn])%list w) as [w1 [data|e]]; reflexivity. }
  assert (Hshell : first_org_record d (Str.sorted names) w
                   = match load_data (d ++ [fn])%list w with
                     | (w', Ok (rec :: _)) => (w', Ok rec)
                     | (w', Ok []) => first_org_record d after w'
                     | (w', Raise e) => (w', Raise e)
                     end).
  { rewrite Hsorted, (first_org_record_skips d before (fn :: after) w Hbefore).
    cbn [first_org_record]. rewrite Hfn. unfold bind, ret.
    destruct (load_data (d ++ [fn])%list w) as [w1 [[|rec data]|e]]; reflexivity. }
  rewrite Habout, Hshell. split.
  - intros rec more w' ->. split; reflexivity.
  - intros w' ->. split; reflexivity.
Qed.

(* ------------------------------------------------------------------ *)
(** ** The loop of the contact page *)

Lemma for_each_keeps {A X} (P : A -> Prop) (body : A -> X -> M A) :
  (forall a x w w' a', P a -> body a x w = (w', Ok a') -> P a') ->
  forall xs a w w' a', P a -> for_each xs a body w = (w', Ok a') -> P a'.
Proof.
  intros Hbody. induction xs as [|x xs IH]; intros a w w' a' Ha Hrun.
  - cbn [for_each] in Hrun. unfold ret in Hrun. now injection Hrun as _ <-.
  - cbn [for_each] in Hrun. unfold bind in Hrun.
    destruct (body a x w) as [w1 [a1|e]] eqn:Hstep; [|discriminate].
    apply (IH a1 w1 w' a'); [|exact Hrun]. now apply (Hbody a x w w1 a1).
Qed.

Lemma contact_record_step_run (acc acc' : contact_acc) (loc : pyval) (w w' : world) :
  contact_record_step acc loc w = (w', Ok acc') ->
  match loc with
  | PDict l =>
      exists block name phone email,
        location_card l = Ok (block, name, phone, email)
        /\ acc' = {| ca_items := app (ca_items acc) [block];
                     ca_first_name := if Str.is_empty (ca_first_name acc) then name
                                      else ca_first_name acc;
                     ca_first_phone := if Str.is_empty (ca_first_phone acc)
                                          && nonempty_str phone
                                       then phone else ca_first_phone acc;
                     ca_first_email := if Str.is_empty (ca_first_email acc)
                                          && nonempty_str email
                                       then email else ca_first_email acc;
                     ca_files_seen := ca_files_seen acc;
                     ca_records_seen := S (ca_records_seen acc) |}
  | _ => acc' = acc
  end.
Proof.
  unfold contact_record_step. destruct loc; unfold ret; try (now intros [= _ <-]).
  unfold bind, lift. destruct (location_card d) as [[[[block name] phone] email]|e];
    [|discriminate].
  intros [= _ <-]. now exists block, name, phone, email.
Qed.

Lemma contact_file_step_keeps (P : contact_acc -> Prop) (d : FS.path) :
  (forall acc, P acc -> P (seen_file acc)) ->
  (forall acc loc w w' acc', P acc -> contact_record_step acc loc w = (w', Ok acc') -> P acc') ->
  forall acc fname w w' acc',
    P acc -> contact_file_step d acc fname w = (w', Ok acc') -> P acc'.
Proof.
  intros Hseen Hrec acc fname w w' acc' Hacc. unfold contact_file_step.
  destruct (is_schema_file fname); cbn [negb].
  - unfold bind. destruct (load_data (d ++ [fname])%list w) as [w1 [data|e]]; [|discriminate].
    destruct data as [|rec data].
    + unfold ret. intros [= _ <-]. now apply Hseen.
    + apply (for_each_keeps P contact_record_step Hrec). now apply Hseen.
  - unfold ret. now intros [= _ <-].
Qed.

(** X13.  In the loop of the contact page the record counter is the
    number of cards made so far; so when no card was made, the text shown
    in their place reports 0 records, however many were read. *)
Theorem contact_counter_counts_cards
    (d : FS.path) (names : list string) (w w' : world) (acc : contact_acc) :
  for_each names (ContactAcc [] "" "" "" 0 0) (contact_file_step d) w = (w', Ok acc) ->
  ca_records_seen acc = length (ca_items acc)
  /\ (ca_items acc = [] -> ca_records_seen acc = 0).
Proof.
  intros Hrun.
  assert (H : ca_records_seen acc = length (ca_items acc)).
  { apply (for_each_keeps (fun a => ca_records_seen a = length (ca_items a))
             (contact_file_step d)) with (xs := names) (a := ContactAcc [] "" "" "" 0 0)
            (w := w) (w' := w'); [|reflexivity | exact Hrun].
    apply contact_file_step_keeps.
    - intros a Ha. exact Ha.
    - intros a loc w0 w1 a' Ha Hstep. apply contact_record_step_run in Hstep.
      destruct loc; try (now subst a').
      destruct Hstep as (block & name & phone & email & _ & ->). cbn [ca_records_seen ca_items].
      rewrite length_app, Ha. cbn [length]. lia. }
  split; [exact H|]. intros Hnil. now rewrite H, Hnil.
Qed.

(** X14.  The name, phone and e-mail of the Quick Contact block, once
    set, are not replaced by those of a later record or file. *)
Theorem quick_contact_keeps_the_first
    (d : FS.path) (names : list string) (w w' : world) (acc0 acc : contact_acc) :
  for_each names acc0 (contact_file_step d) w = (w', Ok acc) ->
  (Str.is_empty (ca_first_name acc0) = false -> ca_first_name acc = ca_first_name acc0)
  /\ (Str.is_empty (ca_first_phone acc0) = false -> ca_first_phone acc = ca_first_phone acc0)
  /\ (Str.is_empty (ca_first_email acc0) = false -> ca_first_email acc = ca_first_email acc0).
Proof.
  intros Hrun.
  assert (Hfield : forall (field : contact_acc -> string),
            (forall a, field (seen_file a) = field a) ->
            (forall a loc w0 w1 a', Str.is_empty (field a) = false ->
               contact_record_step a loc w0 = (w1, Ok a') -> field a' = field a) ->
            Str.is_empty (field acc0) = false -> field acc = field acc0).
  { intros field Hseen Hrec Hset.
    apply (for_each_keeps (fun a => field a = field acc0)
             (contact_file_step d)) with (xs := names) (a := acc0) (w := w) (w' := w');
      [|reflexivity | exact Hrun].
    apply contact_file_step_keeps.
    - intros a Ha. now rewrite Hseen.
    - intros a loc w0 w1 a' Ha Hstep. rewrite <- Ha.
      apply (Hrec a loc w0 w1 a'); [now rewrite Ha | exact Hstep]. }
  repeat split; apply Hfield; try reflexivity;
    intros a loc w0 w1 a' Hset Hstep; apply contact_record_step_run in Hstep;
    (destruct loc; try (now subst a'));
    destruct Hstep as (block & name & phone & email & _ & ->);
    cbn [ca_first_name ca_first_phone ca_first_email]; now rewrite Hset.
Qed.

(** The fields of a location that hold its phone and e-mail. *)
Definition contact_key (k : string) : bool :=
  existsb (String.eqb k) ["phone"; "telephone"; "email"; "contactPoint"].

(** A value [(v or {}).get] can be called on. *)
Definition mapping_or_falsy (v : pyval) : bool := negb (Py.truthy v) || Py.is_dict v.

Definition card_block (card : result (string * string * string * string)) : result string :=
  match card with
  | Ok (block, _, _, _) => Ok block
  | Raise e => Raise e
  end.

Lemma or_empty_get_returns (v : pyval) (k : string) :
  mapping_or_falsy v = true -> exists x, Py.or_empty_get v k = Ok x.
Proof.
  unfold mapping_or_falsy, Py.or_empty_get, Py.or.
  destruct (Py.truthy v); cbn [negb orb].
  - destruct v; try discriminate. intros _. now eexists.
  - intros _. now eexists.
Qed.

(** X15.  The card of a location does not show its phone or e-mail: two
    records that differ in the fields phone, telephone, email and
    contactPoint only get the same card. *)
Theorem location_card_leaves_out_phone_and_email (l1 l2 : dict) :
  (forall k, contact_key k = false -> Py.get l1 k = Py.get l2 k) ->
  mapping_or_falsy (Py.get l1 "contactPoint") = true ->
  mapping_or_falsy (Py.get l2 "contactPoint") = true ->
  card_block (location_card l1) = card_block (location_card l2).
Proof.
  intros H Hcp1 Hcp2. unfold location_card.
  destruct (or_empty_get_returns _ "telephone" Hcp1) as [t1 ->].
  destruct (or_empty_get_returns _ "email" Hcp1) as [e1 ->].
  destruct (or_empty_get_returns _ "telephone" Hcp2) as [t2 ->].
  destruct (or_empty_get_returns _ "email" Hcp2) as [e2 ->].
  cbn [rbind].
  unfold _format_address, component_address, _extract_hours, _map_embed_src, coordinate, gets.
  cbn [map app].
  repeat match goal with
         | |- context [Py.get l1 ?k] =>
             lazymatch k with
             | "phone" => fail
             | "telephone" => fail
             | "email" => fail
             | _ => rewrite (H k) by reflexivity
             end
         end.
  match goal with
  | |- card_block (rbind ?m _) = card_block (rbind ?m _) => destruct m
  end; reflexivity.
Qed.

(* ------------------------------------------------------------------ *)
(** ** Records that make a page fail *)

(** A value [(v or "").strip()] can be computed for. *)
Definition string_or_falsy (v : pyval) : bool :=
  negb (Py.truthy v) || match v with PStr _ => true | _ => false end.

Lemma or_empty_strip_run (v : pyval) :
  if string_or_falsy v
  then exists s, or_empty_strip v = Ok s
  else exists e, or_empty_strip v = Raise e.
Proof.
  unfold string_or_falsy, or_empty_strip, Py.or.
  destruct v as [|[|]|z|f|s|[|x l]|[|x d]]; cbn [Py.truthy];
    try destruct (z =? 0)%Z; try destruct (F64.is_zero f); try destruct (Str.is_empty s);
    cbn [negb orb]; now eexists.
Qed.

(** X16.  A FAQ record makes the FAQ page raise exactly when its question
    or its answer is a value other than a string that is not falsy (a
    number, a non-empty list or mapping, [True]). *)
Theorem faq_card_raises_on_a_non_string (item : dict) :
  (exists e, faq_card item = Raise e)
  <-> string_or_falsy (Py.get item "question") && string_or_falsy (Py.get item "answer")
      = false.
Proof.
  unfold faq_card.
  pose proof (or_empty_strip_run (Py.get item "question")) as Hq.
  pose proof (or_empty_strip_run (Py.get item "answer")) as Ha.
  destruct (string_or_falsy (Py.get item "question")).
  - destruct Hq as [question ->]. cbn [rbind andb].
    destruct (string_or_falsy (Py.get item "answer")).
    + destruct Ha as [answer ->]. cbn [rbind].
      split; [|discriminate]. intros [e He].
      destruct (Str.is_empty question); discriminate.
    + destruct Ha as [e ->]. cbn [rbind]. split; [reflexivity | now exists e].
  - destruct Hq as [e ->]. cbn [rbind andb]. split; [reflexivity | now exists e].
Qed.

(** X17.  A location record makes the contact page raise exactly when its
    contactPoint is a value other than a mapping that is not falsy, or its
    geo is such a value and the record's own latitude or longitude is
    missing or falsy. *)
Theorem location_card_raises_on_a_non_mapping (loc : dict) :
  (exists e, location_card loc = Raise e)
  <-> mapping_or_falsy (Py.get loc "contactPoint")
      && (mapping_or_falsy (Py.get loc "geo")
          || Py.truthy (Py.get loc "latitude") && Py.truthy (Py.get loc "longitude"))
      = false.
Proof.
  assert (Hget : forall v k,
            if mapping_or_falsy v then exists x, Py.or_empty_get v k = Ok x
            else exists e, Py.or_empty_get v k = Raise e).
  { intros v k. destruct (mapping_or_falsy v) eqn:Hv; [now apply or_empty_get_returns|].
    unfold mapping_or_falsy, Py.or_empty_get, Py.or in *.
    destruct (Py.truthy v); [|discriminate]. destruct v; try discriminate; now eexists. }
  unfold location_card.
  pose proof (Hget (Py.get loc "contactPoint") "telephone") as Ht.
  pose proof (Hget (Py.get loc "contactPoint") "email") as He.
  destruct (mapping_or_falsy (Py.get loc "contactPoint")).
  2:{ destruct Ht as [e ->]. cbn [rbind andb]. split; [reflexivity | now exists e]. }
  destruct Ht as [t ->]. destruct He as [m ->]. cbn [rbind andb].
  unfold _map_embed_src, coordinate.
  pose proof (Hget (Py.get loc "geo") "latitude") as Hlat.
  pose proof (Hget (Py.get loc "geo") "longitude") as Hlng.
  assert (Hsrc : forall lat lng addr, exists src,
            (if Py.is_number lat && Py.is_number lng
             then Ok ("https://www.google.com/maps?q=" ++ py_str lat ++ "," ++ py_str lng
                      ++ "&z=15&output=embed")
             else
               let map_url := _first_nonempty (gets loc ["map_embed_url"; "map"; "map_iframe"]) in
               let gmaps := _first_nonempty (gets loc ["google_maps_url"; "maps_url"; "map_url"]) in
               if negb (Str.is_empty map_url) then Ok map_url
               else if negb (Str.is_empty gmaps) then Ok gmaps
               else if negb (Str.is_empty addr)
               then Ok ("https://www.google.com/maps?q=" ++ Str.quote_plus addr
                        ++ "&output=embed")
               else Ok "") = Ok src).
  { intros lat lng addr. cbv zeta.
    destruct (Py.is_number lat && Py.is_number lng); [now eexists|].
    destruct (negb (Str.is_empty _)); [now eexists|].
    destruct (negb (Str.is_empty _)); [now eexists|].
    destruct (negb (Str.is_empty _)); now eexists. }
  destruct (mapping_or_falsy (Py.get loc "geo")).
  - destruct Hlat as [glat ->], Hlng as [glng ->]. cbn [orb].
    split; [|discriminate]. intros [e Hraise]. exfalso.
    destruct (Py.truthy (Py.get loc "latitude")), (Py.truthy (Py.get loc "longitude"));
      cbn [rbind] in Hraise;
      match type of Hraise with
      | context [if Py.is_number ?lat && Py.is_number ?lng then _ else _] =>
          destruct (Hsrc lat lng (_format_address loc)) as [src Hs];
          cbv zeta in Hs; rewrite Hs in Hraise
      end; discriminate.
  - destruct Hlat as [elat ->], Hlng as [elng ->]. cbn [orb].
    destruct (Py.truthy (Py.get loc "latitude")), (Py.truthy (Py.get loc "longitude"));
      cbn [rbind andb].
    + split; [|discriminate]. intros [e Hraise]. exfalso.
      match type of Hraise with
      | context [if Py.is_number ?lat && Py.is_number ?lng then _ else _] =>
          destruct (Hsrc lat lng (_format_address loc)) as [src Hs];
          cbv zeta in Hs; rewrite Hs in Hraise
      end. discriminate.
    + split; [reflexivity | now eexists].
    + split; [reflexivity | now eexists].
    + split; [reflexivity | now eexists].
Qed.

(* ------------------------------------------------------------------ *)
(** ** Help articles *)

(** The card of an article with the title [title] and the lines [body]. *)
Definition article_html (title : string) (body : list string) : string :=
  q "
        <div class=`card`>
            <h2>" ++ esc title ++ "</h2>
            " ++ Str.join "" (map html_line body) ++ "
        </div>
        ".

(** The scan of the lines of an article. *)
Definition scan_lines (lines : list string) (st : article_scan) : article_scan :=
  fold_left scan_line lines st.

Lemma help_article_scan (filepath : FS.path) (content : string) :
  help_article filepath content
  = let st := scan_lines (Str.splitlines content) (ArticleScan None [] false false) in
    article_html
      match as_title st with
      | Some t => if Str.is_empty t then _title_from_filename filepath else t
      | None => _title_from_filename filepath
      end
      (as_body st).
Proof. reflexivity. Qed.

Definition not_delimiter (line : string) : Prop := Str.strip line <> "---".

Lemma scan_line_body (t : option string) (b : list string) (line : string) :
  scan_line (ArticleScan t b false true) line = ArticleScan t (app b [line]) false true.
Proof. unfold scan_line. cbn [as_frontmatter_done as_in_frontmatter negb andb].
  now rewrite andb_false_r. Qed.

Lemma scan_body (lines : list string) :
  forall t b, scan_lines lines (ArticleScan t b false true)
              = ArticleScan t (app b lines) false true.
Proof.
  unfold scan_lines. induction lines as [|l lines IH]; intros t b; cbn [fold_left].
  - now rewrite app_nil_r.
  - rewrite scan_line_body, IH, <- app_assoc. reflexivity.
Qed.

Lemma scan_plain (lines : list string) :
  Forall not_delimiter lines ->
  forall t b, scan_lines lines (ArticleScan t b false false)
              = ArticleScan t (app b lines) false false.
Proof.
  unfold scan_lines. induction 1 as [|l lines Hl _ IH]; intros t b; cbn [fold_left].
  - now rewrite app_nil_r.
  - unfold scan_line at 2. apply String.eqb_neq in Hl. rewrite Hl.
    cbn [andb as_in_frontmatter as_title as_body as_frontmatter_done].
    rewrite IH, <- app_assoc. reflexivity.
Qed.

Lemma scan_front_any (lines : list string) :
  Forall not_delimiter lines ->
  forall t b, exists t', scan_lines lines (ArticleScan t b true false)
                         = ArticleScan t' b true false.
Proof.
  unfold scan_lines. induction 1 as [|l lines Hl _ IH]; intros t b; cbn [fold_left].
  - now exists t.
  - unfold scan_line at 2. apply String.eqb_neq in Hl. rewrite Hl.
    cbn [andb negb as_in_frontmatter as_title as_body as_frontmatter_done].
    destruct (Str.startswith (Str.lower l) "title:"); apply IH.
Qed.

Lemma scan_front_keeps (lines : list string) :
  Forall not_delimiter lines ->
  Forall (fun l => Str.startswith (Str.lower l) "title:" = false) lines ->
  forall t b, scan_lines lines (ArticleScan t b true false) = ArticleScan t b true false.
Proof.
  unfold scan_lines. induction 1 as [|l lines Hl _ IH]; intros Htitle t b; cbn [fold_left].
  - reflexivity.
  - inversion Htitle as [|l' lines' Hl' Hrest]; subst.
    unfold scan_line at 2. apply String.eqb_neq in Hl. rewrite Hl, Hl'.
    cbn [andb negb as_in_frontmatter as_title as_body as_frontmatter_done].
    now apply IH.
Qed.

(** X18.  A help article with no line that reads "---" has no front
    matter: every line of the file is a line of the body, and the title is
    derived from the file name. *)
Theorem help_article_without_front_matter (filepath : FS.path) (content : string) :
  Forall not_delimiter (Str.splitlines content) ->
  help_article filepath content
  = article_html (_title_from_filename filepath) (Str.splitlines content).
Proof.
  intros H. rewrite help_article_scan. cbv zeta.
  now rewrite (scan_plain _ H None []).
Qed.

Lemma contains_char_lower (a : ascii) (s : string) :
  Str.contains (String a "") s = true ->
  Str.contains (String (Str.lower_char a) "") (Str.lower s) = true.
Proof.
  unfold Str.lower. induction s as [|c s IH]; [discriminate|].
  cbn [Str.map_chars]. rewrite !contains_char_cons. intros H.
  apply orb_prop in H. apply orb_true_iff. destruct H as [H|H].
  - left. apply Ascii.eqb_eq in H. subst c. apply Ascii.eqb_refl.
  - right. now apply IH.
Qed.

Lemma split1_app_sep (sep : ascii) (x y : string) :
  Str.contains (String sep "") x = false ->
  Str.split1 sep (x ++ String sep y) = (x, Some y).
Proof.
  induction x as [|c x IH]; cbn [append Str.split1].
  - now rewrite Ascii.eqb_refl.
  - rewrite contains_char_cons. intros H. apply orb_false_elim in H. destruct H as [Hc Hx].
    rewrite Ascii.eqb_sym, Hc, (IH Hx). reflexivity.
Qed.

Lemma title_key_head (c : ascii) :
  Str.lower_char c = "t"%char -> Str.is_space c = false /\ Ascii.eqb c "-" = false.
Proof. each_char c. Qed.

Lemma title_line (key value : string) :
  Str.lower key = "title" ->
  not_delimiter (key ++ ":" ++ value)
  /\ Str.startswith (Str.lower (key ++ ":" ++ value)) "title:" = true
  /\ Str.split1 ":" (key ++ ":" ++ value) = (key, Some value).
Proof.
  intros Hkey. split; [|split].
  - destruct key as [|c key]; [discriminate|].
    injection Hkey as Hc _. destruct (title_key_head c Hc) as [Hsp Hdash].
    unfold not_delimiter, Str.strip. cbn [append Str.lstrip]. rewrite Hsp.
    match goal with
    | |- context [Str.rstrip (String c ?s)] => destruct (rstrip_head c s Hsp) as [r ->]
    end.
    intros [= E]. subst c. discriminate.
  - rewrite lower_app, Hkey. unfold Str.startswith.
    change ("title" ++ Str.lower (":" ++ value)) with ("title:" ++ Str.lower value).
    apply prefix_app.
  - apply split1_app_sep.
    destruct (Str.contains ":" key) eqn:E; [|reflexivity].
    apply contains_char_lower in E. rewrite Hkey in E. discriminate.
Qed.

(** X19.  A help article that opens with a front matter block between
    two "---" lines takes its title from the last "title:" line of the
    block (the key in any letter case), or from the file name when that
    title is blank; the lines of the block are not shown, and every line
    after the block is a line of the body, a later "---" among them. *)
Theorem help_article_with_front_matter
    (filepath : FS.path) (content key value : string) (before after body : list string) :
  Str.splitlines content
  = "---" :: app before ((key ++ ":" ++ value) :: app after ("---" :: body)) ->
  Forall not_delimiter before -> Forall not_delimiter after ->
  Str.lower key = "title" ->
  Forall (fun l => Str.startswith (Str.lower l) "title:" = false) after ->
  help_article filepath content
  = article_html
      (if Str.is_empty (Str.strip value) then _title_from_filename filepath
       else Str.strip value)
      body.
Proof.
  intros Hlines Hbefore Hafter Hkey Hnotitle.
  destruct (title_line key value Hkey) as (Hdelim & Hstart & Hsplit).
  rewrite help_article_scan, Hlines. cbv zeta.
  assert (Hscan : scan_lines
                    ("---" :: app before ((key ++ ":" ++ value) :: app after ("---" :: body)))
                    (ArticleScan None [] false false)
                  = ArticleScan (Some (Str.strip value)) body false true).
  { unfold scan_lines. cbn [fold_left].
    change (scan_line (ArticleScan None [] false false) "---")
      with (ArticleScan None [] true false).
    rewrite fold_left_app.
    destruct (scan_front_any before Hbefore None []) as [t' Ht'].
    unfold scan_lines in Ht'. rewrite Ht'. cbn [fold_left].
    assert (Htitle : scan_line (ArticleScan t' [] true false) (key ++ ":" ++ value)
                     = ArticleScan (Some (Str.strip value)) [] true false).
    { unfold scan_line. apply String.eqb_neq in Hdelim. rewrite Hdelim, Hstart, Hsplit.
      reflexivity. }
    rewrite Htitle, fold_left_app.
    pose proof (scan_front_keeps after Hafter Hnotitle (Some (Str.strip value)) []) as Hk.
    unfold scan_lines in Hk. rewrite Hk. cbn [fold_left].
    change (scan_line (ArticleScan (Some (Str.strip value)) [] true false) "---")
      with (ArticleScan (Some (Str.strip value)) [] false true).
    apply (scan_body body (Some (Str.strip value)) []). }
  rewrite Hscan. reflexivity.
Qed.

(* ------------------------------------------------------------------ *)
(** ** The repository root *)

(** The directory [k] levels above [p]. *)
Fixpoint ancestor (k : nat) (p : FS.path) : FS.path :=
  match k with
  | O => p
  | S k' => ancestor k' (dirname p)
  end.

Lemma ancestor_of_root (k : nat) (p : FS.path) : dirname p = p -> ancestor k p = p.
Proof.
  intros H. induction k as [|k IH]; [reflexivity|]. cbn [ancestor]. now rewrite H.
Qed.

Lemma find_root_from_nearest (t : FS.tree) (tries : nat) :
  forall cur,
    match find_root_from t tries cur with
    | Some root =>
        exists k, k < tries /\ root = ancestor k cur
                  /\ has_marker t root = true
                  /\ forall j, j < k -> has_marker t (ancestor j cur) = false
    | None => forall j, j < tries -> has_marker t (ancestor j cur) = false
    end.
Proof.
  induction tries as [|tries IH]; intros cur; cbn [find_root_from].
  - intros j Hj. lia.
  - destruct (has_marker t cur) eqn:Hcur.
    + exists 0. repeat split; [lia | exact Hcur | intros j Hj; lia].
    + cbv zeta. unfold path_eqb.
      destruct (list_eq_dec string_dec (dirname cur) cur) as [Hroot|Hup].
      * intros j _. now rewrite (ancestor_of_root j cur Hroot).
      * specialize (IH (dirname cur)).
        destruct (find_root_from t tries (dirname cur)) as [root|].
        -- destruct IH as (k & Hk & Hr & Hm & Hbelow).
           exists (S k). repeat split; [lia | exact Hr | exact Hm |].
           intros [|j] Hj; [exact Hcur | apply Hbelow; lia].
        -- intros [|j] Hj; [exact Hcur | apply IH; lia].
Qed.

(** X20.  The repository root is the nearest directory, among the
    directory of the script and the four directories above it, that holds
    one of the marker folders; when none of the five does it is the
    directory of the script. *)
Theorem find_repo_root_is_the_nearest_marked (t : FS.tree) (script_dir : FS.path) :
  (exists k, k < 5
     /\ find_repo_root t script_dir = ancestor k script_dir
     /\ has_marker t (find_repo_root t script_dir) = true
     /\ forall j, j < k -> has_marker t (ancestor j script_dir) = false)
  \/ (find_repo_root t script_dir = script_dir
      /\ forall j, j < 5 -> has_marker t (ancestor j script_dir) = false).
Proof.
  unfold find_repo_root. pose proof (find_root_from_nearest t 5 script_dir) as H.
  destruct (find_root_from t 5 script_dir) as [root|].
  - left. destruct H as (k & Hk & Hr & Hm & Hbelow). exists k. now repeat split.
  - right. split; [reflexivity | exact H].
Qed.

(* ------------------------------------------------------------------ *)
(** ** What a run writes *)

(** A statement that leaves the working tree as it is. *)
Definition reader {A} (m : M A) : Prop := forall w, files (fst (m w)) = files w.

Lemma reader_ret {A} (a : A) : reader (ret a).
Proof. intros w. reflexivity. Qed.

Lemma reader_lift {A} (r : result A) : reader (lift r).
Proof. intros w. reflexivity. Qed.

Lemma reader_print (line : string) : reader (print line).
Proof. intros w. reflexivity. Qed.

Lemma reader_reads {A} (f : FS.tree -> A) : reader (reads f).
Proof. intros w. reflexivity. Qed.

Lemma reader_reads_result {A} (f : FS.tree -> result A) : reader (reads_result f).
Proof. intros w. reflexivity. Qed.

Lemma reader_listdir (d : FS.path) : reader (listdir d).
Proof. intros w. reflexivity. Qed.

Lemma reader_bind {A B} (m : M A) (k : A -> M B) :
  reader m -> (forall a, reader (k a)) -> reader (bind m k).
Proof.
  intros Hm Hk w. unfold bind. specialize (Hm w).
  destruct (m w) as [w1 [a|e]]; cbn [fst] in *; [rewrite (Hk a w1)|]; exact Hm.
Qed.

Lemma reader_for_each {A X} (body : A -> X -> M A) :
  (forall a x, reader (body a x)) -> forall xs a, reader (for_each xs a body).
Proof.
  intros Hbody. induction xs as [|x xs IH]; intros a; cbn [for_each].
  - apply reader_ret.
  - apply reader_bind; [apply Hbody | intros a'; apply IH].
Qed.

Lemma reader_load_data (p : FS.path) : reader (load_data p).
Proof.
  intros w. rewrite load_data_run.
  destruct (parse_attempt (files w) p) as [[v|e]|]; reflexivity.
Qed.

Lemma reader_first_org_record (d : FS.path) (names : list string) :
  reader (first_org_record d names).
Proof.
  induction names as [|fn names IH]; cbn [first_org_record]; [apply reader_ret|].
  destruct (is_schema_file fn); [|exact IH].
  apply reader_bind; [apply reader_load_data|].
  intros [|rec data]; [exact IH | apply reader_ret].
Qed.

Lemma reader_load_org_meta : reader load_org_meta.
Proof.
  unfold load_org_meta. apply reader_bind; [|intros org; apply reader_ret].
  destruct (chosen (ORG_DIR g)) as [d|]; [|apply reader_ret].
  apply reader_bind; [apply reader_listdir | intros names; apply reader_first_org_record].
Qed.

Ltac reader_step :=
  match goal with
  | |- reader (ret _) => apply reader_ret
  | |- reader (lift _) => apply reader_lift
  | |- reader (print _) => apply reader_print
  | |- reader (reads _) => apply reader_reads
  | |- reader (reads_result _) => apply reader_reads_result
  | |- reader (listdir _) => apply reader_listdir
  | |- reader (load_data _) => apply reader_load_data
  | |- reader load_org_meta => apply reader_load_org_meta
  | |- reader (bind _ _) => apply reader_bind; [|intros ?]
  | |- reader (for_each _ _ _) => apply reader_for_each; intros ? ?
  | |- reader (match ?x with _ => _ end) => destruct x
  end.

Ltac reader_auto :=
  repeat first
    [ reader_step
    | progress unfold services_step, reviews_step, faq_step, contact_file_step,
        contact_record_step, awards_step, help_step, about_services_step,
        about_locations_step, about_ratings_step, about_org_record,
        about_service_titles, about_contact_facts, about_ratings ].

(** The page [o] is whole and of this run: it ends with the footer line
    of the clock [clk] and the closing tags. *)
Definition complete_page (clk : clock) (o : option FS.node) : Prop :=
  exists before, o = Some (FS.File (before ++ footer_line clk ++ page_tail)).

(** What the renderer of the page [f] does to the working tree: it leaves
    every other entry alone; when it returns, [f] is a whole page of this
    run; when it raises, [f] is as it was or is an empty file. *)
Definition renders (f : string) (clk : clock) (m : M bool) : Prop :=
  forall w,
    (forall f', String.eqb f f' = false ->
                FS.find f' (files (fst (m w))) = FS.find f' (files w))
    /\ match snd (m w) with
       | Ok _ => complete_page clk (FS.find f (files (fst (m w))))
       | Raise _ =>
           FS.find f (files (fst (m w))) = FS.find f (files w)
           \/ FS.find f (files (fst (m w))) = Some (FS.File "")
       end.

Lemma renders_reader_then {A} (f : string) (clk : clock) (m : M A) (k : A -> M bool) :
  reader m -> (forall a, renders f clk (k a)) -> renders f clk (bind m k).
Proof.
  intros Hm Hk w. unfold bind. specialize (Hm w).
  destruct (m w) as [w1 [a|e]]; cbn [fst snd] in *.
  - rewrite <- Hm. apply Hk.
  - rewrite Hm. split; [reflexivity | now left].
Qed.

Lemma renders_write_then (f : string) (clk : clock) (title content : string) (k : M bool) :
  reader k -> (forall w, exists b, snd (k w) = Ok b) ->
  renders f clk (write_page f (generate_page clk title content) ;;; k).
Proof.
  intros Hk Hret w. unfold bind. rewrite write_page_unfold.
  pose proof (reader_load_org_meta (World (FS.write f "" (files w)) (stdout w))) as Hf.
  destruct (load_org_meta (World (FS.write f "" (files w)) (stdout w))) as [w1 [org|e]];
    cbn [fst snd files] in *.
  - match goal with
    | |- context [k ?w2] =>
        destruct (Hret w2) as [b Hb]; pose proof (Hk w2) as Hw2;
        destruct (k w2) as [w3 r]
    end.
    cbn [fst snd files] in *. subst r. rewrite Hw2, Hf. split.
    + intros f' Hne. now rewrite !find_write_other.
    + rewrite find_write_same. unfold page_of.
      match goal with
      | |- complete_page _ (Some (FS.File (?h ++ ?c ++ ?m ++ _))) => exists (h ++ c ++ m)
      end.
      now rewrite !append_assoc.
  - rewrite Hf. split.
    + intros f' Hne. now rewrite find_write_other.
    + right. apply find_write_same.
Qed.

Ltac renders_step :=
  match goal with
  | |- renders _ _ (bind (write_page _ _) _) =>
      apply renders_write_then; [reader_auto | intros ?; eexists; reflexivity]
  | |- renders _ _ (bind _ _) => apply renders_reader_then; [reader_auto | intros ?]
  | |- renders _ _ (let _ := _ in _) => cbv zeta
  | |- renders _ _ (match ?x with _ => _ end) => destruct x
  end.

Lemma renders_index (clk : clock) : renders "index.html" clk (generate_index_page clk).
Proof. unfold generate_index_page. repeat renders_step. Qed.

Lemma renders_about (clk : clock) : renders "about.html" clk (generate_about_page clk).
Proof. unfold generate_about_page. repeat renders_step. Qed.

Lemma renders_services (clk : clock) :
  renders "services.html" clk (generate_services_page clk).
Proof. unfold generate_services_page. repeat renders_step. Qed.

Lemma renders_awards (clk : clock) : renders "awards.html" clk (generate_awards_page clk).
Proof. unfold generate_awards_page. repeat renders_step. Qed.

Lemma renders_testimonials (clk : clock) :
  renders "testimonials.html" clk (generate_testimonials_page clk).
Proof. unfold generate_testimonials_page. repeat renders_step. Qed.

Lemma renders_faq (clk : clock) : renders "faqs.html" clk (generate_faq_page clk).
Proof. unfold generate_faq_page. repeat renders_step. Qed.

Lemma renders_help (clk : clock) :
  renders "help.html" clk (generate_help_articles_page clk).
Proof. unfold generate_help_articles_page. repeat renders_step. Qed.

Lemma renders_contact (clk : clock) : renders "contact.html" clk (generate_contact_page clk).
Proof. unfold generate_contact_page. repeat renders_step. Qed.

Lemma html_files_distinct : NoDup html_files.
Proof.
  unfold html_files.
  repeat (constructor;
          [cbn [In]; intros H; repeat (destruct H as [H|H]; [discriminate H|]); exact H|]).
  constructor.
Qed.

Lemma not_output (c : string) : ~ In c html_files -> is_output c = false.
Proof.
  intros Hc. unfold is_output. destruct (existsb (String.eqb c) html_files) eqn:E; [|reflexivity].
  apply existsb_exists in E. destruct E as (x & Hx & E). apply String.eqb_eq in E.
  now subst x.
Qed.

(** The renderers run one after the other: each page is as its own
    renderer left it, and nothing else was touched. *)
Lemma run_all_pages (clk : string -> clock) (gens : list (string * M bool)) :
  NoDup (map fst gens) ->
  (forall e, In e gens -> renders (fst e) (clk (fst e)) (snd e)) ->
  forall w,
    (forall f', ~ In f' (map fst gens) ->
       FS.find f' (files (snd (run_all gens w))) = FS.find f' (files w))
    /\ (forall e r, In (e, r) (combine gens (fst (run_all gens w))) ->
          match r with
          | Ok _ =>
              complete_page (clk (fst e)) (FS.find (fst e) (files (snd (run_all gens w))))
          | Raise _ =>
              FS.find (fst e) (files (snd (run_all gens w))) = FS.find (fst e) (files w)
              \/ FS.find (fst e) (files (snd (run_all gens w))) = Some (FS.File "")
          end).
Proof.
  induction gens as [|[f m] rest IH]; intros Hnd Hall w.
  - cbn [run_all fst snd combine]. split; [reflexivity | contradiction].
  - cbn [map fst] in Hnd. inversion Hnd as [|f0 l0 Hf Hrest]; subst.
    destruct (Hall (f, m) (or_introl eq_refl) w) as [Hframe Hpage]. cbn [fst snd] in *.
    cbn [run_all fst snd].
    set (w1 := match snd (m w) with
               | Ok _ => fst (m w)
               | Raise e => World (files (fst (m w)))
                              (app (stdout (fst (m w))) [failure_line f e])
               end).
    assert (Hw1 : files w1 = files (fst (m w))) by (subst w1; now destruct (snd (m w))).
    destruct (IH Hrest (fun e He => Hall e (or_intror He)) w1) as [IHframe IHpages].
    split.
    + intros f' Hnot. cbn [map fst In] in Hnot.
      rewrite IHframe by (intros Hin; apply Hnot; now right).
      rewrite Hw1. apply Hframe. apply String.eqb_neq. intros ->. apply Hnot. now left.
    + cbn [combine In]. intros e r [Heq|Hin].
      * injection Heq as <- <-. cbn [fst]. rewrite (IHframe f Hf), Hw1. exact Hpage.
      * specialize (IHpages e r Hin).
        assert (Hne : String.eqb f (fst e) = false).
        { apply String.eqb_neq. intros ->. apply Hf. apply in_map.
          now apply in_combine_l in Hin. }
        destruct r as [b|x]; [exact IHpages|].
        now rewrite Hw1, (Hframe (fst e) Hne) in IHpages.
Qed.

Lemma generators_render (clk : string -> clock) (e : string * M bool) :
  In e (generators clk) -> renders (fst e) (clk (fst e)) (snd e).
Proof.
  unfold generators. cbn [In].
  intros [<-|[<-|[<-|[<-|[<-|[<-|[<-|[<-|[]]]]]]]]]; cbn [fst snd].
  - apply renders_index.
  - apply renders_about.
  - apply renders_services.
  - apply renders_awards.
  - apply renders_testimonials.
  - apply renders_faq.
  - apply renders_help.
  - apply renders_contact.
Qed.

Lemma forallb_false_existsb {A} (p : A -> bool) (l : list A) :
  forallb p l = false -> existsb (fun x => negb (p x)) l = true.
Proof.
  induction l as [|x l IH]; cbn [forallb existsb]; [discriminate|].
  destruct (p x); cbn [negb andb orb]; [exact IH | reflexivity].
Qed.

Lemma in_combine_exists {A B} (l1 : list A) (l2 : list B) (a : A) :
  length l1 = length l2 -> In a l1 -> exists b, In (a, b) (combine l1 l2).
Proof.
  revert l2. induction l1 as [|x l1 IH]; intros [|y l2] Hlen Hin; try contradiction;
    try discriminate.
  injection Hlen as Hlen. destruct Hin as [->|Hin].
  - exists y. now left.
  - destruct (IH l2 Hlen Hin) as [b Hb]. exists b. now right.
Qed.

(** The run in one equation: the clean-up, then the renderers, then the
    last line of the log; a clean-up that raises ends the run. *)
Lemma main_run (clk : string -> clock) (w : world) :
  snd (prepare w) = Ok tt ->
  exists code last_line,
    main clk w
    = (World (files (snd (run_all (generators clk) (fst (prepare w)))))
             (app (stdout (snd (run_all (generators clk) (fst (prepare w))))) [last_line]),
       Ok code)
    /\ (code = 0%Z ->
        forallb is_ok (fst (run_all (generators clk) (fst (prepare w)))) = true).
Proof.
  intros Hp. unfold main, bind at 1.
  destruct (prepare w) as [w0 r]. cbn [fst snd] in *. subst r.
  destruct (build_pages_run (generators clk) w0) as (code & line & -> & _ & Hbad).
  exists code, line. split; [reflexivity|]. intros ->.
  destruct (forallb is_ok (fst (run_all (generators clk) w0))) eqn:E; [reflexivity|].
  apply forallb_false_existsb in E. now apply Hbad in E.
Qed.

Lemma main_stopped (clk : string -> clock) (w : world) (e : exn) :
  snd (prepare w) = Raise e -> main clk w = (fst (prepare w), Raise e).
Proof.
  intros Hp. unfold main, bind at 1.
  destruct (prepare w) as [w0 r]. cbn [fst snd] in *. now subst r.
Qed.

Lemma main_returned (clk : string -> clock) (w : world) (code : Z) :
  snd (main clk w) = Ok code -> cleanup_blocked (files w) = false.
Proof.
  intros H. destruct (snd (prepare w)) as [[]|e] eqn:Hp.
  - now apply (prepare_returned w tt).
  - rewrite (main_stopped clk w e Hp) in H. discriminate H.
Qed.

(** After the renderers of a run each page is missing, empty or whole. *)
Lemma pages_after_run (clk : string -> clock) (w : world) (f : string) :
  cleanup_blocked (files w) = false -> In f html_files ->
  exists r,
    In r (fst (run_all (generators clk) (fst (prepare w))))
    /\ match r with
       | Ok _ =>
           complete_page (clk f)
             (FS.find f (files (snd (run_all (generators clk) (fst (prepare w))))))
       | Raise _ =>
           FS.find f (files (snd (run_all (generators clk) (fst (prepare w))))) = None
           \/ FS.find f (files (snd (run_all (generators clk) (fst (prepare w)))))
              = Some (FS.File "")
       end.
Proof.
  intros Hfree Hf.
  destruct (run_all_pages clk (generators clk) html_files_distinct (generators_render clk)
              (fst (prepare w))) as [_ Hpages].
  assert (Hgen : exists e, In e (generators clk) /\ fst e = f).
  { change html_files with (map fst (generators clk)) in Hf.
    apply in_map_iff in Hf. destruct Hf as (e & He & Hin). now exists e. }
  destruct Hgen as (e & He & <-).
  destruct (in_combine_exists (generators clk)
              (fst (run_all (generators clk) (fst (prepare w)))) e
              (eq_sym (run_all_length _ _)) He) as [r Hr].
  specialize (Hpages e r Hr).
  assert (Habsent : FS.find (fst e) (files (fst (prepare w))) = None).
  { apply prepare_no_pages; [exact Hfree|]. unfold is_output. apply existsb_exists.
    exists (fst e). split; [|apply String.eqb_refl].
    change html_files with (map fst (generators clk)). now apply in_map. }
  exists r. split; [now apply in_combine_r in Hr|].
  destruct r as [b|x]; [exact Hpages|]. now rewrite Habsent in Hpages.
Qed.

(** X21.  When neither .nojekyll nor a page name is a directory, the
    clean-up before the pages are built returns, deletes the eight pages
    and leaves an empty .nojekyll file.  When one of them is a directory
    the clean-up raises on the first such name, and every directory among
    them is still there.  In both cases nothing else in the working
    directory is touched. *)
Theorem cleanup_removes_the_pages_only (w : world) :
  (cleanup_blocked (files w) = false ->
   snd (prepare w) = Ok tt
   /\ (forall f, In f html_files -> FS.exists_ (files (fst (prepare w))) [f] = false)
   /\ FS.read_text (files (fst (prepare w))) [".nojekyll"] = Ok "")
  /\ (cleanup_blocked (files w) = true ->
      (exists f, In f cleanup_names /\ FS.isdir (files w) [f] = true
                 /\ snd (prepare w) = Raise (FS.is_a_directory f))
      /\ forall f, FS.isdir (files w) [f] = true ->
                   FS.isdir (files (fst (prepare w))) [f] = true)
  /\ (forall c rest, c <> ".nojekyll" -> ~ In c html_files ->
        FS.at_path (files (fst (prepare w))) (c :: rest) = FS.at_path (files w) (c :: rest)).
Proof.
  split; [|split].
  - intros Hfree. split; [now apply prepare_returns|]. split.
    + intros f Hf. unfold FS.exists_. rewrite at_path_cons, prepare_no_pages; [reflexivity| |].
      * exact Hfree.
      * unfold is_output. apply existsb_exists. exists f.
        split; [exact Hf | apply String.eqb_refl].
    + unfold FS.read_text. rewrite prepare_inputs by (exact Hfree || reflexivity).
      rewrite at_path_cons, find_write_same. reflexivity.
  - intros Hblocked. split; [now apply prepare_raises|].
    intros f Hd. rewrite (proj1 (prepare_cleanup w)), cleanup_unfold.
    destruct (FS.isdir (files w) [".nojekyll"]) eqn:Hn; [exact Hd|].
    apply delete_all_keeps_dirs.
    destruct (String.eqb ".nojekyll" f) eqn:E.
    + apply String.eqb_eq in E. subst f. congruence.
    + unfold FS.isdir in *. now rewrite at_path_write_other.
  - intros c rest. apply cleanup_inputs_kept.
Qed.

(** X22.  A run changes nothing in the working directory but the eight
    pages and the .nojekyll file: every other file and folder, at any
    depth, is after the run what it was before. *)
Theorem run_changes_the_pages_only
    (clk : string -> clock) (w : world) (c : string) (rest : FS.path) :
  c <> ".nojekyll" -> ~ In c html_files ->
  FS.at_path (files (fst (main clk w))) (c :: rest) = FS.at_path (files w) (c :: rest).
Proof.
  intros Hc Hout. destruct (snd (prepare w)) as [[]|e] eqn:Hp.
  - destruct (main_run clk w Hp) as (code & line & -> & _). cbn [fst files].
    destruct (run_all_pages clk (generators clk) html_files_distinct (generators_render clk)
                (fst (prepare w))) as [Hframe _].
    rewrite at_path_cons, (Hframe c Hout), <- at_path_cons.
    now apply (cleanup_inputs_kept w).
  - rewrite (main_stopped clk w e Hp). cbn [fst]. now apply (cleanup_inputs_kept w).
Qed.

(** X23.  After a run whose clean-up returned (neither .nojekyll nor a
    page name is a directory) each of the eight pages is missing, empty, or
    a whole page of this run, closed by the footer line of the time it was
    generated at and the closing tags; it is never a page of an earlier
    run or a page cut short.  When the exit status is 0 all eight are
    whole pages of this run.  A run whose clean-up raises ends with that
    exception, and its pages are what the clean-up left. *)
Theorem run_leaves_whole_pages (clk : string -> clock) (w : world) (f : string) :
  In f html_files ->
  (cleanup_blocked (files w) = false ->
   FS.find f (files (fst (main clk w))) = None
   \/ FS.find f (files (fst (main clk w))) = Some (FS.File "")
   \/ complete_page (clk f) (FS.find f (files (fst (main clk w)))))
  /\ (snd (main clk w) = Ok 0%Z ->
      complete_page (clk f) (FS.find f (files (fst (main clk w)))))
  /\ (cleanup_blocked (files w) = true ->
      exists e, snd (prepare w) = Raise e /\ main clk w = (fst (prepare w), Raise e)).
Proof.
  intros Hf.
  assert (Hrun : cleanup_blocked (files w) = false ->
            exists (code : Z) (r : result bool),
              snd (main clk w) = Ok code
              /\ (code = 0%Z -> is_ok r = true)
              /\ match r with
                 | Ok _ => complete_page (clk f) (FS.find f (files (fst (main clk w))))
                 | Raise _ =>
                     FS.find f (files (fst (main clk w))) = None
                     \/ FS.find f (files (fst (main clk w))) = Some (FS.File "")
                 end).
  { intros Hfree. destruct (main_run clk w (prepare_returns w Hfree))
      as (code & line & -> & Hcode).
    destruct (pages_after_run clk w f Hfree Hf) as (r & Hin & Hr).
    exists code, r. cbn [fst snd files]. split; [reflexivity|]. split; [|exact Hr].
    intros Hzero. specialize (Hcode Hzero). rewrite forallb_forall in Hcode. now apply Hcode. }
  split; [|split].
  - intros Hfree. destruct (Hrun Hfree) as (code & r & _ & _ & Hr).
    destruct r as [b|x]; [now right; right|].
    destruct Hr as [Hr|Hr]; [now left | now right; left].
  - intros Hzero. destruct (Hrun (main_returned clk w 0%Z Hzero)) as (code & r & Hc & Hok & Hr).
    rewrite Hzero in Hc. injection Hc as <-. specialize (Hok eq_refl).
    destruct r as [b|x]; [exact Hr | discriminate].
  - intros Hblocked. destruct (prepare_raises w Hblocked) as (f0 & _ & _ & Hr).
    eexists. split; [exact Hr | now apply main_stopped].
Qed.

(** Two runs in a row over the same inputs, at two different times:
    every page of the second run is the page of the first run except for
    the footer line (a page the first run failed to write, the second
    fails to write as well), and the two runs end alike: with the same
    exit status, or stopped in the clean-up by the same exception. *)
Lemma second_run_same_pages (clk1 clk2 : string -> clock) (w : world) :
  dirs_safe g = true ->
  let first := main clk1 w in
  let second := main clk2 (fst first) in
  (forall f, In f html_files ->
     same_page clk1 clk2 f (FS.find f (files (fst first))) (FS.find f (files (fst second))))
  /\ snd first = snd second.
Proof.
  intros Hg. cbv zeta. destruct (snd (prepare w)) as [[]|e] eqn:Hp.
  - pose proof (prepare_returned w tt Hp) as Hfree.
    set (w1 := fst (main clk1 w)).
    assert (Hmain1 : main clk1 w = build_pages (generators clk1) (fst (prepare w))).
    { unfold main, bind at 1. destruct (prepare w) as [p1 r1]. cbn [fst snd] in *.
      now subst r1. }
    destruct (sim_build_pages clk1 clk2 Hg (fst (prepare w)) (fst (prepare w))
                (agree_refl clk1 clk2 _)) as (_ & _ & Hkeep & _).
    rewrite <- Hmain1 in Hkeep. fold w1 in Hkeep.
    assert (Hfree1 : cleanup_blocked (files w1) = false).
    { unfold cleanup_blocked.
      destruct (existsb (fun f => FS.isdir (files w1) [f]) cleanup_names) eqn:E; [|reflexivity].
      apply existsb_exists in E. destruct E as (f & Hf & Hd). exfalso.
      destruct Hf as [<-|Hf].
      - unfold FS.isdir in Hd. rewrite <- (Hkeep [".nojekyll"] eq_refl) in Hd.
        rewrite prepare_inputs in Hd by (exact Hfree || reflexivity).
        rewrite at_path_cons, find_write_same in Hd. discriminate Hd.
      - destruct (main_run clk1 w Hp) as (code & line & Hm & _).
        destruct (pages_after_run clk1 w f Hfree Hf) as (r & _ & Hr).
        rewrite isdir_find in Hd. subst w1. rewrite Hm in Hd. cbn [fst files] in Hd.
        destruct r as [b|x].
        + destruct Hr as [before Hr]. rewrite Hr in Hd. discriminate Hd.
        + destruct Hr as [Hr|Hr]; rewrite Hr in Hd; discriminate Hd. }
    assert (Hmain2 : main clk2 w1 = build_pages (generators clk2) (fst (prepare w1))).
    { pose proof (prepare_returns w1 Hfree1) as Hp1. unfold main, bind at 1.
      destruct (prepare w1) as [p2 r2]. cbn [fst snd] in *. now subst r2. }
    rewrite Hmain2. subst w1. rewrite Hmain1 in *.
    destruct (sim_build_pages clk1 clk2 Hg (fst (prepare w))
                (fst (prepare (fst (build_pages (generators clk1) (fst (prepare w))))))
                (prepared_twice clk1 clk2 w _ Hfree Hfree1 Hkeep))
      as ([_ Hpages] & Hres & _).
    split; [|exact Hres].
    intros f Hin. apply Hpages. unfold is_output. apply existsb_exists.
    exists f. split; [exact Hin | apply String.eqb_refl].
  - rewrite (main_stopped clk1 w e Hp). cbn [fst snd].
    destruct (prepare_again w) as [Hfiles Hres]. rewrite Hp in Hres.
    rewrite (main_stopped clk2 (fst (prepare w)) e Hres). cbn [fst snd].
    split; [|reflexivity]. intros f _. left. now rewrite Hfiles.
Qed.

(* ------------------------------------------------------------------ *)
(** ** The site name without an organization record *)

Lemma after_first_app (sep : ascii) (x y : string) :
  Str.contains (String sep "") x = false -> Str.after_first sep (x ++ String sep y) = y.
Proof. intros H. unfold Str.after_first. now rewrite split1_app_sep. Qed.

(** X24.  With no organization directory the site name is the name of
    the repository: the text after the first slash of GITHUB_REPOSITORY,
    its hyphens turned into spaces, in title case; logo, favicon and
    website are [None]. *)
Theorem site_name_falls_back_on_the_repository (owner name : string) (w : world) :
  chosen (ORG_DIR g) = None ->
  repo_slug = owner ++ "/" ++ name ->
  Str.contains "/" owner = false ->
  load_org_meta w
  = (w, Ok {| meta_name := PStr (Str.title (Str.replace "-" " " name));
              meta_favicon := PNone; meta_logo := PNone; meta_website := PNone |}).
Proof.
  intros Hd Hslug Howner. unfold load_org_meta. rewrite Hd. unfold bind, ret.
  cbn [meta_name meta_favicon meta_logo meta_website Py.truthy].
  unfold repo_site_name. rewrite Hslug.
  change (owner ++ "/" ++ name) with (owner ++ String "/" name).
  rewrite (after_first_app "/"%char owner name Howner).
  now destruct owner.
Qed.

(* ------------------------------------------------------------------ *)
(** ** A FAQ record that breaks the page *)

Lemma in_insert_by_intro {A} (key : A -> string) (x y : A) (l : list A) :
  y = x \/ In y l -> In y (Str.insert_by key x l).
Proof.
  induction l as [|z l IH]; cbn [Str.insert_by].
  - intros [->|[]]. now left.
  - destruct (String.leb (key x) (key z)).
    + intros [->|H]; [now left | now right].
    + intros [->|[->|H]]; [right; apply IH; now left | now left | right; apply IH; now right].
Qed.

Lemma in_sort_by_intro {A} (key : A -> string) (y : A) (l : list A) :
  In y l -> In y (Str.sort_by key l).
Proof.
  unfold Str.sort_by. induction l as [|x l IH]; cbn [fold_right]; [trivial|].
  intros [->|H]; apply in_insert_by_intro; [now left | right; now apply IH].
Qed.

Lemma faq_card_bad (item : dict) :
  string_or_falsy (Py.get item "question") && string_or_falsy (Py.get item "answer") = false ->
  exists e, faq_card item = Raise e.
Proof.
  unfold faq_card.
  pose proof (or_empty_strip_run (Py.get item "question")) as Hq.
  pose proof (or_empty_strip_run (Py.get item "answer")) as Ha.
  destruct (string_or_falsy (Py.get item "question")).
  - destruct Hq as [question ->]. cbn [rbind andb].
    destruct (string_or_falsy (Py.get item "answer")); [discriminate|].
    destruct Ha as [e ->]. intros _. now exists e.
  - destruct Hq as [e ->]. intros _. now exists e.
Qed.

Lemma faq_cards_bad (data : list pyval) (item : dict) :
  In (PDict item) data -> (exists e, faq_card item = Raise e) ->
  exists e, faq_cards data = Raise e.
Proof.
  intros Hin [e He]. induction data as [|x data IH]; [contradiction|].
  cbn [faq_cards]. destruct Hin as [->|Hin].
  - rewrite He. now exists e.
  - destruct (match x with PDict d => faq_card d | _ => Ok [] end) as [cards|e'];
      [|now exists e'].
    cbn [rbind]. destruct (IH Hin) as [e' ->]. now exists e'.
Qed.

Lemma for_each_raises {A X} (body : A -> X -> M A) (t : FS.tree) (bad : X) :
  (forall a x, reader (body a x)) ->
  (forall a w, files w = t -> exists e, snd (body a bad w) = Raise e) ->
  forall xs, In bad xs ->
  forall a w, files w = t -> exists e, snd (for_each xs a body w) = Raise e.
Proof.
  intros Hread Hbad. induction xs as [|x xs IH]; [contradiction|].
  intros Hin a w Hw. cbn [for_each]. unfold bind.
  pose proof (Hread a x w) as Hfiles.
  destruct (body a x w) as [w1 [a1|e]] eqn:Hstep; [|now exists e].
  cbn [fst] in Hfiles. destruct Hin as [->|Hin].
  - destruct (Hbad a w Hw) as [e He]. rewrite Hstep in He. discriminate.
  - apply IH; [exact Hin | congruence].
Qed.

Lemma reader_faq_step (d : FS.path) (items : list string) (fn : string) :
  reader (faq_step d items fn).
Proof. reader_auto. Qed.

(** X25.  One FAQ record whose question or answer is a value other than
    a string that is not falsy makes the whole FAQ page fail: the renderer
    raises before it writes anything, whatever the other records and files
    of the directory hold. *)
Theorem faq_page_fails_on_a_bad_record
    (clk : clock) (w : world) (d : FS.path) (names : list string) (fn : string)
    (v : pyval) (item : dict) :
  chosen (FAQ_DIR g) = Some d ->
  FS.listdir (files w) d = Ok names ->
  In fn names -> is_schema_file fn = true ->
  parse_attempt (files w) (d ++ [fn])%list = Some (Ok v) ->
  In (PDict item) (as_records (Py.or v (PList []))) ->
  string_or_falsy (Py.get item "question") && string_or_falsy (Py.get item "answer") = false ->
  exists e w', generate_faq_page clk w = (w', Raise e) /\ files w' = files w.
Proof.
  intros Hd Hnames Hfn Hschema Hparse Hitem Hbad.
  unfold generate_faq_page. rewrite Hd. unfold bind at 1, listdir, reads_result.
  rewrite Hnames. unfold bind at 1.
  assert (Hraise : exists e, snd (for_each (Str.sorted names) [] (faq_step d) w) = Raise e).
  { apply (for_each_raises (faq_step d) (files w) fn); [apply reader_faq_step| | |reflexivity].
    - intros a w0 Hw0. unfold faq_step. rewrite Hschema. cbn [negb]. unfold bind at 1.
      rewrite load_data_run, Hw0, Hparse.
      destruct (faq_cards_bad _ item Hitem (faq_card_bad item Hbad)) as [e He].
      unfold bind, lift. rewrite He. now exists e.
    - now apply in_sort_by_intro. }
  pose proof (reader_for_each (faq_step d) (reader_faq_step d) (Str.sorted names) [] w) as Hf.
  destruct Hraise as [e He].
  destruct (for_each (Str.sorted names) [] (faq_step d) w) as [w1 r].
  cbn [fst snd] in *. subst r. now exists e, w1.
Qed.

(* ------------------------------------------------------------------ *)
(** ** Pages that are built whatever the files hold *)

(** A statement that returns on every tree and changes nothing but the
    log. *)
Definition calm {A} (m : M A) : Prop := forall w, quiet w (m w).

Lemma calm_ret {A} (a : A) : calm (ret a).
Proof. intros w. apply quiet_here. Qed.

Lemma calm_load_data (p : FS.path) : calm (load_data p).
Proof. intros w. apply load_data_quiet. Qed.

Lemma calm_bind {A B} (m : M A) (k : A -> M B) :
  calm m -> (forall a, calm (k a)) -> calm (bind m k).
Proof.
  intros Hm Hk w. unfold bind. destruct (Hm w) as (a & log & ->).
  apply quiet_after with (log := log). apply Hk.
Qed.

Lemma calm_for_each {A X} (body : A -> X -> M A) :
  (forall a x, calm (body a x)) -> forall xs a, calm (for_each xs a body).
Proof.
  intros Hbody. induction xs as [|x xs IH]; intros a; cbn [for_each].
  - apply calm_ret.
  - apply calm_bind; [apply Hbody | intros a'; apply IH].
Qed.



(** The directory constant [o], when set, names a directory of [t]. *)
Definition listable (o : option FS.path) (t : FS.tree) : Prop :=
  match chosen o with
  | Some d => FS.isdir t d = true
  | None => True
  end.












(* ------------------------------------------------------------------ *)
(** ** The first value that can be shown *)

(** A value [_first_nonempty] takes: a string that is not blank, a number
    that is not NaN, or a mapping with such a string under "@value". *)
Definition usable_value (v : pyval) : bool :=
  match v with
  | PStr s => nonblank s
  | PBool _ | PInt _ => true
  | PFloat f => F64.eqb f f
  | PDict d =>
      match Py.lookup d "@value" with
      | Some (PStr s) => nonblank s
      | _ => false
      end
  | _ => false
  end.

(** X28.  [_first_nonempty] passes over the values it cannot show (None,
    blank strings, lists, NaN, mappings without a text under "@value") and
    returns the first value it can show, whatever comes after it; with no
    such value it returns the empty string.  An integer counts as a value
    even when it is 0. *)
Theorem first_nonempty_takes_the_first_usable (skipped rest : list pyval) :
  forallb (fun v => negb (usable_value v)) skipped = true ->
  _first_nonempty skipped = ""
  /\ _first_nonempty (app skipped rest) = _first_nonempty rest
  /\ (forall v, usable_value v = true ->
        _first_nonempty (app skipped (v :: rest)) = _first_nonempty [v])
  /\ (forall s, nonblank s = true ->
        _first_nonempty (app skipped (PStr s :: rest)) = Str.strip s)
  /\ (forall z, _first_nonempty (app skipped (PInt z :: rest)) = Str.of_Z z).
Proof.
  intros Hskip.
  assert (Hpass : forall tail, _first_nonempty (app skipped tail) = _first_nonempty tail).
  { intros tail. induction skipped as [|v skipped IH]; [reflexivity|].
    cbn [forallb] in Hskip. apply andb_prop in Hskip. destruct Hskip as [Hv Hskip].
    apply negb_true_iff in Hv. specialize (IH Hskip). cbn [app _first_nonempty].
    destruct v as [|b|z|f|s|l|d]; cbn [usable_value] in Hv; try discriminate; try exact IH.
    - rewrite Hv. exact IH.
    - fold (nonblank s). rewrite Hv. exact IH.
    - destruct (Py.lookup d "@value") as [[|b|z|f|s|l|d']|]; try exact IH.
      fold (nonblank s). rewrite Hv. exact IH. }
  split; [rewrite <- (app_nil_r skipped); apply Hpass|].
  split; [apply Hpass|]. split; [|split].
  - intros v Hv. rewrite Hpass. cbn [_first_nonempty].
    destruct v as [|b|z|f|s|l|d]; cbn [usable_value] in Hv; try discriminate; try reflexivity.
    + now rewrite Hv.
    + fold (nonblank s). now rewrite Hv.
    + destruct (Py.lookup d "@value") as [[|b|z|f|s|l|d']|]; try discriminate.
      fold (nonblank s). now rewrite Hv.
  - intros s Hs. rewrite Hpass. cbn [_first_nonempty]. fold (nonblank s). now rewrite Hs.
  - intros z. rewrite Hpass. reflexivity.
Qed.

Lemma first_nonempty_skips (skipped tail : list pyval) :
  forallb (fun v => negb (usable_value v)) skipped = true ->
  _first_nonempty (app skipped tail) = _first_nonempty tail.
Proof.
  induction skipped as [|v skipped IH]; intros Hskip; [reflexivity|].
  cbn [forallb] in Hskip. apply andb_prop in Hskip. destruct Hskip as [Hv Hskip].
  apply negb_true_iff in Hv. specialize (IH Hskip). cbn [app _first_nonempty].
  destruct v as [|b|z|f|s|l|d]; cbn [usable_value] in Hv; try discriminate; try exact IH.
  - rewrite Hv. exact IH.
  - fold (nonblank s). rewrite Hv. exact IH.
  - destruct (Py.lookup d "@value") as [[|b|z|f|s|l|d']|]; try exact IH.
    fold (nonblank s). rewrite Hv. exact IH.
Qed.

Lemma first_nonempty_takes (v : pyval) (rest : list pyval) :
  usable_value v = true -> _first_nonempty (v :: rest) = _first_nonempty [v].
Proof.
  intros Hv. cbn [_first_nonempty].
  destruct v as [|b|z|f|s|l|d]; cbn [usable_value] in Hv; try discriminate; try reflexivity.
  - now rewrite Hv.
  - fold (nonblank s). now rewrite Hv.
  - destruct (Py.lookup d "@value") as [[|b|z|f|s|l|d']|]; try discriminate.
    fold (nonblank s). now rewrite Hv.
Qed.

(* ------------------------------------------------------------------ *)
(** ** Opening hours *)

Lemma after_last_app (sep : ascii) (x y : string) :
  Str.contains (String sep "") y = false -> Str.after_last sep (x ++ String sep y) = y.
Proof.
  intros Hy. unfold Str.after_last.
  rewrite split_app_sep, (split_no_sep sep y Hy). apply last_last.
Qed.

(** The row of an entry whose day reads [shown]. *)
Definition hours_row_of (shown : string) (rd : dict) : list string :=
  let day := if Str.contains "/" shown then Str.after_last "/"%char shown else shown in
  let opens := _first_nonempty (gets rd ["opens"; "openingTime"]) in
  let closes := _first_nonempty (gets rd ["closes"; "closingTime"]) in
  if nonempty_str day && (nonempty_str opens || nonempty_str closes)
  then [day ++ ": " ++ or_dash opens ++ " – " ++ or_dash closes]
  else [].

(** X27.  The day of an entry of the opening hours is the first of
    dayOfWeek, day and weekday that [_first_nonempty] takes: a text that
    is not blank, a number (NaN aside), or a mapping with such a text under
    "@value".  An entry with no such value yields no row; so does an entry whose day
    is given as a list, the branch that would take the first element of a
    list being out of reach.  A day given as a URL is shown by its last
    segment. *)
Theorem hours_row_reads_the_day (rd : dict) :
  (forallb (fun v => negb (usable_value v)) (gets rd ["dayOfWeek"; "day"; "weekday"]) = true ->
   hours_row (PDict rd) = [])
  /\ ((forall k, In k ["dayOfWeek"; "day"; "weekday"] ->
         match Py.get rd k with PList _ | PNone => True | _ => False end) ->
      hours_row (PDict rd) = [])
  /\ (forall skipped v rest,
        gets rd ["dayOfWeek"; "day"; "weekday"] = app skipped (v :: rest) ->
        forallb (fun x => negb (usable_value x)) skipped = true ->
        usable_value v = true ->
        hours_row (PDict rd) = hours_row_of (_first_nonempty [v]) rd)
  /\ (forall base day,
        Py.get rd "dayOfWeek" = PStr (base ++ "/" ++ day) ->
        Str.strip (base ++ "/" ++ day) = base ++ "/" ++ day ->
        Str.is_empty day = false -> Str.contains "/" day = false ->
        hours_row (PDict rd)
        = let opens := _first_nonempty (gets rd ["opens"; "openingTime"]) in
          let closes := _first_nonempty (gets rd ["closes"; "closingTime"]) in
          if nonempty_str opens || nonempty_str closes
          then [day ++ ": " ++ or_dash opens ++ " – " ++ or_dash closes]
          else []).
Proof.
  assert (Hnone : forallb (fun v => negb (usable_value v))
                    (gets rd ["dayOfWeek"; "day"; "weekday"]) = true ->
                  hours_row (PDict rd) = []).
  { intros H. unfold hours_row.
    rewrite <- (app_nil_r (gets rd ["dayOfWeek"; "day"; "weekday"])).
    rewrite (first_nonempty_skips _ [] H). reflexivity. }
  split; [exact Hnone|]. split; [|split].
  - intros H. apply Hnone. unfold gets. cbn [map forallb].
    pose proof (H "dayOfWeek" (or_introl eq_refl)) as H1.
    pose proof (H "day" (or_intror (or_introl eq_refl))) as H2.
    pose proof (H "weekday" (or_intror (or_intror (or_introl eq_refl)))) as H3.
    destruct (Py.get rd "dayOfWeek"); try contradiction;
      destruct (Py.get rd "day"); try contradiction;
      destruct (Py.get rd "weekday"); try contradiction; reflexivity.
  - intros skipped v rest Hvals Hskip Hv. unfold hours_row, hours_row_of.
    now rewrite Hvals, (first_nonempty_skips skipped _ Hskip), (first_nonempty_takes v rest Hv).
  - intros base day Hday Hstrip Hne Hslash. unfold hours_row, gets. cbn [map].
    rewrite Hday. cbn [_first_nonempty]. rewrite Hstrip.
    assert (Hv : Str.is_empty (base ++ "/" ++ day) = false) by now destruct base.
    rewrite Hv. cbn [negb].
    change (base ++ "/" ++ day) with (base ++ String "/" day).
    assert (Hc : Str.contains "/" (base ++ String "/" day) = true).
    { rewrite contains_char_app, contains_char_cons, Ascii.eqb_refl. cbn [orb].
      apply orb_true_r. }
    rewrite Hc, (after_last_app "/"%char base day Hslash).
    unfold nonempty_str at 1. rewrite Hne. cbn [negb andb]. reflexivity.
Qed.

(* ------------------------------------------------------------------ *)
(** ** The average rating of the About page *)

(** The records [load_data] returns for the file [p] of the tree [t]. *)
Definition records_of (t : FS.tree) (p : FS.path) : list pyval :=
  match parse_attempt t p with
  | Some (Ok v) => as_records (Py.or v (PList []))
  | _ => []
  end.

(** The records of the schema files of the directory [d], file by file
    in the order [names] lists them. *)
Definition reviews_records (t : FS.tree) (d : FS.path) (names : list string) : list pyval :=
  flat_map (fun fn => records_of t (d ++ [fn])%list) (filter is_schema_file names).

Lemma load_data_records (p : FS.path) (w : world) :
  exists log,
    load_data p w = (World (files w) (app (stdout w) log), Ok (records_of (files w) p)).
Proof.
  rewrite load_data_run. unfold records_of.
  destruct (parse_attempt (files w) p) as [[v|e]|].
  - exists []. now rewrite app_nil_r, world_eta.
  - now eexists.
  - exists []. now rewrite app_nil_r, world_eta.
Qed.

Lemma review_ratings_app (a b : list pyval) :
  review_ratings (app a b) = app (review_ratings a) (review_ratings b).
Proof. unfold review_ratings. apply flat_map_app. Qed.

Lemma about_ratings_loop (d : FS.path) (names : list string) :
  forall (acc : list F64.t) (w : world),
  exists log,
    for_each names acc (about_ratings_step d) w
    = (World (files w) (app (stdout w) log),
       Ok (app acc (review_ratings (reviews_records (files w) d names)))).
Proof.
  induction names as [|fn names IH]; intros acc w.
  - exists []. cbn. unfold ret. now rewrite !app_nil_r, world_eta.
  - cbn [for_each]. unfold bind at 1, about_ratings_step at 1, reviews_records.
    cbn [filter]. destruct (is_schema_file fn); cbn [negb].
    + unfold bind at 1. destruct (load_data_records (d ++ [fn])%list w) as [log ->].
      unfold ret. cbv beta iota.
      destruct (IH (app acc (review_ratings (records_of (files w) (d ++ [fn])%list)))
                  (World (files w) (app (stdout w) log))) as [log' ->].
      exists (app log log'). cbn [files stdout flat_map].
      now rewrite review_ratings_app, !app_assoc.
    + unfold ret. cbv beta iota. apply IH.
Qed.

Lemma about_ratings_run (d : FS.path) (names : list string) (w : world) :
  chosen (REVIEWS_DIR g) = Some d -> FS.listdir (files w) d = Ok names ->
  exists log,
    about_ratings w
    = (World (files w) (app (stdout w) log),
       Ok (review_ratings (reviews_records (files w) d names))).
Proof.
  intros Hd Hnames. unfold about_ratings. rewrite Hd.
  unfold bind at 1, listdir, reads_result. rewrite Hnames.
  apply (about_ratings_loop d names [] w).
Qed.

(** [page] holds [text]. *)
Definition shows (page text : string) : Prop :=
  exists before rest, page = before ++ text ++ rest.

Lemma shows_within (page mid text : string) :
  shows page mid -> shows mid text -> shows page text.
Proof.
  intros (a & b & ->) (c & e & ->). exists (a ++ c), (e ++ b). now rewrite !append_assoc.
Qed.

Lemma shows_in_join (sep : string) (l : list string) (x : string) :
  In x l -> shows (Str.join sep l) x.
Proof.
  induction l as [|y l IH]; [contradiction|]. intros [->|Hin].
  - destruct l as [|z l].
    + exists "", "". cbn. now rewrite append_nil_r.
    + rewrite join_cons. now exists "", (sep ++ Str.join sep (z :: l)).
  - destruct l as [|z l]; [contradiction|]. rewrite join_cons.
    destruct (IH Hin) as (a & b & ->). exists (y ++ sep ++ a), b.
    now rewrite !append_assoc.
Qed.

Lemma calm_about_services_step (d : FS.path) (titles : list string) (fn : string) :
  calm (about_services_step d titles fn).
Proof.
  unfold about_services_step. destruct (negb (is_schema_file fn)); [apply calm_ret|].
  apply calm_bind; [apply calm_load_data | intros data; apply calm_ret].
Qed.

Lemma calm_about_locations_step (d : FS.path) (acc : contact_facts) (fn : string) :
  calm (about_locations_step d acc fn).
Proof.
  unfold about_locations_step. destruct (negb (is_schema_file fn)); [apply calm_ret|].
  apply calm_bind; [apply calm_load_data | intros data; apply calm_ret].
Qed.

Lemma about_org_record_quiet (w : world) :
  listable (ORG_DIR g) (files w) -> quiet w (about_org_record w).
Proof.
  unfold listable, about_org_record. destruct (chosen (ORG_DIR g)) as [d|];
    [|intros _; apply quiet_here].
  intros Hd. unfold bind at 1, listdir, reads_result.
  destruct (listdir_of_dir _ _ Hd) as [names ->].
  destruct (List.find is_schema_file (Str.sorted names)) as [fn|]; [|apply quiet_here].
  apply calm_bind; [apply calm_load_data | intros data; apply calm_ret].
Qed.

Lemma about_service_titles_quiet (w : world) :
  listable (SERVICES_DIR g) (files w) -> quiet w (about_service_titles w).
Proof.
  unfold listable, about_service_titles. destruct (chosen (SERVICES_DIR g)) as [d|];
    [|intros _; apply quiet_here].
  intros Hd. unfold bind at 1, listdir, reads_result.
  destruct (listdir_of_dir _ _ Hd) as [names ->].
  apply calm_for_each. intros titles fn. apply calm_about_services_step.
Qed.

Lemma about_contact_facts_quiet (w : world) :
  listable (LOCATIONS_DIR g) (files w) -> quiet w (about_contact_facts w).
Proof.
  unfold listable, about_contact_facts. destruct (chosen (LOCATIONS_DIR g)) as [d|];
    [|intros _; apply quiet_here].
  intros Hd. unfold bind at 1, listdir, reads_result.
  destruct (listdir_of_dir _ _ Hd) as [names ->].
  apply calm_for_each. intros acc fn. apply calm_about_locations_step.
Qed.

(** The About page of a tree whose directories can be listed: it is
    written, and it shows the row computed from the ratings of the reviews
    directory. *)
Lemma about_page_shows_rating (clk : clock) (w : world) (d : FS.path) (names : list string)
    (row : string) :
  dirs_safe g = true ->
  listable (ORG_DIR g) (files w) -> listable (SERVICES_DIR g) (files w) ->
  listable (LOCATIONS_DIR g) (files w) ->
  chosen (REVIEWS_DIR g) = Some d -> FS.listdir (files w) d = Ok names ->
  rating_fact (review_ratings (reviews_records (files w) d names)) = Ok (Some row) ->
  exists w' page before rest,
    generate_about_page clk w = (w', Ok true)
    /\ FS.read_text (files w') ["about.html"] = Ok page
    /\ page = before ++ ("<li>" ++ row ++ "</li>") ++ rest.
Proof.
  intros Hs Ho Hsv Hl Hd Hnames Hrow. unfold generate_about_page.
  unfold bind at 1. destruct (about_org_record_quiet w Ho) as (org_obj & log1 & ->).
  cbv beta iota.
  unfold bind at 1.
  destruct (load_org_meta_quiet (World (files w) (app (stdout w) log1)) Ho)
    as (org_meta & log2 & ->).
  cbv beta iota. cbn [files stdout].
  unfold bind at 1.
  destruct (about_service_titles_quiet (World (files w) (app (app (stdout w) log1) log2)) Hsv)
    as (titles & log3 & ->).
  cbv beta iota. cbn [files stdout].
  unfold bind at 1.
  destruct (about_contact_facts_quiet
              (World (files w) (app (app (app (stdout w) log1) log2) log3)) Hl)
    as (contact & log4 & ->).
  cbv beta iota. cbn [files stdout].
  unfold bind at 1.
  destruct (about_ratings_run d names
              (World (files w) (app (app (app (app (stdout w) log1) log2) log3) log4))
              Hd Hnames) as (log5 & ->).
  cbv beta iota. cbn [files stdout].
  unfold bind at 1, lift at 1. rewrite Hrow. cbv beta iota.
  unfold bind at 1.
  match goal with
  | |- context [write_page "about.html" (generate_page clk ?title ?content) ?w0] =>
      destruct (placeholder_page_written "about.html" clk title content
                  ("<li>" ++ row ++ "</li>") w0 eq_refl Hs Ho)
        as (w1 & page & before & rest & -> & Hread & Hpage)
  end.
  - match goal with
    | |- exists a b, Str.join ?sep ?parts = _ =>
        change (shows (Str.join sep parts) ("<li>" ++ row ++ "</li>"))
    end.
    assert (Hin : In row (about_facts titles (Some row) contact)).
    { unfold about_facts. apply in_or_app. right. apply in_or_app. left. now left. }
    destruct (about_facts titles (Some row) contact) as [|fact0 facts] eqn:Hfacts;
      [contradiction|].
    eapply shows_within.
    + apply shows_in_join. apply in_or_app. right. apply in_or_app. right.
      apply in_or_app. left. left. reflexivity.
    + eapply shows_within; [eexists _, _; reflexivity|].
      apply shows_in_join. apply (in_map (fun r => "<li>" ++ r ++ "</li>")). exact Hin.
  - unfold bind, print, ret. cbn [fst snd files].
    eexists. exists page, before, rest. split; [reflexivity|]. split; assumption.
Qed.

Lemma resolved_chosen (t : FS.tree) (candidates : list FS.path) (d : FS.path) :
  _first_existing_dir t candidates = Some d ->
  chosen (_first_existing_dir t candidates) = Some d.
Proof.
  intros H. rewrite H. unfold chosen.
  induction candidates as [|c cs IH]; [discriminate|].
  cbn [_first_existing_dir] in H.
  destruct (negb (Str.is_empty (FS.path_str c)) && FS.isdir t c) eqn:Hc; [|now apply IH].
  injection H as <-. apply andb_prop in Hc. destruct Hc as [Hc _].
  apply negb_true_iff in Hc. now rewrite Hc.
Qed.

Lemma resolved_here (t : FS.tree) (candidates : list FS.path) :
  listable (_first_existing_dir t candidates) t.
Proof.
  unfold listable. destruct (chosen (_first_existing_dir t candidates)) as [d|] eqn:Hc;
    [|exact I].
  apply chosen_some in Hc. now apply (first_existing_dir_isdir t candidates).
Qed.

(** C7.  When the directory constants were resolved in the tree the page
    is built in, about.html is not a directory there, and the positive
    ratings of the records of the reviews directory are 5, 3 and 4, in any
    order and in any of its files, then the About page is written and its
    average-rating row reads "4.0" followed by four filled stars and one
    empty star. *)
Theorem about_average_of_5_3_4 (clk : clock) (w : world) (d : FS.path) (names : list string) :
  g = resolve_dirs (files w) ->
  FS.isdir (files w) ["about.html"] = false ->
  REVIEWS_DIR g = Some d ->
  FS.listdir (files w) d = Ok names ->
  Permutation (review_ratings (reviews_records (files w) d names))
              [F64.of_Z 5; F64.of_Z 3; F64.of_Z 4] ->
  (exists log,
     about_ratings w
     = (World (files w) (app (stdout w) log),
        Ok (review_ratings (reviews_records (files w) d names))))
  /\ rating_fact (review_ratings (reviews_records (files w) d names))
     = Ok (Some ("<strong>Average rating:</strong> 4.0 "
                 ++ Str.repeat "★" 4 ++ Str.repeat "☆" 1))
  /\ exists w' page before rest,
       generate_about_page clk w = (w', Ok true)
       /\ FS.read_text (files w') ["about.html"] = Ok page
       /\ page = before ++ "<li><strong>Average rating:</strong> 4.0 ★★★★☆</li>" ++ rest.
Proof.
  intros Hg _ Hd Hnames Hperm.
  assert (Hchosen : chosen (REVIEWS_DIR g) = Some d).
  { rewrite Hg in *. cbn [REVIEWS_DIR resolve_dirs] in *. now apply resolved_chosen. }
  assert (Hrow : rating_fact (review_ratings (reviews_records (files w) d names))
                 = Ok (Some ("<strong>Average rating:</strong> 4.0 "
                             ++ Str.repeat "★" 4 ++ Str.repeat "☆" 1))).
  { apply permutation_of_three in Hperm.
    destruct Hperm as [H|[H|[H|[H|[H|H]]]]]; rewrite H; reflexivity. }
  split; [now apply about_ratings_run|]. split; [exact Hrow|].
  assert (Hlist : dirs_safe g = true /\ listable (ORG_DIR g) (files w)
                  /\ listable (SERVICES_DIR g) (files w)
                  /\ listable (LOCATIONS_DIR g) (files w)).
  { rewrite Hg. split; [apply resolve_dirs_safe|]. repeat split; apply resolved_here. }
  destruct Hlist as (Hs & Ho & Hsv & Hl).
  destruct (about_page_shows_rating clk w d names _ Hs Ho Hsv Hl Hchosen Hnames Hrow)
    as (w' & page & before & rest & Hrun & Hread & Hpage).
  exists w', page, before, rest. split; [exact Hrun|]. split; [exact Hread | exact Hpage].
Qed.

(** X29.  The ratings the About page collects for its average are those
    of the reviews directory, file by file in the order the directory is
    listed and record by record: a record that is a mapping whose rating
    converts to a float greater than zero gives that float, once; any
    other record (no mapping, or a rating that is missing, not a number,
    NaN, zero or negative) gives nothing. *)
Theorem about_average_takes_positive_ratings (w : world) (d : FS.path) (names : list string) :
  chosen (REVIEWS_DIR g) = Some d ->
  FS.listdir (files w) d = Ok names ->
  (exists log,
     about_ratings w
     = (World (files w) (app (stdout w) log),
        Ok (review_ratings (reviews_records (files w) d names))))
  /\ (forall a b, review_ratings (app a b) = app (review_ratings a) (review_ratings b))
  /\ (forall rev,
        (exists rd r, rev = PDict rd /\ py_float (Py.get rd "rating") = Ok r
                      /\ F64.gtb r F64.zero = true /\ review_ratings [rev] = [r])
        \/ ((forall rd r, rev = PDict rd -> py_float (Py.get rd "rating") = Ok r ->
                          F64.gtb r F64.zero = false)
            /\ review_ratings [rev] = [])).
Proof.
  intros Hd Hnames.
  split; [now apply about_ratings_run|]. split; [apply review_ratings_app|].
  - intros rev. destruct rev as [|b|z|f|s|l|rd];
      try (right; split; [intros rd r H; discriminate H | reflexivity]).
    unfold review_ratings, positive_rating. cbn [flat_map].
    destruct (py_float (Py.get rd "rating")) as [r|e] eqn:Hf.
    + destruct (F64.gtb r F64.zero) eqn:Hpos.
      * left. exists rd, r. repeat split; assumption.
      * right. split; [|reflexivity]. intros rd' r' [= <-] Hf'. congruence.
    + right. split; [|reflexivity]. intros rd' r' [= <-] Hf'. congruence.
Qed.

End Builder.

(* ------------------------------------------------------------------ *)
(** ** The two runs, for the directories the module resolves *)

(** C9.  Whatever tree the module was imported in, two runs in a row
    over the same inputs, at two different times, leave the same eight
    pages but for the footer line that carries the year and the time stamp
    (a page the first run failed to write, the second fails to write as
    well), and end with the same exit status. *)
Theorem rebuild_changes_footer_only
    (json_loads yaml_safe_load : string -> result pyval)
    (float_of_str : string -> result F64.t) (repr : pyval -> string)
    (repo_slug : string) (imported_in : FS.tree) (clk1 clk2 : string -> clock) (w : world) :
  let build := main json_loads yaml_safe_load float_of_str repr repo_slug
                 (resolve_dirs imported_in) in
  (forall f, In f html_files ->
     same_page clk1 clk2 f (FS.find f (files (fst (build clk1 w))))
       (FS.find f (files (fst (build clk2 (fst (build clk1 w)))))))
  /\ snd (build clk1 w) = snd (build clk2 (fst (build clk1 w))).
Proof.
  cbv zeta.
  exact (second_run_same_pages json_loads yaml_safe_load float_of_str repr repo_slug
           (resolve_dirs imported_in) clk1 clk2 w (resolve_dirs_safe imported_in)).
Qed.

(* ------------------------------------------------------------------ *)
(** ** The builder on sample repositories *)

Module Sample.

Definition services_json : FS.tree :=
  [("services", FS.Dir [("roofing.json", FS.File (q "{`title`: `Roofing`}"))])].
Definition services_keywords : FS.tree :=
  [("services",
    FS.Dir [("roofing.json",
             FS.File (q "{`title`: `Service`, `keywords`: [`roof repair`]}"))])].
Definition faq_wrapper : FS.tree :=
  [("faqs",
    FS.Dir [("general.json",
             FS.File (q "{`faqs`: [{`question`: `Q?`, `answer`: `A.`}]}"))])].
Definition locations_wrapper : FS.tree :=
  [("locations",
    FS.Dir [("offices.json", FS.File (q "{`locations`: [{`name`: `HQ`}]}"))])].
Definition reviews : FS.tree :=
  [("reviews",
    FS.Dir [("a.json", FS.File (q "[{`rating`: 5}, {`rating`: 3}]"));
            ("b.json", FS.File (q "{`rating`: 4}"))])].
Definition one_bad_file : FS.tree :=
  [("services",
    FS.Dir [("broken.json", FS.File "{oops");
            ("roofing.json", FS.File (q "{`title`: `Roofing`}"))])].
Definition bad_location : FS.tree :=
  [("locations",
    FS.Dir [("hq.json", FS.File (q "{`name`: `HQ`, `geo`: `40.7,-74.0`}"))])].
Definition page_is_a_folder : FS.tree :=
  [("index.html", FS.Dir [("old.txt", FS.File "kept")]);
   ("services", FS.Dir [("roofing.json", FS.File (q "{`title`: `Roofing`}"))])].

(** A run started in the tree [t], where the module was imported too. *)
Definition start (t : FS.tree) : world := World t [].

Definition page (render : dirs -> clock -> M bool) (t : FS.tree) (name : string) : string :=
  match FS.read_text (files (fst (render (resolve_dirs t) Demo.noon (start t)))) [name] with
  | Ok text => text
  | Raise _ => ""
  end.

Definition services_page := generate_services_page Demo.json_loads Demo.yaml_safe_load
                              Demo.repr "acme/site".
Definition faq_page := generate_faq_page Demo.json_loads Demo.yaml_safe_load Demo.repr
                         "acme/site".
Definition contact_page := generate_contact_page Demo.json_loads Demo.yaml_safe_load
                             Demo.repr "acme/site".
Definition about_page := generate_about_page Demo.json_loads Demo.yaml_safe_load
                           Demo.float_of_str Demo.repr "acme/site".
Definition build (t : FS.tree) : world * result Z :=
  main Demo.json_loads Demo.yaml_safe_load Demo.float_of_str Demo.repr "acme/site"
    (resolve_dirs t) (fun _ => Demo.noon) (start t).

End Sample.

(** *** The record loader *)



(** *** Files that are not loaded *)



(** *** Titles of service cards *)

(** C6 fails for a record with keywords: the title "Service" is replaced
    by the keywords, not by the title derived from the file name. *)
Lemma generic_title_takes_keywords :
  let svc := [("title", PStr "Service"); ("keywords", PList [PStr "roof repair"])] in
  _title_from_filename ["roofing.json"] = "Roofing"
  /\ service_card_title Demo.repr "roofing.json" svc = "Roof Repair"
  /\ Str.contains "<h2>Roof Repair </h2>"
       (Sample.page Sample.services_page Sample.services_keywords "services.html") = true
  /\ Str.contains "<h2>Roofing </h2>"
       (Sample.page Sample.services_page Sample.services_keywords "services.html") = false.
Proof. cbv zeta. repeat split; vm_compute; reflexivity. Qed.

(** The title derived from the file name is not checked: for a file
    named service.json the card reads "Service" again. *)
Example file_name_title_can_be_generic :
  service_card_title Demo.repr "service.json" [("title", PStr "Service")] = "Service"
  /\ service_card_title Demo.repr "item-3.json" [("title", PStr "item 3")] = "Item 3".
Proof. split; reflexivity. Qed.

Lemma generic_service_title_replaced_witness :
  service_card_title Demo.repr "gutter-cleaning.json" [("title", PStr "item 3")]
  = "Gutter Cleaning".
Proof.
  exact (proj1 (generic_service_title_replaced Demo.repr "gutter-cleaning.json"
                  [("title", PStr "item 3")] (or_intror eq_refl))).
Defined.

(** *** The average rating *)

Lemma about_average_of_5_3_4_witness :
  exists w' page before rest,
    Sample.about_page (resolve_dirs Sample.reviews) Demo.noon (Sample.start Sample.reviews)
    = (w', Ok true)
    /\ FS.read_text (files w') ["about.html"] = Ok page
    /\ page = before ++ "<li><strong>Average rating:</strong> 4.0 ★★★★☆</li>" ++ rest.
Proof.
  refine (proj2 (proj2
            (about_average_of_5_3_4 Demo.json_loads Demo.yaml_safe_load Demo.float_of_str
               Demo.repr "acme/site" (resolve_dirs Sample.reviews) Demo.noon
               (Sample.start Sample.reviews) ["reviews"] ["a.json"; "b.json"]
               eq_refl eq_refl eq_refl eq_refl _))).
  vm_compute. apply Permutation_refl.
Defined.

(** The row as it stands in the page built from two review files. *)
Example about_page_shows_average :
  Str.contains "<li><strong>Average rating:</strong> 4.0 ★★★★☆</li>"
    (Sample.page Sample.about_page Sample.reviews "about.html") = true.
Proof. vm_compute. reflexivity. Qed.

(** *** Star ratings *)

Lemma review_stars_one_to_five_witness :
  review_rating Demo.float_of_str [("author", PStr "Ann"); ("rating", PStr "great")] = 5%Z
  /\ star_display
       (review_rating Demo.float_of_str [("author", PStr "Ann"); ("rating", PStr "great")])
     = "★★★★★".
Proof.
  exact (proj2 (proj2 (proj2
           (review_stars_one_to_five Demo.float_of_str Demo.repr
              [("author", PStr "Ann"); ("rating", PStr "great")])))
           (PStr "great") _ eq_refl eq_refl).
Defined.

(** *** Pages without a source directory *)



(** *** Wrapped record lists *)

Lemma normalize_records_of_list (l : list pyval) : _normalize_records (PList l) = l.
Proof. reflexivity. Qed.

(** C4 at two files whose top-level mapping wraps the records.  The FAQ
    page never unwraps: it finds no question in the wrapper and shows "No
    usable FAQs".  The contact page calls [_normalize_records] on the list
    [load_data] returned, which is returned as it is: the wrapper is drawn
    as one location with the default name, and the inner record is not
    shown. *)
Theorem wrapped_records_are_not_unwrapped :
  load_data Demo.json_loads Demo.yaml_safe_load ["faqs"; "general.json"]
    (Sample.start Sample.faq_wrapper)
  = (Sample.start Sample.faq_wrapper,
     Ok [PDict [("faqs", PList [PDict [("question", PStr "Q?"); ("answer", PStr "A.")]])]])
  /\ Str.contains "No usable FAQs found yet."
       (Sample.page Sample.faq_page Sample.faq_wrapper "faqs.html") = true
  /\ Str.contains "Q?" (Sample.page Sample.faq_page Sample.faq_wrapper "faqs.html") = false
  /\ Str.contains "<h3>Location</h3>"
       (Sample.page Sample.contact_page Sample.locations_wrapper "contact.html") = true
  /\ Str.contains "<h3>HQ</h3>"
       (Sample.page Sample.contact_page Sample.locations_wrapper "contact.html") = false.
Proof. repeat split; vm_compute; reflexivity. Qed.

(** *** A run with a failing renderer *)

(** The contact page raises on a location whose "geo" is a string; the
    seven other pages are written all the same and the exit status is 2. *)
Example failing_renderer_does_not_stop_the_run :
  snd (Sample.build Sample.bad_location) = Ok 2%Z
  /\ map (fun f => FS.exists_ (files (fst (Sample.build Sample.bad_location))) [f]) html_files
     = [true; true; true; true; true; true; true; false].
Proof. split; vm_compute; reflexivity. Qed.

(** *** A file that does not parse *)

Lemma malformed_file_is_skipped_witness :
  services_step Demo.json_loads Demo.yaml_safe_load Demo.repr ["services"] []
    "broken.json" (Sample.start Sample.one_bad_file)
  = (World Sample.one_bad_file
       ["❌ Failed to load services/broken.json: Expecting value: line 1 column 1 (char 0)"],
     Ok []).
Proof.
  exact (proj1 (malformed_file_is_skipped Demo.json_loads Demo.yaml_safe_load
                  Demo.float_of_str Demo.repr ["services"] "broken.json"
                  (Sample.start Sample.one_bad_file) _ eq_refl eq_refl) []).
Defined.

(** The page built from a directory with a broken file and a good one
    shows the record of the good one. *)
Example good_file_beside_a_broken_one :
  Str.contains "<h2>Roofing </h2>"
    (Sample.page Sample.services_page Sample.one_bad_file "services.html") = true.
Proof. vm_compute. reflexivity. Qed.

(** *** Addresses *)

Lemma address_of_city_and_state_witness :
  _format_address Demo.repr
    [("name", PStr "HQ");
     ("address", PDict [("country", PStr "US"); ("city", PStr "Austin");
                        ("state", PStr " TX ")])]
  = "Austin, TX".
Proof.
  apply (address_of_city_and_state Demo.repr
           [("name", PStr "HQ");
            ("address", PDict [("country", PStr "US"); ("city", PStr "Austin");
                               ("state", PStr " TX ")])]
           [("country", PStr "US"); ("city", PStr "Austin"); ("state", PStr " TX ")]
           "Austin" " TX "); try reflexivity; try discriminate.
  intros k Hk. cbn [In] in Hk.
  repeat (destruct Hk as [<-|Hk]; [reflexivity|]). contradiction.
Defined.

(* ------------------------------------------------------------------ *)
(** ** More of the builder on sample inputs *)

(** *** Escaping and slugs *)

Example escape_html_example :
  escape_html (PStr "<b>Tom & Jerry's</b>") = "&lt;b&gt;Tom &amp; Jerry's&lt;/b&gt;".
Proof. reflexivity. Qed.

Example slugify_example : slugify "Roof Repair  & More!" = "roof-repair-more".
Proof. reflexivity. Qed.

(** *** Lists of strings *)

Lemma as_list_items_are_clean_witness :
  Str.is_empty "gutters" = false /\ Str.strip "gutters" = "gutters".
Proof.
  apply (as_list_items_are_clean Demo.repr (PStr "roofing, gutters ,, siding") "gutters").
  vm_compute. right. left. reflexivity.
Defined.

Lemma as_list_splits_at_commas_witness :
  _as_list Demo.repr (PStr "roofing, gutters ,siding") = ["roofing"; "gutters"; "siding"].
Proof.
  apply (as_list_splits_at_commas Demo.repr ["roofing"; " gutters "; "siding"]).
  repeat (constructor; [split; reflexivity|]). constructor.
Defined.

(** *** Titles *)

Lemma title_from_filename_reads_the_stem_witness :
  _title_from_filename ["schemas"; "services"; "roof-repair_v2.final.json"]
  = "Roof Repair V2.Final".
Proof.
  exact (title_from_filename_reads_the_stem ["schemas"; "services"] "roof-repair_v2.final"
           "json" eq_refl eq_refl).
Defined.

Lemma placeholder_titles_by_shape_witness : _is_placeholder_title (PStr "entry  12") = true.
Proof.
  exact (proj2 placeholder_titles_by_shape "entry" "  " "12"
           (or_intror (or_intror (or_introl eq_refl))) eq_refl eq_refl eq_refl).
Defined.

(** *** Data files below a folder *)

Definition nested_notes : FS.tree :=
  [("llm-data",
    FS.Dir [("readme.txt", FS.File "notes");
            ("guides", FS.Dir [("Care.MD", FS.File "# Care"); ("logo.png", FS.Binary)])])].

Lemma list_data_files_lists_the_files_below_witness :
  In ["llm-data"; "guides"; "Care.MD"] (_list_data_files nested_notes ["llm-data"] [".md"]).
Proof.
  exact (proj2 (list_data_files_lists_the_files_below nested_notes ["llm-data"] [".md"])
           ["guides"] "Care.MD" (FS.File "# Care") eq_refl eq_refl eq_refl eq_refl).
Defined.

Example list_data_files_example :
  _list_data_files nested_notes ["llm-data"] data_exts
  = [["llm-data"; "readme.txt"]; ["llm-data"; "guides"; "Care.MD"]].
Proof. reflexivity. Qed.

(** *** The organization record *)

Definition with_organization : FS.tree :=
  [("organization",
    FS.Dir [("org.json", FS.File (q "{`title`: `Roofing`}"));
            ("about.txt", FS.File "About us")])].

Lemma about_page_reads_the_first_org_file_witness :
  about_org_record Demo.json_loads Demo.yaml_safe_load (resolve_dirs with_organization)
    (Sample.start with_organization)
  = (Sample.start with_organization, Ok (PDict [("title", PStr "Roofing")]))
  /\ first_org_record Demo.json_loads Demo.yaml_safe_load ["organization"]
       (Str.sorted ["org.json"; "about.txt"]) (Sample.start with_organization)
     = (Sample.start with_organization, Ok (PDict [("title", PStr "Roofing")])).
Proof.
  exact (proj1 (about_page_reads_the_first_org_file Demo.json_loads Demo.yaml_safe_load
                  (resolve_dirs with_organization) ["organization"]
                  ["org.json"; "about.txt"] ["about.txt"] [] "org.json"
                  (Sample.start with_organization) eq_refl eq_refl eq_refl eq_refl eq_refl)
           (PDict [("title", PStr "Roofing")]) [] (Sample.start with_organization) eq_refl).
Defined.

(** *** The loop of the contact page *)

Definition contact_loop (acc0 : contact_acc) : world * result contact_acc :=
  for_each ["offices.json"] acc0
    (contact_file_step Demo.json_loads Demo.yaml_safe_load Demo.repr ["locations"])
    (Sample.start Sample.locations_wrapper).

Definition contact_loop_end (acc0 : contact_acc) : contact_acc :=
  match snd (contact_loop acc0) with
  | Ok acc => acc
  | Raise _ => acc0
  end.

Lemma contact_counter_counts_cards_witness :
  ca_records_seen (contact_loop_end (ContactAcc [] "" "" "" 0 0))
  = length (ca_items (contact_loop_end (ContactAcc [] "" "" "" 0 0)))
  /\ (ca_items (contact_loop_end (ContactAcc [] "" "" "" 0 0)) = [] ->
      ca_records_seen (contact_loop_end (ContactAcc [] "" "" "" 0 0)) = 0).
Proof.
  apply (contact_counter_counts_cards Demo.json_loads Demo.yaml_safe_load Demo.repr
           ["locations"] ["offices.json"] (Sample.start Sample.locations_wrapper)
           (fst (contact_loop (ContactAcc [] "" "" "" 0 0)))
           (contact_loop_end (ContactAcc [] "" "" "" 0 0))).
  vm_compute. reflexivity.
Defined.

Lemma quick_contact_keeps_the_first_witness :
  let acc0 := ContactAcc [] "Head Office" "555-0100" "" 0 0 in
  (Str.is_empty (ca_first_name acc0) = false ->
   ca_first_name (contact_loop_end acc0) = ca_first_name acc0)
  /\ (Str.is_empty (ca_first_phone acc0) = false ->
      ca_first_phone (contact_loop_end acc0) = ca_first_phone acc0)
  /\ (Str.is_empty (ca_first_email acc0) = false ->
      ca_first_email (contact_loop_end acc0) = ca_first_email acc0).
Proof.
  cbv zeta.
  apply (quick_contact_keeps_the_first Demo.json_loads Demo.yaml_safe_load Demo.repr
           ["locations"] ["offices.json"] (Sample.start Sample.locations_wrapper)
           (fst (contact_loop (ContactAcc [] "Head Office" "555-0100" "" 0 0)))).
  vm_compute. reflexivity.
Defined.

Lemma location_card_leaves_out_phone_and_email_witness :
  card_block (location_card Demo.repr [("name", PStr "HQ"); ("phone", PStr "555-0100")])
  = card_block (location_card Demo.repr [("name", PStr "HQ"); ("email", PStr "hq@example.com")]).
Proof.
  apply (location_card_leaves_out_phone_and_email Demo.repr
           [("name", PStr "HQ"); ("phone", PStr "555-0100")]
           [("name", PStr "HQ"); ("email", PStr "hq@example.com")]);
    [|reflexivity|reflexivity].
  intros k Hk. unfold Py.get. cbn [Py.lookup].
  destruct (String.eqb "name" k); [reflexivity|].
  destruct (String.eqb "phone" k) eqn:Ephone.
  { apply String.eqb_eq in Ephone. subst k. discriminate Hk. }
  destruct (String.eqb "email" k) eqn:Eemail.
  { apply String.eqb_eq in Eemail. subst k. discriminate Hk. }
  reflexivity.
Defined.

(** *** Help articles *)

Lemma help_article_without_front_matter_witness :
  help_article ["help-articles"; "roof-care.md"] ("# Roof care" ++ Str.nl ++ "- Clean the gutters")
  = article_html "Roof Care" ["# Roof care"; "- Clean the gutters"].
Proof.
  apply (help_article_without_front_matter ["help-articles"; "roof-care.md"]
           ("# Roof care" ++ Str.nl ++ "- Clean the gutters")).
  vm_compute. repeat (constructor; [intros H; discriminate H|]). constructor.
Defined.

Lemma help_article_with_front_matter_witness :
  help_article ["help-articles"; "roof-care.md"]
    ("---" ++ Str.nl ++ "author: Ann" ++ Str.nl ++ "Title: Caring for a roof" ++ Str.nl
     ++ "---" ++ Str.nl ++ "# Roof care" ++ Str.nl ++ "---" ++ Str.nl ++ "Clean the gutters")
  = article_html "Caring for a roof" ["# Roof care"; "---"; "Clean the gutters"].
Proof.
  apply (help_article_with_front_matter ["help-articles"; "roof-care.md"] _
           "Title" " Caring for a roof" ["author: Ann"] []
           ["# Roof care"; "---"; "Clean the gutters"]).
  - vm_compute. reflexivity.
  - vm_compute. repeat (constructor; [intros H; discriminate H|]). constructor.
  - constructor.
  - reflexivity.
  - constructor.
Defined.

(** *** The repository root *)

(** The script lies in a folder of the repository: the root is the
    repository, one level up, since it holds the schemas folder. *)
Example find_repo_root_example :
  find_repo_root
    [("work", FS.Dir [("site", FS.Dir [("schemas", FS.Dir []);
                                       ("ai-generators", FS.Dir [])])])]
    ["work"; "site"; "ai-generators"]
  = ["work"; "site"].
Proof. reflexivity. Qed.

(** *** What a run writes *)

Lemma not_a_page (c : string) :
  existsb (String.eqb c) html_files = false -> ~ In c html_files.
Proof.
  intros E Hin.
  assert (H : existsb (String.eqb c) html_files = true)
    by (apply existsb_exists; exists c; split; [exact Hin | apply String.eqb_refl]).
  congruence.
Qed.

(** A folder named index.html stops the clean-up. *)
Lemma cleanup_removes_the_pages_only_witness :
  (exists f, In f cleanup_names
             /\ FS.isdir (files (Sample.start Sample.page_is_a_folder)) [f] = true
             /\ snd (prepare (Sample.start Sample.page_is_a_folder))
                = Raise (FS.is_a_directory f))
  /\ forall f, FS.isdir (files (Sample.start Sample.page_is_a_folder)) [f] = true ->
               FS.isdir (files (fst (prepare (Sample.start Sample.page_is_a_folder)))) [f]
               = true.
Proof.
  exact (proj1 (proj2 (cleanup_removes_the_pages_only (Sample.start Sample.page_is_a_folder)))
           eq_refl).
Defined.

Example cleanup_on_a_tree_without_pages :
  prepare (Sample.start Sample.services_json)
  = (World ((".nojekyll", FS.File "") :: Sample.services_json)
       ["✅ Created .nojekyll file for GitHub Pages"], Ok tt).
Proof. reflexivity. Qed.

Lemma run_changes_the_pages_only_witness :
  FS.at_path (files (fst (Sample.build Sample.one_bad_file))) ["services"; "broken.json"]
  = FS.at_path Sample.one_bad_file ["services"; "broken.json"].
Proof.
  apply (run_changes_the_pages_only Demo.json_loads Demo.yaml_safe_load Demo.float_of_str
           Demo.repr "acme/site" (resolve_dirs Sample.one_bad_file) (fun _ => Demo.noon)
           (Sample.start Sample.one_bad_file) "services" ["broken.json"]).
  - discriminate.
  - apply not_a_page. reflexivity.
Defined.

(** The contact page of this run raises: it is missing afterwards, and
    the exit status is 2. *)
Lemma run_leaves_whole_pages_witness :
  FS.find "faqs.html" (files (fst (Sample.build Sample.bad_location))) = None
  \/ FS.find "faqs.html" (files (fst (Sample.build Sample.bad_location)))
     = Some (FS.File "")
  \/ complete_page Demo.noon
       (FS.find "faqs.html" (files (fst (Sample.build Sample.bad_location)))).
Proof.
  refine (proj1 (run_leaves_whole_pages Demo.json_loads Demo.yaml_safe_load
                   Demo.float_of_str Demo.repr "acme/site"
                   (resolve_dirs Sample.bad_location) (fun _ => Demo.noon)
                   (Sample.start Sample.bad_location) "faqs.html" _) eq_refl).
  do 5 right. left. reflexivity.
Defined.

Example failed_page_is_missing :
  FS.find "contact.html" (files (fst (Sample.build Sample.bad_location))) = None.
Proof. vm_compute. reflexivity. Qed.


(** *** The site name *)

Lemma site_name_falls_back_on_the_repository_witness :
  load_org_meta Demo.json_loads Demo.yaml_safe_load Demo.repr "acme/roof-repair-co"
    (resolve_dirs Sample.services_json) (Sample.start Sample.services_json)
  = (Sample.start Sample.services_json,
     Ok {| meta_name := PStr "Roof Repair Co"; meta_favicon := PNone; meta_logo := PNone;
           meta_website := PNone |}).
Proof.
  exact (site_name_falls_back_on_the_repository Demo.json_loads Demo.yaml_safe_load
           Demo.repr "acme/roof-repair-co" (resolve_dirs Sample.services_json)
           "acme" "roof-repair-co" (Sample.start Sample.services_json)
           eq_refl eq_refl eq_refl).
Defined.

(** *** A FAQ record that breaks the page *)

(** A loader that knows one more document: a FAQ whose answer is a
    number. *)
Definition numeric_answer : string := q "[{`question`: `How many?`, `answer`: 42}]".

Definition loads_numeric_answer (text : string) : result pyval :=
  if String.eqb text numeric_answer
  then Ok (PList [PDict [("question", PStr "How many?"); ("answer", PInt 42)]])
  else Demo.json_loads text.

Definition faq_with_number : FS.tree :=
  [("faqs", FS.Dir [("count.json", FS.File numeric_answer)])].

Lemma faq_page_fails_on_a_bad_record_witness :
  exists e w',
    generate_faq_page loads_numeric_answer Demo.yaml_safe_load Demo.repr "acme/site"
      (resolve_dirs faq_with_number) Demo.noon (Sample.start faq_with_number)
    = (w', Raise e)
    /\ files w' = files (Sample.start faq_with_number).
Proof.
  exact (faq_page_fails_on_a_bad_record loads_numeric_answer Demo.yaml_safe_load Demo.repr
           "acme/site" (resolve_dirs faq_with_number) Demo.noon
           (Sample.start faq_with_number) ["faqs"] ["count.json"] "count.json"
           (PList [PDict [("question", PStr "How many?"); ("answer", PInt 42)]])
           [("question", PStr "How many?"); ("answer", PInt 42)]
           eq_refl eq_refl (or_introl eq_refl) eq_refl eq_refl (or_introl eq_refl) eq_refl).
Defined.

(** *** Opening hours *)

(** A day given as a number is shown. *)
Lemma hours_row_reads_the_day_witness :
  hours_row Demo.repr (PDict [("dayOfWeek", PInt 3); ("opens", PStr "09:00")])
  = ["3: 09:00 – —"].
Proof.
  exact (proj1 (proj2 (proj2
           (hours_row_reads_the_day Demo.repr [("dayOfWeek", PInt 3); ("opens", PStr "09:00")])))
           [] (PInt 3) [PNone; PNone] eq_refl eq_refl eq_refl).
Defined.

Example hours_row_examples :
  hours_row Demo.repr
    (PDict [("dayOfWeek", PStr "https://schema.org/Monday"); ("opens", PStr "09:00")])
  = ["Monday: 09:00 – —"]
  /\ hours_row Demo.repr
       (PDict [("dayOfWeek", PList [PStr "Monday"; PStr "Tuesday"]); ("opens", PStr "09:00")])
     = []
  /\ hours_row Demo.repr
       (PDict [("weekday", PDict [("@value", PStr "Mon")]); ("closes", PStr "17:00")])
     = ["Mon: — – 17:00"].
Proof. repeat split; reflexivity. Qed.

(** *** The first value that can be shown *)

Lemma first_nonempty_takes_the_first_usable_witness :
  _first_nonempty Demo.repr [PNone; PStr "  "; PList [PStr "x"]; PInt 0; PStr "late"] = "0".
Proof.
  exact (proj2 (proj2 (proj2 (proj2
           (first_nonempty_takes_the_first_usable Demo.repr
              [PNone; PStr "  "; PList [PStr "x"]] [PStr "late"] eq_refl)))) 0%Z).
Defined.

(** *** The clean-up and the driver *)



(** *** The ratings the About page averages *)

Lemma about_average_takes_positive_ratings_witness :
  exists log,
    about_ratings Demo.json_loads Demo.yaml_safe_load Demo.float_of_str
      (resolve_dirs Sample.reviews) (Sample.start Sample.reviews)
    = (World Sample.reviews log, Ok [F64.of_Z 5; F64.of_Z 3; F64.of_Z 4]).
Proof.
  exact (proj1 (about_average_takes_positive_ratings Demo.json_loads Demo.yaml_safe_load
                  Demo.float_of_str (resolve_dirs Sample.reviews)
                  (Sample.start Sample.reviews) ["reviews"] ["a.json"; "b.json"]
                  eq_refl eq_refl)).
Defined.
